(** * Asteroid Blaster: a shallow embedding of [script.js]

    The script keeps its whole game in module-level variables that the
    event listeners, [update], [draw] and [loop] mutate.  Here those
    variables are the fields of one [state] record and every JavaScript
    function is a computation over it that either returns or throws.

    Numbers.  JavaScript numbers are modelled as exact rationals [Q]:
    rounding, overflow and the infinities of binary64 are outside the
    model.  The two values that behave like "not a number" in the script
    ([undefined] read from a property that does not exist, and the [NaN]
    arithmetic makes of it) are one value, [None] of [num]: every
    comparison with it is false and arithmetic propagates it.

    The browser.  [Math.random] and [performance.now] are oracles: the
    n-th call returns the n-th element of a sequence fixed by the [Host].
    The canvas size is a parameter too, the page that declares the canvas
    is not part of the script. *)

From Stdlib Require Import QArith Qminmax Qabs Qround Lqa.
From Stdlib Require Import ZArith Lia List Bool String.
Import ListNotations.

Local Open Scope Q_scope.

(** ** Numbers *)

Definition Qltb (x y : Q) : bool := negb (Qle_bool y x).

(** A number that may be [undefined] or [NaN]. *)
Definition num : Type := option Q.

(** [a - b], [a > b], [a <= b] and [Math.max(a, b)] on such numbers. *)
Definition num_sub (a : num) (b : Q) : num := option_map (fun q => q - b) a.

Definition Q_gt_num (a : Q) (b : num) : bool :=
  match b with Some q => Qltb q a | None => false end.

Definition num_le (a : num) (b : Q) : bool :=
  match a with Some q => Qle_bool q b | None => false end.

Definition Math_max_num (a : Q) (b : num) : num := option_map (Qmax a) b.

(** ** The entities (script.js, lines 79, 129-138, 148-154, 170) *)

Module Player.
Record t : Type := mk { x : Q; y : Q; w : Q; h : Q }.
Definition set_x (v : Q) (p : t) : t := {| x := v; y := y p; w := w p; h := h p |}.
End Player.

Module Bullet.
Record t : Type := mk { x : Q; y : Q; vy : Q }.
End Bullet.

(** A vertex of the polygon.  The script stores [cos(angle) * r] and
    [sin(angle) * r] with [angle = i / sides * 2 * PI]; the model keeps the
    polar form, [turn] being [i / sides], since only [draw] reads it. *)
Module Point.
Record t : Type := mk { turn : Q; r : Q }.
End Point.

(** The rotation [rot] of an asteroid is [rot_turn * 2 * PI + rot] radians:
    it starts at [Math.random() * Math.PI * 2] and grows by [rSpeed * dt]. *)
Module Asteroid.
Record t : Type := mk {
  x : Q; y : Q; vy : Q; rot_turn : Q; rot : Q; rSpeed : Q;
  points : list Point.t; radius : Q; hp : Z }.
Definition move (dt : Q) (a : t) : t :=
  {| x := x a; y := y a + vy a * dt; vy := vy a; rot_turn := rot_turn a;
     rot := rot a + rSpeed a * dt; rSpeed := rSpeed a; points := points a;
     radius := radius a; hp := hp a |}.
Definition set_hp (v : Z) (a : t) : t :=
  {| x := x a; y := y a; vy := vy a; rot_turn := rot_turn a; rot := rot a;
     rSpeed := rSpeed a; points := points a; radius := radius a; hp := v |}.
End Asteroid.

(** [type] is a string, or [undefined] when the index into [types] is out
    of range. *)
Module Booster.
Record t : Type := mk { x : Q; y : Q; vy : Q; type : option string; size : Q }.
End Booster.

(** ** The state *)

(** What [loop] did, in order: the record the temporal claims are stated on. *)
Inductive call : Type :=
| CallUpdate (dt : Q)
| CallDraw
| CallRequestAnimationFrame.

(** The variables of lines 34-44 and 330, then the browser side: the text
    of the score span, the [hidden] class of the two screens, the scores
    shown by [alert], the callbacks queued by [requestAnimationFrame], and
    how often the two oracles were asked. *)
Record state : Type := mkState {
  player : Player.t;
  bullets : list Bullet.t;
  asteroids : list Asteroid.t;
  boosters : list Booster.t;
  score : Z;
  running : bool;
  spawn : num;
  lastShot : Q;
  fireRate : num;
  spawnRate : num;
  asteroidSpeed : option (Q * Q);
  shieldActive : bool;
  shieldTimer : Q;
  keys : string -> bool;
  touchLeft : bool;
  touchRight : bool;
  touchFire : bool;
  last : Q;
  scoreEl : Z;
  homeHidden : bool;
  gameHidden : bool;
  alerts : list Z;
  rafQueue : nat;
  randomCalls : nat;
  nowCalls : nat;
  calls : list call
}.

Definition set_player (v : Player.t) (s : state) : state :=
  {| player := v; bullets := bullets s; asteroids := asteroids s; boosters := boosters s; score :=
  score s; running := running s; spawn := spawn s; lastShot := lastShot s; fireRate := fireRate s;
  spawnRate := spawnRate s; asteroidSpeed := asteroidSpeed s; shieldActive := shieldActive s;
  shieldTimer := shieldTimer s; keys := keys s; touchLeft := touchLeft s; touchRight := touchRight
  s; touchFire := touchFire s; last := last s; scoreEl := scoreEl s; homeHidden := homeHidden s;
  gameHidden := gameHidden s; alerts := alerts s; rafQueue := rafQueue s; randomCalls :=
  randomCalls s; nowCalls := nowCalls s; calls := calls s |}.

Definition set_bullets (v : list Bullet.t) (s : state) : state :=
  {| player := player s; bullets := v; asteroids := asteroids s; boosters := boosters s; score :=
  score s; running := running s; spawn := spawn s; lastShot := lastShot s; fireRate := fireRate s;
  spawnRate := spawnRate s; asteroidSpeed := asteroidSpeed s; shieldActive := shieldActive s;
  shieldTimer := shieldTimer s; keys := keys s; touchLeft := touchLeft s; touchRight := touchRight
  s; touchFire := touchFire s; last := last s; scoreEl := scoreEl s; homeHidden := homeHidden s;
  gameHidden := gameHidden s; alerts := alerts s; rafQueue := rafQueue s; randomCalls :=
  randomCalls s; nowCalls := nowCalls s; calls := calls s |}.

Definition set_asteroids (v : list Asteroid.t) (s : state) : state :=
  {| player := player s; bullets := bullets s; asteroids := v; boosters := boosters s; score :=
  score s; running := running s; spawn := spawn s; lastShot := lastShot s; fireRate := fireRate s;
  spawnRate := spawnRate s; asteroidSpeed := asteroidSpeed s; shieldActive := shieldActive s;
  shieldTimer := shieldTimer s; keys := keys s; touchLeft := touchLeft s; touchRight := touchRight
  s; touchFire := touchFire s; last := last s; scoreEl := scoreEl s; homeHidden := homeHidden s;
  gameHidden := gameHidden s; alerts := alerts s; rafQueue := rafQueue s; randomCalls :=
  randomCalls s; nowCalls := nowCalls s; calls := calls s |}.

Definition set_boosters (v : list Booster.t) (s : state) : state :=
  {| player := player s; bullets := bullets s; asteroids := asteroids s; boosters := v; score :=
  score s; running := running s; spawn := spawn s; lastShot := lastShot s; fireRate := fireRate s;
  spawnRate := spawnRate s; asteroidSpeed := asteroidSpeed s; shieldActive := shieldActive s;
  shieldTimer := shieldTimer s; keys := keys s; touchLeft := touchLeft s; touchRight := touchRight
  s; touchFire := touchFire s; last := last s; scoreEl := scoreEl s; homeHidden := homeHidden s;
  gameHidden := gameHidden s; alerts := alerts s; rafQueue := rafQueue s; randomCalls :=
  randomCalls s; nowCalls := nowCalls s; calls := calls s |}.

Definition set_score (v : Z) (s : state) : state :=
  {| player := player s; bullets := bullets s; asteroids := asteroids s; boosters := boosters s;
  score := v; running := running s; spawn := spawn s; lastShot := lastShot s; fireRate := fireRate
  s; spawnRate := spawnRate s; asteroidSpeed := asteroidSpeed s; shieldActive := shieldActive s;
  shieldTimer := shieldTimer s; keys := keys s; touchLeft := touchLeft s; touchRight := touchRight
  s; touchFire := touchFire s; last := last s; scoreEl := scoreEl s; homeHidden := homeHidden s;
  gameHidden := gameHidden s; alerts := alerts s; rafQueue := rafQueue s; randomCalls :=
  randomCalls s; nowCalls := nowCalls s; calls := calls s |}.

Definition set_running (v : bool) (s : state) : state :=
  {| player := player s; bullets := bullets s; asteroids := asteroids s; boosters := boosters s;
  score := score s; running := v; spawn := spawn s; lastShot := lastShot s; fireRate := fireRate
  s; spawnRate := spawnRate s; asteroidSpeed := asteroidSpeed s; shieldActive := shieldActive s;
  shieldTimer := shieldTimer s; keys := keys s; touchLeft := touchLeft s; touchRight := touchRight
  s; touchFire := touchFire s; last := last s; scoreEl := scoreEl s; homeHidden := homeHidden s;
  gameHidden := gameHidden s; alerts := alerts s; rafQueue := rafQueue s; randomCalls :=
  randomCalls s; nowCalls := nowCalls s; calls := calls s |}.

Definition set_spawn (v : num) (s : state) : state :=
  {| player := player s; bullets := bullets s; asteroids := asteroids s; boosters := boosters s;
  score := score s; running := running s; spawn := v; lastShot := lastShot s; fireRate := fireRate
  s; spawnRate := spawnRate s; asteroidSpeed := asteroidSpeed s; shieldActive := shieldActive s;
  shieldTimer := shieldTimer s; keys := keys s; touchLeft := touchLeft s; touchRight := touchRight
  s; touchFire := touchFire s; last := last s; scoreEl := scoreEl s; homeHidden := homeHidden s;
  gameHidden := gameHidden s; alerts := alerts s; rafQueue := rafQueue s; randomCalls :=
  randomCalls s; nowCalls := nowCalls s; calls := calls s |}.

Definition set_lastShot (v : Q) (s : state) : state :=
  {| player := player s; bullets := bullets s; asteroids := asteroids s; boosters := boosters s;
  score := score s; running := running s; spawn := spawn s; lastShot := v; fireRate := fireRate s;
  spawnRate := spawnRate s; asteroidSpeed := asteroidSpeed s; shieldActive := shieldActive s;
  shieldTimer := shieldTimer s; keys := keys s; touchLeft := touchLeft s; touchRight := touchRight
  s; touchFire := touchFire s; last := last s; scoreEl := scoreEl s; homeHidden := homeHidden s;
  gameHidden := gameHidden s; alerts := alerts s; rafQueue := rafQueue s; randomCalls :=
  randomCalls s; nowCalls := nowCalls s; calls := calls s |}.

Definition set_fireRate (v : num) (s : state) : state :=
  {| player := player s; bullets := bullets s; asteroids := asteroids s; boosters := boosters s;
  score := score s; running := running s; spawn := spawn s; lastShot := lastShot s; fireRate := v;
  spawnRate := spawnRate s; asteroidSpeed := asteroidSpeed s; shieldActive := shieldActive s;
  shieldTimer := shieldTimer s; keys := keys s; touchLeft := touchLeft s; touchRight := touchRight
  s; touchFire := touchFire s; last := last s; scoreEl := scoreEl s; homeHidden := homeHidden s;
  gameHidden := gameHidden s; alerts := alerts s; rafQueue := rafQueue s; randomCalls :=
  randomCalls s; nowCalls := nowCalls s; calls := calls s |}.

Definition set_spawnRate (v : num) (s : state) : state :=
  {| player := player s; bullets := bullets s; asteroids := asteroids s; boosters := boosters s;
  score := score s; running := running s; spawn := spawn s; lastShot := lastShot s; fireRate :=
  fireRate s; spawnRate := v; asteroidSpeed := asteroidSpeed s; shieldActive := shieldActive s;
  shieldTimer := shieldTimer s; keys := keys s; touchLeft := touchLeft s; touchRight := touchRight
  s; touchFire := touchFire s; last := last s; scoreEl := scoreEl s; homeHidden := homeHidden s;
  gameHidden := gameHidden s; alerts := alerts s; rafQueue := rafQueue s; randomCalls :=
  randomCalls s; nowCalls := nowCalls s; calls := calls s |}.

Definition set_asteroidSpeed (v : option (Q * Q)) (s : state) : state :=
  {| player := player s; bullets := bullets s; asteroids := asteroids s; boosters := boosters s;
  score := score s; running := running s; spawn := spawn s; lastShot := lastShot s; fireRate :=
  fireRate s; spawnRate := spawnRate s; asteroidSpeed := v; shieldActive := shieldActive s;
  shieldTimer := shieldTimer s; keys := keys s; touchLeft := touchLeft s; touchRight := touchRight
  s; touchFire := touchFire s; last := last s; scoreEl := scoreEl s; homeHidden := homeHidden s;
  gameHidden := gameHidden s; alerts := alerts s; rafQueue := rafQueue s; randomCalls :=
  randomCalls s; nowCalls := nowCalls s; calls := calls s |}.

Definition set_shieldActive (v : bool) (s : state) : state :=
  {| player := player s; bullets := bullets s; asteroids := asteroids s; boosters := boosters s;
  score := score s; running := running s; spawn := spawn s; lastShot := lastShot s; fireRate :=
  fireRate s; spawnRate := spawnRate s; asteroidSpeed := asteroidSpeed s; shieldActive := v;
  shieldTimer := shieldTimer s; keys := keys s; touchLeft := touchLeft s; touchRight := touchRight
  s; touchFire := touchFire s; last := last s; scoreEl := scoreEl s; homeHidden := homeHidden s;
  gameHidden := gameHidden s; alerts := alerts s; rafQueue := rafQueue s; randomCalls :=
  randomCalls s; nowCalls := nowCalls s; calls := calls s |}.

Definition set_shieldTimer (v : Q) (s : state) : state :=
  {| player := player s; bullets := bullets s; asteroids := asteroids s; boosters := boosters s;
  score := score s; running := running s; spawn := spawn s; lastShot := lastShot s; fireRate :=
  fireRate s; spawnRate := spawnRate s; asteroidSpeed := asteroidSpeed s; shieldActive :=
  shieldActive s; shieldTimer := v; keys := keys s; touchLeft := touchLeft s; touchRight :=
  touchRight s; touchFire := touchFire s; last := last s; scoreEl := scoreEl s; homeHidden :=
  homeHidden s; gameHidden := gameHidden s; alerts := alerts s; rafQueue := rafQueue s;
  randomCalls := randomCalls s; nowCalls := nowCalls s; calls := calls s |}.

Definition set_keys (v : string -> bool) (s : state) : state :=
  {| player := player s; bullets := bullets s; asteroids := asteroids s; boosters := boosters s;
  score := score s; running := running s; spawn := spawn s; lastShot := lastShot s; fireRate :=
  fireRate s; spawnRate := spawnRate s; asteroidSpeed := asteroidSpeed s; shieldActive :=
  shieldActive s; shieldTimer := shieldTimer s; keys := v; touchLeft := touchLeft s; touchRight :=
  touchRight s; touchFire := touchFire s; last := last s; scoreEl := scoreEl s; homeHidden :=
  homeHidden s; gameHidden := gameHidden s; alerts := alerts s; rafQueue := rafQueue s;
  randomCalls := randomCalls s; nowCalls := nowCalls s; calls := calls s |}.

Definition set_touchLeft (v : bool) (s : state) : state :=
  {| player := player s; bullets := bullets s; asteroids := asteroids s; boosters := boosters s;
  score := score s; running := running s; spawn := spawn s; lastShot := lastShot s; fireRate :=
  fireRate s; spawnRate := spawnRate s; asteroidSpeed := asteroidSpeed s; shieldActive :=
  shieldActive s; shieldTimer := shieldTimer s; keys := keys s; touchLeft := v; touchRight :=
  touchRight s; touchFire := touchFire s; last := last s; scoreEl := scoreEl s; homeHidden :=
  homeHidden s; gameHidden := gameHidden s; alerts := alerts s; rafQueue := rafQueue s;
  randomCalls := randomCalls s; nowCalls := nowCalls s; calls := calls s |}.

Definition set_touchRight (v : bool) (s : state) : state :=
  {| player := player s; bullets := bullets s; asteroids := asteroids s; boosters := boosters s;
  score := score s; running := running s; spawn := spawn s; lastShot := lastShot s; fireRate :=
  fireRate s; spawnRate := spawnRate s; asteroidSpeed := asteroidSpeed s; shieldActive :=
  shieldActive s; shieldTimer := shieldTimer s; keys := keys s; touchLeft := touchLeft s;
  touchRight := v; touchFire := touchFire s; last := last s; scoreEl := scoreEl s; homeHidden :=
  homeHidden s; gameHidden := gameHidden s; alerts := alerts s; rafQueue := rafQueue s;
  randomCalls := randomCalls s; nowCalls := nowCalls s; calls := calls s |}.

Definition set_touchFire (v : bool) (s : state) : state :=
  {| player := player s; bullets := bullets s; asteroids := asteroids s; boosters := boosters s;
  score := score s; running := running s; spawn := spawn s; lastShot := lastShot s; fireRate :=
  fireRate s; spawnRate := spawnRate s; asteroidSpeed := asteroidSpeed s; shieldActive :=
  shieldActive s; shieldTimer := shieldTimer s; keys := keys s; touchLeft := touchLeft s;
  touchRight := touchRight s; touchFire := v; last := last s; scoreEl := scoreEl s; homeHidden :=
  homeHidden s; gameHidden := gameHidden s; alerts := alerts s; rafQueue := rafQueue s;
  randomCalls := randomCalls s; nowCalls := nowCalls s; calls := calls s |}.

Definition set_last (v : Q) (s : state) : state :=
  {| player := player s; bullets := bullets s; asteroids := asteroids s; boosters := boosters s;
  score := score s; running := running s; spawn := spawn s; lastShot := lastShot s; fireRate :=
  fireRate s; spawnRate := spawnRate s; asteroidSpeed := asteroidSpeed s; shieldActive :=
  shieldActive s; shieldTimer := shieldTimer s; keys := keys s; touchLeft := touchLeft s;
  touchRight := touchRight s; touchFire := touchFire s; last := v; scoreEl := scoreEl s;
  homeHidden := homeHidden s; gameHidden := gameHidden s; alerts := alerts s; rafQueue := rafQueue
  s; randomCalls := randomCalls s; nowCalls := nowCalls s; calls := calls s |}.

Definition set_scoreEl (v : Z) (s : state) : state :=
  {| player := player s; bullets := bullets s; asteroids := asteroids s; boosters := boosters s;
  score := score s; running := running s; spawn := spawn s; lastShot := lastShot s; fireRate :=
  fireRate s; spawnRate := spawnRate s; asteroidSpeed := asteroidSpeed s; shieldActive :=
  shieldActive s; shieldTimer := shieldTimer s; keys := keys s; touchLeft := touchLeft s;
  touchRight := touchRight s; touchFire := touchFire s; last := last s; scoreEl := v; homeHidden
  := homeHidden s; gameHidden := gameHidden s; alerts := alerts s; rafQueue := rafQueue s;
  randomCalls := randomCalls s; nowCalls := nowCalls s; calls := calls s |}.

Definition set_homeHidden (v : bool) (s : state) : state :=
  {| player := player s; bullets := bullets s; asteroids := asteroids s; boosters := boosters s;
  score := score s; running := running s; spawn := spawn s; lastShot := lastShot s; fireRate :=
  fireRate s; spawnRate := spawnRate s; asteroidSpeed := asteroidSpeed s; shieldActive :=
  shieldActive s; shieldTimer := shieldTimer s; keys := keys s; touchLeft := touchLeft s;
  touchRight := touchRight s; touchFire := touchFire s; last := last s; scoreEl := scoreEl s;
  homeHidden := v; gameHidden := gameHidden s; alerts := alerts s; rafQueue := rafQueue s;
  randomCalls := randomCalls s; nowCalls := nowCalls s; calls := calls s |}.

Definition set_gameHidden (v : bool) (s : state) : state :=
  {| player := player s; bullets := bullets s; asteroids := asteroids s; boosters := boosters s;
  score := score s; running := running s; spawn := spawn s; lastShot := lastShot s; fireRate :=
  fireRate s; spawnRate := spawnRate s; asteroidSpeed := asteroidSpeed s; shieldActive :=
  shieldActive s; shieldTimer := shieldTimer s; keys := keys s; touchLeft := touchLeft s;
  touchRight := touchRight s; touchFire := touchFire s; last := last s; scoreEl := scoreEl s;
  homeHidden := homeHidden s; gameHidden := v; alerts := alerts s; rafQueue := rafQueue s;
  randomCalls := randomCalls s; nowCalls := nowCalls s; calls := calls s |}.

Definition set_alerts (v : list Z) (s : state) : state :=
  {| player := player s; bullets := bullets s; asteroids := asteroids s; boosters := boosters s;
  score := score s; running := running s; spawn := spawn s; lastShot := lastShot s; fireRate :=
  fireRate s; spawnRate := spawnRate s; asteroidSpeed := asteroidSpeed s; shieldActive :=
  shieldActive s; shieldTimer := shieldTimer s; keys := keys s; touchLeft := touchLeft s;
  touchRight := touchRight s; touchFire := touchFire s; last := last s; scoreEl := scoreEl s;
  homeHidden := homeHidden s; gameHidden := gameHidden s; alerts := v; rafQueue := rafQueue s;
  randomCalls := randomCalls s; nowCalls := nowCalls s; calls := calls s |}.

Definition set_rafQueue (v : nat) (s : state) : state :=
  {| player := player s; bullets := bullets s; asteroids := asteroids s; boosters := boosters s;
  score := score s; running := running s; spawn := spawn s; lastShot := lastShot s; fireRate :=
  fireRate s; spawnRate := spawnRate s; asteroidSpeed := asteroidSpeed s; shieldActive :=
  shieldActive s; shieldTimer := shieldTimer s; keys := keys s; touchLeft := touchLeft s;
  touchRight := touchRight s; touchFire := touchFire s; last := last s; scoreEl := scoreEl s;
  homeHidden := homeHidden s; gameHidden := gameHidden s; alerts := alerts s; rafQueue := v;
  randomCalls := randomCalls s; nowCalls := nowCalls s; calls := calls s |}.

Definition set_randomCalls (v : nat) (s : state) : state :=
  {| player := player s; bullets := bullets s; asteroids := asteroids s; boosters := boosters s;
  score := score s; running := running s; spawn := spawn s; lastShot := lastShot s; fireRate :=
  fireRate s; spawnRate := spawnRate s; asteroidSpeed := asteroidSpeed s; shieldActive :=
  shieldActive s; shieldTimer := shieldTimer s; keys := keys s; touchLeft := touchLeft s;
  touchRight := touchRight s; touchFire := touchFire s; last := last s; scoreEl := scoreEl s;
  homeHidden := homeHidden s; gameHidden := gameHidden s; alerts := alerts s; rafQueue := rafQueue
  s; randomCalls := v; nowCalls := nowCalls s; calls := calls s |}.

Definition set_nowCalls (v : nat) (s : state) : state :=
  {| player := player s; bullets := bullets s; asteroids := asteroids s; boosters := boosters s;
  score := score s; running := running s; spawn := spawn s; lastShot := lastShot s; fireRate :=
  fireRate s; spawnRate := spawnRate s; asteroidSpeed := asteroidSpeed s; shieldActive :=
  shieldActive s; shieldTimer := shieldTimer s; keys := keys s; touchLeft := touchLeft s;
  touchRight := touchRight s; touchFire := touchFire s; last := last s; scoreEl := scoreEl s;
  homeHidden := homeHidden s; gameHidden := gameHidden s; alerts := alerts s; rafQueue := rafQueue
  s; randomCalls := randomCalls s; nowCalls := v; calls := calls s |}.

Definition set_calls (v : list call) (s : state) : state :=
  {| player := player s; bullets := bullets s; asteroids := asteroids s; boosters := boosters s;
  score := score s; running := running s; spawn := spawn s; lastShot := lastShot s; fireRate :=
  fireRate s; spawnRate := spawnRate s; asteroidSpeed := asteroidSpeed s; shieldActive :=
  shieldActive s; shieldTimer := shieldTimer s; keys := keys s; touchLeft := touchLeft s;
  touchRight := touchRight s; touchFire := touchFire s; last := last s; scoreEl := scoreEl s;
  homeHidden := homeHidden s; gameHidden := gameHidden s; alerts := alerts s; rafQueue := rafQueue
  s; randomCalls := randomCalls s; nowCalls := nowCalls s; calls := v |}.

(** ** Computations that may throw *)

Inductive exn : Type := TypeError.

Inductive result (A : Type) : Type :=
| Ok (a : A) (s : state)
| Throw (e : exn) (s : state).
Arguments Ok {A} a s.
Arguments Throw {A} e s.

Definition M (A : Type) : Type := state -> result A.

Definition ret {A} (a : A) : M A := fun s => Ok a s.

Definition bind {A B} (m : M A) (k : A -> M B) : M B :=
  fun s => match m s with
           | Ok a s' => k a s'
           | Throw e s' => Throw e s'
           end.

Definition throw {A} (e : exn) : M A := fun s => Throw e s.
Definition get : M state := fun s => Ok s s.
Definition modify (f : state -> state) : M unit := fun s => Ok tt (f s).

Declare Scope js_scope.
Delimit Scope js_scope with js.
Notation "x <- m ;; k" := (bind m (fun x => k))
  (at level 61, m at next level, right associativity) : js_scope.
Notation "m ;; k" := (bind m (fun _ => k))
  (at level 61, right associativity) : js_scope.
Local Open Scope js_scope.

(** The state a computation leaves behind, returned or thrown. *)
Definition state_of {A} (r : result A) : state :=
  match r with Ok _ s => s | Throw _ s => s end.

Definition returns {A} (r : result A) : bool :=
  match r with Ok _ _ => true | Throw _ _ => false end.

(** ** Arrays *)

(** [l.splice(i, 1)]. *)
Definition splice {A} (i : nat) (l : list A) : list A := firstn i l ++ skipn (S i) l.

(** The array after a field of its [i]-th object was assigned. *)
Definition store {A} (i : nat) (v : A) (l : list A) : list A :=
  match nth_error l i with
  | Some _ => firstn i l ++ v :: skipn (S i) l
  | None => l
  end.

(** [l[k]] for a numeric index: [undefined] outside the array. *)
Definition index {A} (l : list A) (k : Z) : option A :=
  if (k <? 0)%Z then None else nth_error l (Z.to_nat k).

(** ** The difficulty table (lines 68-72) *)

Module Difficulty.
Record t : Type := mk { asteroidSpeed : Q * Q; spawnRate : Q; fireRate : Q }.
End Difficulty.

(** What [difficulty[diff]] evaluates to.  [difficulty] is an object
    literal, so besides its three own keys the lookup finds the members it
    inherits from [Object.prototype]: functions, or for [__proto__] the
    prototype itself, none of which has a [fireRate], [spawnRate] or
    [asteroidSpeed] property.  Any other key gives [undefined]. *)
Inductive property : Type :=
| Own (set : Difficulty.t)
| Inherited
| Undefined.

Definition Object_prototype : list string :=
  [ "constructor"; "__defineGetter__"; "__defineSetter__"; "hasOwnProperty";
    "__lookupGetter__"; "__lookupSetter__"; "isPrototypeOf";
    "propertyIsEnumerable"; "toString"; "valueOf"; "__proto__";
    "toLocaleString" ]%string.

Definition easy : Difficulty.t :=
  {| Difficulty.asteroidSpeed := (40, 60); Difficulty.spawnRate := 1.6;
     Difficulty.fireRate := 250 |}.
Definition medium : Difficulty.t :=
  {| Difficulty.asteroidSpeed := (60, 90); Difficulty.spawnRate := 1.0;
     Difficulty.fireRate := 200 |}.
Definition hard : Difficulty.t :=
  {| Difficulty.asteroidSpeed := (90, 130); Difficulty.spawnRate := 0.7;
     Difficulty.fireRate := 150 |}.

Definition difficulty (diff : string) : property :=
  if (diff =? "easy")%string then Own easy
  else if (diff =? "medium")%string then Own medium
  else if (diff =? "hard")%string then Own hard
  else if existsb (String.eqb diff) Object_prototype then Inherited
  else Undefined.

(** ** The browser *)

Record Host : Type := mkHost {
  c_width : Q;                      (* c.width *)
  c_height : Q;                     (* c.height *)
  random_src : nat -> Q;            (* the results of Math.random(), in order *)
  now_src : nat -> Q                (* the results of performance.now(), in order *)
}.

Section Script.

Variable host : Host.

Definition Math_random : M Q :=
  fun s => Ok (random_src host (randomCalls s)) (set_randomCalls (S (randomCalls s)) s).

Definition performance_now : M Q :=
  fun s => Ok (now_src host (nowCalls s)) (set_nowCalls (S (nowCalls s)) s).

Definition alert_final_score : M unit :=
  modify (fun s => set_alerts (alerts s ++ [score s]) s).

Definition show_score : M unit := modify (fun s => set_scoreEl (score s) s).

Definition record_call (c : call) : M unit :=
  modify (fun s => set_calls (calls s ++ [c]) s).

Definition requestAnimationFrame_loop : M unit :=
  record_call CallRequestAnimationFrame ;;
  modify (fun s => set_rafQueue (S (rafQueue s)) s).

(** ** spawnAsteroid (lines 107-139) *)

(** The loop of lines 115-119, [n] iterations left, at index [i]. *)
Fixpoint points_loop (radius : Q) (sides : Z) (n : nat) (i : Z)
    (points : list Point.t) : M (list Point.t) :=
  match n with
  | O => ret points
  | S n' =>
      u <- Math_random ;;
      let r := radius * (0.7 + u * 0.6) in
      points_loop radius sides n' (i + 1)%Z
        (points ++ [ {| Point.turn := inject_Z i / inject_Z sides; Point.r := r |} ])
  end.

(** [asteroidSpeed[0]] and [asteroidSpeed[1]]: a [TypeError] when
    [asteroidSpeed] is [undefined]. *)
Definition read_asteroidSpeed : M (Q * Q) :=
  fun s => match asteroidSpeed s with
           | Some range => Ok range s
           | None => Throw TypeError s
           end.

Definition spawnAsteroid : M unit :=
  u <- Math_random ;;
  let sides := (6 + Qfloor (u * 4))%Z in
  u <- Math_random ;;
  let radius := 15 + u * 30 in
  points <- points_loop radius sides (Z.to_nat sides) 0%Z [] ;;
  ux <- Math_random ;;
  range <- read_asteroidSpeed ;;
  uv <- Math_random ;;
  urot <- Math_random ;;
  ur <- Math_random ;;
  modify (fun s => set_asteroids (asteroids s ++ [
    {| Asteroid.x := ux * c_width host;
       Asteroid.y := -40;
       Asteroid.vy := fst range + uv * (snd range - fst range);
       Asteroid.rot_turn := urot;
       Asteroid.rot := 0;
       Asteroid.rSpeed := (ur - 0.5) * 1.5;
       Asteroid.points := points;
       Asteroid.radius := radius;
       Asteroid.hp := Qceiling (radius / 10) |} ]) s).

(** ** spawnBooster (lines 143-155) *)

Definition types : list string := [ "fireRate"; "shield"; "score" ]%string.

Definition spawnBooster : M unit :=
  ux <- Math_random ;;
  ut <- Math_random ;;
  modify (fun s => set_boosters (boosters s ++ [
    {| Booster.x := 30 + ux * (c_width host - 60);
       Booster.y := -20;
       Booster.vy := 100;
       Booster.type := index types (Qfloor (ut * inject_Z (Z.of_nat (List.length types))));
       Booster.size := 12 |} ]) s).

(** ** applyBooster (lines 260-267) *)

Definition is_type (type : option string) (name : string) : bool :=
  match type with Some t => String.eqb t name | None => false end.

Definition applyBooster (type : option string) : M unit :=
  (if is_type type "fireRate"
   then modify (fun s => set_fireRate (Math_max_num 80 (num_sub (fireRate s) 80)) s)
   else ret tt) ;;
  (if is_type type "shield"
   then modify (set_shieldActive true) ;; modify (set_shieldTimer 5)
   else ret tt) ;;
  (if is_type type "score"
   then modify (fun s => set_score (score s + 50)%Z s) ;; show_score
   else ret tt).

(** ** update (lines 159-257) *)

Definition pressed_left (s : state) : bool :=
  keys s "ArrowLeft"%string || keys s "a"%string || touchLeft s.
Definition pressed_right (s : state) : bool :=
  keys s "ArrowRight"%string || keys s "d"%string || touchRight s.
Definition pressed_fire (s : state) : bool :=
  keys s " "%string || keys s "z"%string || touchFire s.

(** Lines 161-165. *)
Definition move_player (dt : Q) (s : state) : state :=
  let p := player s in
  let x1 := if pressed_left s then Player.x p - 220 * dt else Player.x p in
  let x2 := if pressed_right s then x1 + 220 * dt else x1 in
  let x3 := Qmax 10 (Qmin (c_width host - 10 - Player.w p) x2) in
  set_player (Player.set_x x3 p) s.

(** Lines 168-173.  [performance.now()] is only called when a fire key is
    down, and a second time when the shot is fired. *)
Definition shoot : M unit :=
  s <- get ;;
  if pressed_fire s then
    t <- performance_now ;;
    if Q_gt_num (t - lastShot s) (fireRate s) then
      modify (fun s => set_bullets (bullets s ++ [
        {| Bullet.x := Player.x (player s) + Player.w (player s) / 2;
           Bullet.y := Player.y (player s);
           Bullet.vy := -400 |} ]) s) ;;
      t' <- performance_now ;;
      modify (set_lastShot t')
    else ret tt
  else ret tt.

(** Lines 176-178. *)
Definition move_bullet (dt : Q) (b : Bullet.t) : Bullet.t :=
  {| Bullet.x := Bullet.x b; Bullet.y := Bullet.y b + Bullet.vy b * dt;
     Bullet.vy := Bullet.vy b |}.

Definition move_bullets (dt : Q) (s : state) : state :=
  set_bullets (filter (fun b => Qltb (-10) (Bullet.y b)) (map (move_bullet dt) (bullets s))) s.

(** Lines 181-188. *)
Definition spawn_timer (dt : Q) : M unit :=
  modify (fun s => set_spawn (num_sub (spawn s) dt) s) ;;
  s <- get ;;
  if num_le (spawn s) 0 then
    modify (fun s => set_spawn (spawnRate s) s) ;;
    spawnAsteroid ;;
    u <- Math_random ;;
    if Qltb u 0.2 then spawnBooster else ret tt
  else ret tt.

(** Lines 191-193. *)
Definition move_asteroids (dt : Q) (s : state) : state :=
  set_asteroids
    (filter (fun a => Qltb (Asteroid.y a) (c_height host + 40))
       (map (Asteroid.move dt) (asteroids s))) s.

(** Lines 196-198. *)
Definition move_booster (dt : Q) (b : Booster.t) : Booster.t :=
  {| Booster.x := Booster.x b; Booster.y := Booster.y b + Booster.vy b * dt;
     Booster.vy := Booster.vy b; Booster.type := Booster.type b;
     Booster.size := Booster.size b |}.

Definition move_boosters (dt : Q) (s : state) : state :=
  set_boosters
    (filter (fun b => Qltb (Booster.y b) (c_height host + 20))
       (map (move_booster dt) (boosters s))) s.

(** The test of line 210. *)
Definition bullet_hits (a : Asteroid.t) (b : Bullet.t) : bool :=
  let dx := Asteroid.x a - Bullet.x b in
  let dy := Asteroid.y a - Bullet.y b in
  Qltb (dx * dx + dy * dy) (Asteroid.radius a * Asteroid.radius a * 0.6).

(** Lines 211-223: bullet [j] has hit [a], the asteroid at index [i].
    [a.hp--] writes through to the array, and when the asteroid dies it is
    spliced out and scored. *)
Definition on_hit (i j : nat) (a : Asteroid.t) : M unit :=
  modify (fun s => set_bullets (splice j (bullets s)) s) ;;
  let a' := Asteroid.set_hp (Asteroid.hp a - 1)%Z a in
  modify (fun s => set_asteroids (store i a' (asteroids s)) s) ;;
  if (Asteroid.hp a' <=? 0)%Z then
    modify (fun s => set_asteroids (splice i (asteroids s)) s) ;;
    modify (fun s => set_score (score s + 10)%Z s) ;;
    show_score
  else ret tt.

(** Lines 205-227: [j] counts the bullets still to scan, from the end of
    the array; the loop is left at the first hit. *)
Fixpoint bullet_loop (i : nat) (a : Asteroid.t) (j : nat) : M unit :=
  match j with
  | O => ret tt
  | S j' =>
      s <- get ;;
      match nth_error (bullets s) j' with
      | None => throw TypeError
      | Some b => if bullet_hits a b then on_hit i j' a else bullet_loop i a j'
      end
  end.

(** The test of line 231. *)
Definition overlaps_player (a : Asteroid.t) (p : Player.t) : bool :=
  Qltb (Qabs (Asteroid.x a - (Player.x p + Player.w p / 2))) (Asteroid.radius a)
  && Qltb (Qabs (Asteroid.y a - (Player.y p + Player.h p / 2))) (Asteroid.radius a).

(** Lines 229-236, for the asteroid [a] the iteration started with. *)
Definition ship_collision (a : Asteroid.t) : M unit :=
  s <- get ;;
  if negb (shieldActive s) && overlaps_player a (player s) then
    modify (set_running false) ;;
    alert_final_score
  else ret tt.

(** One iteration of the loop of line 202. *)
Definition asteroid_iteration (i : nat) : M unit :=
  s <- get ;;
  match nth_error (asteroids s) i with
  | None => throw TypeError
  | Some a =>
      bullet_loop i a (List.length (bullets s)) ;;
      ship_collision a
  end.

(** Lines 202-237, [k] asteroids still to visit, from the end. *)
Fixpoint asteroid_loop (k : nat) : M unit :=
  match k with
  | O => ret tt
  | S i => asteroid_iteration i ;; asteroid_loop i
  end.

(** The test of line 244. *)
Definition picked_up (b : Booster.t) (p : Player.t) : bool :=
  Qltb (Qabs (Booster.x b - (Player.x p + Player.w p / 2))) 20
  && Qltb (Qabs (Booster.y b - (Player.y p + Player.h p / 2))) 20.

(** Lines 241-250. *)
Fixpoint booster_loop (k : nat) : M unit :=
  match k with
  | O => ret tt
  | S i =>
      s <- get ;;
      match nth_error (boosters s) i with
      | None => throw TypeError
      | Some b =>
          (if picked_up b (player s) then
             applyBooster (Booster.type b) ;;
             modify (fun s => set_boosters (splice i (boosters s)) s)
           else ret tt) ;;
          booster_loop i
      end
  end.

(** Lines 253-256. *)
Definition shield_decay (dt : Q) (s : state) : state :=
  if shieldActive s then
    let s' := set_shieldTimer (shieldTimer s - dt) s in
    if Qle_bool (shieldTimer s') 0 then set_shieldActive false s' else s'
  else s.

(** Lines 161-198: input, movement and spawning. *)
Definition advance (dt : Q) : M unit :=
  modify (move_player dt) ;;
  shoot ;;
  modify (move_bullets dt) ;;
  spawn_timer dt ;;
  modify (move_asteroids dt) ;;
  modify (move_boosters dt).

(** Lines 200-256: collisions, pickups and the shield. *)
Definition resolve (dt : Q) : M unit :=
  s <- get ;;
  asteroid_loop (List.length (asteroids s)) ;;
  s <- get ;;
  booster_loop (List.length (boosters s)) ;;
  modify (shield_decay dt).

Definition update (dt : Q) : M unit := advance dt ;; resolve dt.

(** ** draw (lines 271-326) *)

(** The canvas is not modelled and [draw] assigns no variable of the
    script; what is left of it is that [a.points[0].x] throws for an
    asteroid without vertices. *)
Definition draw : M unit :=
  fun s => if existsb (fun a => match Asteroid.points a with [] => true | _ => false end)
                (asteroids s)
           then Throw TypeError s else Ok tt s.

(** ** loop (lines 330-343) *)

Definition loop (now : Q) : M unit :=
  s <- get ;;
  let dt := Qmin 0.04 ((now - last s) / 1000) in
  modify (set_last now) ;;
  if running s then
    record_call (CallUpdate dt) ;;
    update dt ;;
    record_call CallDraw ;;
    draw ;;
    requestAnimationFrame_loop
  else ret tt.

(** ** initGame (lines 77-103) *)

Definition initGame (diff : string) : M unit :=
  modify (set_player {| Player.x := c_width host / 2; Player.y := c_height host - 60;
                        Player.w := 36; Player.h := 28 |}) ;;
  modify (set_bullets []) ;;
  modify (set_asteroids []) ;;
  modify (set_boosters []) ;;
  modify (set_score 0%Z) ;;
  modify (set_spawn (Some 0)) ;;
  modify (set_lastShot 0) ;;
  modify (set_shieldActive false) ;;
  modify (set_shieldTimer 0) ;;
  modify (set_scoreEl 0%Z) ;;
  match difficulty diff with
  | Undefined => throw TypeError
  | Own set =>
      modify (set_fireRate (Some (Difficulty.fireRate set))) ;;
      modify (set_spawnRate (Some (Difficulty.spawnRate set))) ;;
      modify (set_asteroidSpeed (Some (Difficulty.asteroidSpeed set)))
  | Inherited =>
      modify (set_fireRate None) ;;
      modify (set_spawnRate None) ;;
      modify (set_asteroidSpeed None)
  end ;;
  modify (set_running true) ;;
  now <- performance_now ;;
  loop now.

(** ** The listeners (lines 49-64 and 347-364) and the frame callbacks *)

Inductive button : Type := leftBtn | rightBtn | fireBtn.

Inductive event : Type :=
| keydown (key : string)
| keyup (key : string)
| touchstart (b : button)
| touchend (b : button)
| click_startBtn (diffSelect_value : string)
| click_homeBtn
| click_restartBtn (diffSelect_value : string)
| animation_frame (timestamp : Q).

Definition assign_key (key : string) (v : bool) (s : state) : state :=
  set_keys (fun k => if String.eqb k key then v else keys s k) s.

Definition assign_touch (b : button) (v : bool) (s : state) : state :=
  match b with
  | leftBtn => set_touchLeft v s
  | rightBtn => set_touchRight v s
  | fireBtn => set_touchFire v s
  end.

(** The browser calls every callback queued for the frame with the frame's
    timestamp; what they queue is for the next frame, and a callback that
    throws does not stop the others. *)
Fixpoint run_callbacks (n : nat) (timestamp : Q) (s : state) : state :=
  match n with
  | O => s
  | S n' => run_callbacks n' timestamp (state_of (loop timestamp s))
  end.

Definition listener (e : event) : M unit :=
  match e with
  | keydown key => modify (assign_key key true)
  | keyup key => modify (assign_key key false)
  | touchstart b => modify (assign_touch b true)
  | touchend b => modify (assign_touch b false)
  | click_startBtn value =>
      modify (set_homeHidden true) ;;
      modify (set_gameHidden false) ;;
      initGame value
  | click_homeBtn =>
      modify (set_running false) ;;
      modify (set_gameHidden true) ;;
      modify (set_homeHidden false)
  | click_restartBtn value =>
      modify (set_running false) ;;
      initGame value
  | animation_frame timestamp =>
      modify (fun s => run_callbacks (rafQueue s) timestamp (set_rafQueue O s))
  end.

(** An exception that reaches the browser is reported and the page goes on
    with the state the listener left. *)
Definition step (s : state) (e : event) : state := state_of (listener e s).

Definition run (s : state) (es : list event) : state := fold_left step es s.

End Script.

(** ** The page after the script has run (lines 8-44 and 330)

    [player], the arrays, [score], [running], [spawn], [lastShot] and the
    difficulty variables are declared without a value; nothing reads them
    before [initGame] has assigned them, and [running], tested by [loop],
    is falsy.  The record holds placeholders for them.  The markup decides
    which screen is hidden at first and what the score span says: the home
    screen is taken to be the visible one. *)
Definition loaded (host : Host) : state :=
  {| player := {| Player.x := 0; Player.y := 0; Player.w := 0; Player.h := 0 |};
     bullets := []; asteroids := []; boosters := [];
     score := 0%Z; running := false; spawn := None; lastShot := 0;
     fireRate := None; spawnRate := None; asteroidSpeed := None;
     shieldActive := false; shieldTimer := 0;
     keys := fun _ => false;
     touchLeft := false; touchRight := false; touchFire := false;
     last := now_src host 0;
     scoreEl := 0%Z; homeHidden := false; gameHidden := true;
     alerts := []; rafQueue := 0; randomCalls := 0; nowCalls := 1; calls := [] |}.

(** The transition of the whole page on a list of events. *)
Definition play (host : Host) (es : list event) : state := run host (loaded host) es.


(** * The vocabulary of the claims *)

(** [keeps f m]: running [m] does not change [f] of the state, whether [m]
    returns or throws. *)
Definition keeps {X A} (f : state -> X) (m : M A) : Prop :=
  forall s, f (state_of (m s)) = f s.

Definition ship_y_w_h (s : state) : Q * Q * Q :=
  (Player.y (player s), Player.w (player s), Player.h (player s)).

Definition starts_a_run (e : event) : bool :=
  match e with
  | click_startBtn _ | click_restartBtn _ => true
  | _ => false
  end.

(** One pickup of a booster of type [fireRate]. *)
Definition pick_fireRate (s : state) : state :=
  state_of (applyBooster (Some "fireRate"%string) s).

Definition difficulty_names : list string := [ "easy"; "medium"; "hard" ]%string.

(** A canvas of 300 by 180, a clock that starts at one second and gains a
    millisecond per reading, and a random source stuck at one half. *)
Definition demo_host : Host :=
  {| c_width := 300; c_height := 180;
     random_src := fun _ => 0.5;
     now_src := fun n => 1000 + inject_Z (Z.of_nat n) |}.

(** The asteroid after [a.hp--]. *)
Definition wounded (a : Asteroid.t) : Asteroid.t :=
  Asteroid.set_hp (Asteroid.hp a - 1)%Z a.

(** The state after the test of line 231 on asteroid [a]. *)
Definition collided (a : Asteroid.t) (s : state) : state :=
  if negb (shieldActive s) && overlaps_player a (player s)
  then set_alerts (alerts s ++ [score s]) (set_running false s)
  else s.

(** The asteroid is over the ship of state [s]. *)
Definition over_ship (s : state) (a : Asteroid.t) : bool :=
  overlaps_player a (player s).

(** The state the spawn timer sees. *)
Definition aimed (host : Host) (dt : Q) (s : state) : state :=
  move_bullets dt (state_of (shoot host (move_player host dt s))).

(** What a hit leaves of an asteroid: nothing when it dies. *)
Definition take_hit (a : Asteroid.t) : option Asteroid.t :=
  if (Asteroid.hp (wounded a) <=? 0)%Z then None else Some (wounded a).


(** Simulation steps in a row. *)
Fixpoint steps (host : Host) (dts : list Q) (s : state) : state :=
  match dts with
  | [] => s
  | dt :: rest => steps host rest (state_of (update host dt s))
  end.





(** A browser with a canvas of 300 by 180 whose random source and clock
    replay the given values, then one half and the last reading. *)
Definition browser (randoms clock : list Q) : Host :=
  {| c_width := 300; c_height := 180;
     random_src := fun n => nth n randoms 0.5;
     now_src := fun n => nth n clock (List.last clock 0) |}.

(** [n] frames 40 ms apart; the click on Start is at 5000 ms and frame [k]
    at [5000 + 40 * k]. *)
Fixpoint frames (n : nat) (k : Z) : list event :=
  match n with
  | O => []
  | S n' => animation_frame (inject_Z (5000 + 40 * k)) :: frames n' (k + 1)
  end.

(** Where an asteroid is, how large, and how many hits it still takes. *)
Definition sighting (a : Asteroid.t) : Q * Q * Q * Z :=
  (Qred (Asteroid.x a), Qred (Asteroid.y a), Qred (Asteroid.radius a), Asteroid.hp a).

(** An asteroid of radius 25 with three hit-points. *)
Definition boulder : Asteroid.t :=
  {| Asteroid.x := 100; Asteroid.y := 50; Asteroid.vy := 50;
     Asteroid.rot_turn := 0; Asteroid.rot := 0; Asteroid.rSpeed := 0;
     Asteroid.points := map (fun i => {| Point.turn := inject_Z i / 6; Point.r := 25 |})
                            [0; 1; 2; 3; 4; 5]%Z;
     Asteroid.radius := 25; Asteroid.hp := 3 |}.

Definition updates (cs : list call) : nat :=
  List.length (filter (fun c => match c with CallUpdate _ => true | _ => false end) cs).

(** Two asteroids to the right of the ship, of radius 30 at [x = 230] and
    of radius 40 at [x = 240], the second spawned 1.6 s after the first
    and faster.  The values are, per asteroid: sides, radius, six
    vertices, [x], speed, rotation, spin, and the booster draw. *)
Definition crossing_host : Host :=
  browser
    [ 0; 0.5; 0.5; 0.5; 0.5; 0.5; 0.5; 0.5; 23 / 30; 0; 0.5; 0.5; 0.5;
      0; 5 / 6; 0.5; 0.5; 0.5; 0.5; 0.5; 0.5; 0.8; 19 / 20; 0.5; 0.5; 0.5 ]
    [ 0; 5000 ].

(** The player waits for 96 steps, then holds the right arrow. *)
Definition crossing_approach : list event :=
  click_startBtn "easy" :: frames 95 1 ++ keydown "ArrowRight" :: frames 3 96.

(** One asteroid of radius 20 and two hit-points straight above the ship.
    The clock is read at the two shots. *)
Definition duel_host : Host :=
  browser
    [ 0; 1 / 6; 0.5; 0.5; 0.5; 0.5; 0.5; 0.5; 14 / 25; 0; 0.5; 0.5; 0.5 ]
    [ 0; 5000; 8160; 8160; 8840; 8840 ].

(** The player fires once at step 80, and again at step 97. *)
Definition duel_approach : list event :=
  click_startBtn "easy" :: frames 78 1 ++ keydown " " :: frames 1 79
  ++ keyup " " :: frames 16 80 ++ [ keydown " " ].

(** Start at 5000 ms, two frames, a click on Restart at 5100 ms. *)
Definition restart_host : Host := browser [] [ 0; 5000; 5100 ].

Definition restart_clicks : list event :=
  [ click_startBtn "easy"; animation_frame 5040; animation_frame 5080;
    click_restartBtn "easy" ].

(** ** More vocabulary: the rest of the script *)

(** The state in which [initGame] calls [loop] (lines 79-101), for the
    three values read off the difficulty entry. *)
Definition prepared (host : Host) (fr sr : num) (range : option (Q * Q))
    (s : state) : state :=
  set_nowCalls (S (nowCalls s))
    (set_running true
       (set_asteroidSpeed range
          (set_spawnRate sr
             (set_fireRate fr
                (set_scoreEl 0%Z
                   (set_shieldTimer 0
                      (set_shieldActive false
                         (set_lastShot 0
                            (set_spawn (Some 0)
                               (set_score 0%Z
                                  (set_boosters []
                                     (set_asteroids []
                                        (set_bullets []
                                           (set_player
                                              {| Player.x := c_width host / 2;
                                                 Player.y := c_height host - 60;
                                                 Player.w := 36; Player.h := 28 |}
                                              s)))))))))))))).

(** A recorded call of [update] got a [dt] of at most 0.04. *)
Definition clamped (c : call) : Prop :=
  match c with CallUpdate dt => dt <= 0.04 | _ => True end.

(** The game proper: the ship, what flies, the score, the flag, and what
    was shown and called. *)
Definition game_of (s : state) :=
  (player s, bullets s, asteroids s, boosters s, score s, running s,
   alerts s, calls s).

(** None of the events is a click on Start or Restart. *)
Definition no_start (es : list event) : bool :=
  forallb (fun e => negb (starts_a_run e)) es.

(** What [spawnAsteroid] builds from its draws [u] of [Math.random], for
    the speed range [range] (lines 109-138). *)
Definition spawned (host : Host) (range : Q * Q) (a : Asteroid.t) : Prop :=
  Asteroid.y a = -40
  /\ (exists u, 0 <= u < 1 /\ Asteroid.x a = u * c_width host)
  /\ (exists u, 0 <= u < 1
                /\ Asteroid.vy a = fst range + u * (snd range - fst range))
  /\ (exists u, 0 <= u < 1 /\ Asteroid.rSpeed a = (u - 0.5) * 1.5)
  /\ (exists u, 0 <= u < 1 /\ Asteroid.radius a = 15 + u * 30)
  /\ (6 <= List.length (Asteroid.points a) <= 9)%nat
  /\ Forall (fun p => exists u, 0 <= u < 1
                                /\ Point.r p = Asteroid.radius a * (0.7 + u * 0.6))
       (Asteroid.points a)
  /\ Asteroid.hp a = Qceiling (Asteroid.radius a / 10).

(** What [spawnBooster] builds (lines 148-154). *)
Definition dropped (host : Host) (b : Booster.t) : Prop :=
  Booster.y b = -20
  /\ Booster.vy b = 100
  /\ Booster.size b = 12
  /\ (exists u, 0 <= u < 1 /\ Booster.x b = 30 + u * (c_width host - 60))
  /\ exists t, Booster.type b = Some t /\ In t types.

(** What stays true of an asteroid while it lives. *)
Definition sound (a : Asteroid.t) : Prop :=
  (1 <= Asteroid.hp a <= Qceiling (Asteroid.radius a / 10))%Z
  /\ (6 <= List.length (Asteroid.points a) <= 9)%nat
  /\ 15 <= Asteroid.radius a /\ Asteroid.radius a <= 45.

(** What flies, and the speed range new asteroids draw from. *)
Definition flying (s : state) :=
  (bullets s, asteroids s, boosters s, asteroidSpeed s).

(** A booster as [spawnBooster] makes them, wherever it has fallen to. *)
Definition packed (b : Booster.t) : Prop :=
  Booster.vy b = 100 /\ Booster.size b = 12
  /\ exists t, Booster.type b = Some t /\ In t types.

(** Every bullet flies up at 400, every asteroid is [sound], every booster
    is [packed], and without a speed range there is neither asteroid nor
    booster. *)
Definition well_formed
    (o : list Bullet.t * list Asteroid.t * list Booster.t * option (Q * Q)) : Prop :=
  let '(bs, rocks, bos, range) := o in
  Forall (fun b => Bullet.vy b = -400) bs
  /\ Forall sound rocks
  /\ Forall packed bos
  /\ (range = None -> rocks = [] /\ bos = []).

(** The shield's flag and timer, and what ties them: the flag is on only
    while the timer is above zero. *)
Definition shield (s : state) : bool * Q := (shieldActive s, shieldTimer s).

Definition timed (p : bool * Q) : Prop := fst p = true -> 0 < snd p.

(** The score boosters among those the ship of [s] is picking up. *)
Definition bonus (s : state) (b : Booster.t) : bool :=
  picked_up b (player s) && is_type (Booster.type b) "score".

(** The six keys that [update] reads. *)
Definition game_keys : list string :=
  [ "ArrowLeft"; "a"; "ArrowRight"; "d"; " "; "z" ]%string.

(** What [update] reads of the keys and touch zones. *)
Definition pressed (s : state) : bool * bool * bool :=
  (pressed_left s, pressed_right s, pressed_fire s).

(** [demo_host] right after a click on Start with [easy] selected. *)
Definition easy_start : state := play demo_host [ click_startBtn "easy" ].

(** The state in which that click's [initGame] calls [loop]. *)
Definition easy_prepared : state :=
  prepared demo_host (Some 250) (Some 1.6) (Some (40, 60)) (loaded demo_host).

(** A browser whose canvas is 40 wide, narrower than the ship and its two
    margins. *)
Definition narrow_host : Host :=
  {| c_width := 40; c_height := 180;
     random_src := fun _ => 0.5;
     now_src := fun n => 1000 + inject_Z (Z.of_nat n) |}.

(** A browser whose first spawn drops a shield booster over the ship, and
    the run up to the step that picks it up. *)
Definition shield_host : Host :=
  browser [ 0; 0; 0.5; 0.5; 0.5; 0.5; 0.5; 0.5; 0; 0.5; 0.5; 0.5; 0.1; 23 / 40; 0.5 ]
          [ 0; 5000 ].

Definition shield_run : list event := click_startBtn "easy" :: frames 33 1.

(** An easy run on [demo_host] with the left arrow down. *)
Definition easy_left : state := step demo_host easy_start (keydown "ArrowLeft").

(** ** Following one asteroid through the steps

    The script keeps no identity of an asteroid but its place in the
    array, and the array only changes by appending at the end (line 138),
    by dropping what the filter of line 193 rejects and by the splice of
    line 218; so an asteroid is followed by its index. *)

(** The loop of line 202 from the last index down to index [i + 1]: what
    has run of [asteroid_loop k] when it reaches index [i]. *)
Fixpoint asteroid_loop_above (i k : nat) : M unit :=
  match k with
  | O => ret tt
  | S k' => if (k' <=? i)%nat then ret tt
            else asteroid_iteration k' ;; asteroid_loop_above i k'
  end.

(** The filter of line 193 keeps the asteroid once it has moved. *)
Definition stays (host : Host) (dt : Q) (a : Asteroid.t) : bool :=
  Qltb (Asteroid.y (Asteroid.move dt a)) (c_height host + 40).

(** The index, after that filter, of the asteroid that was at index [i]:
    the number of asteroids before it that stay. *)
Definition arrival (host : Host) (dt : Q) (s : state) (i : nat) : nat :=
  List.length (filter (stays host dt) (firstn i (asteroids s))).

(** The state in which the collision loop of the step reaches that
    asteroid, and the state in which its iteration leaves it. *)
Definition at_turn (host : Host) (dt : Q) (s : state) (i : nat) : state :=
  state_of (asteroid_loop_above (arrival host dt s i)
              (List.length (asteroids (state_of (advance host dt s))))
              (state_of (advance host dt s))).

Definition after_turn (host : Host) (dt : Q) (s : state) (i : nat) : state :=
  state_of (asteroid_iteration (arrival host dt s i) (at_turn host dt s i)).

(** The asteroid is hit in the step: the test of line 210 succeeds for one
    of the bullets that are left when the loop reaches it. *)
Definition is_hit (host : Host) (dt : Q) (s : state) (i : nat) : bool :=
  match nth_error (asteroids (at_turn host dt s i)) (arrival host dt s i) with
  | Some a => existsb (bullet_hits a) (bullets (at_turn host dt s i))
  | None => false
  end.

(** Its iteration has removed an asteroid from the array. *)
Definition is_gone (host : Host) (dt : Q) (s : state) (i : nat) : bool :=
  (List.length (asteroids (after_turn host dt s i))
   <? List.length (asteroids (at_turn host dt s i)))%nat.

(** Its index after the step: the iterations that follow its own leave the
    array as it is from that asteroid on. *)
Definition next_index (host : Host) (dt : Q) (s : state) (i : nat) : nat :=
  List.length (asteroids (state_of (update host dt s)))
  - (List.length (asteroids (after_turn host dt s i)) - arrival host dt s i).

(** The asteroid at index [i] of [s] through the simulation steps [dts]:
    nothing when it left the field or was removed in one of them,
    otherwise the state after the steps, its index there, and [m] plus the
    number of steps in which it was hit. *)
Fixpoint follow (host : Host) (dts : list Q) (s : state) (i m : nat)
    : option (state * nat * nat) :=
  match dts with
  | [] => Some (s, i, m)
  | dt :: rest =>
      match nth_error (asteroids s) i with
      | Some a =>
          if stays host dt a && negb (is_gone host dt s i)
          then follow host rest (state_of (update host dt s)) (next_index host dt s i)
                 (if is_hit host dt s i then S m else m)
          else None
      | None => None
      end
  end.

(** A browser whose asteroids spawn straight above the ship's nose, with
    31.8 of radius and four hit-points, and whose clock lets every step
    fire; and an easy run on it with the space bar held from the start. *)
Definition volley_host : Host :=
  {| c_width := 300; c_height := 180;
     random_src := fun _ => 0.56;
     now_src := fun n => 1000 * inject_Z (Z.of_nat n) |}.

Definition volley_start : state :=
  play volley_host [ keydown " "; click_startBtn "easy" ].

(** Nine steps of 0.04 s from there. *)
Definition volley_steps : list Q := repeat 0.04 9%nat.

Definition volley_end : state := steps volley_host volley_steps volley_start.

(** * Verification *)

(** ** Comparisons *)

Lemma Qltb_lt (x y : Q) : Qltb x y = true <-> x < y.
Proof.
  unfold Qltb. rewrite negb_true_iff. split; intro H.
  - apply Qnot_le_lt. intro L. apply Qle_bool_iff in L. congruence.
  - destruct (Qle_bool y x) eqn:E; [|reflexivity].
    apply Qle_bool_iff in E. exfalso. apply (Qlt_not_le _ _ H E).
Qed.

Lemma Qltb_ge (x y : Q) : Qltb x y = false <-> y <= x.
Proof.
  unfold Qltb. rewrite negb_false_iff. apply Qle_bool_iff.
Qed.

(** ** What a computation leaves alone *)

Lemma keeps_bind {X A B} (f : state -> X) (m : M A) (k : A -> M B) :
  keeps f m -> (forall a, keeps f (k a)) -> keeps f (bind m k).
Proof.
  intros Hm Hk s. unfold bind. specialize (Hm s).
  destruct (m s) as [a s'|e s']; simpl in *.
  - rewrite Hk. exact Hm.
  - exact Hm.
Qed.

Lemma keeps_modify {X} (f : state -> X) (g : state -> state) :
  (forall s, f (g s) = f s) -> keeps f (modify g).
Proof. intros H s. apply H. Qed.

Section Frames.

Variable host : Host.
Context {X : Type} (f : state -> X).

Hypothesis f_randomCalls : forall v s, f (set_randomCalls v s) = f s.

Lemma Math_random_keeps : keeps f (Math_random host).
Proof. intro s. apply f_randomCalls. Qed.

Lemma points_loop_keeps radius sides n :
  forall i points, keeps f (points_loop host radius sides n i points).
Proof.
  induction n as [|n IH]; intros i points; simpl.
  - intro s. reflexivity.
  - apply keeps_bind; [apply Math_random_keeps | intro u; apply IH].
Qed.

Hypothesis f_bullets : forall v s, f (set_bullets v s) = f s.
Hypothesis f_asteroids : forall v s, f (set_asteroids v s) = f s.
Hypothesis f_score : forall v s, f (set_score v s) = f s.
Hypothesis f_scoreEl : forall v s, f (set_scoreEl v s) = f s.

Lemma on_hit_keeps i j a : keeps f (on_hit i j a).
Proof.
  intro s. unfold on_hit, bind, modify, show_score, ret.
  destruct (_ <=? _)%Z; simpl;
    rewrite ?f_scoreEl, ?f_score, ?f_asteroids, ?f_bullets; reflexivity.
Qed.

Lemma bullet_loop_keeps i a j : keeps f (bullet_loop i a j).
Proof.
  induction j as [|j IH]; simpl.
  - intro s. reflexivity.
  - intro s. unfold bind, get.
    destruct (nth_error (bullets s) j) as [b|]; [|reflexivity].
    destruct (bullet_hits a b); [apply on_hit_keeps | apply IH].
Qed.

Hypothesis f_boosters : forall v s, f (set_boosters v s) = f s.
Hypothesis f_fireRate : forall v s, f (set_fireRate v s) = f s.
Hypothesis f_shieldActive : forall v s, f (set_shieldActive v s) = f s.
Hypothesis f_shieldTimer : forall v s, f (set_shieldTimer v s) = f s.

Lemma applyBooster_keeps type : keeps f (applyBooster type).
Proof.
  intro s. unfold applyBooster, bind, modify, show_score, ret.
  destruct (is_type type "fireRate"), (is_type type "shield"),
    (is_type type "score"); simpl;
    rewrite ?f_scoreEl, ?f_score, ?f_shieldTimer, ?f_shieldActive, ?f_fireRate;
    reflexivity.
Qed.

Lemma booster_loop_keeps k : keeps f (booster_loop k).
Proof.
  induction k as [|k IH]; simpl.
  - intro s. reflexivity.
  - intro s. unfold bind at 1. unfold get.
    destruct (nth_error (boosters s) k) as [b|]; [|reflexivity].
    apply keeps_bind; [|intros _; exact IH].
    destruct (picked_up _ _); [|intro s'; reflexivity].
    apply keeps_bind; [apply applyBooster_keeps|].
    intros _ s'. apply f_boosters.
Qed.

Lemma shield_decay_keeps dt s : f (shield_decay dt s) = f s.
Proof.
  unfold shield_decay. destruct (shieldActive s); [|reflexivity].
  destruct (Qle_bool _ _); rewrite ?f_shieldActive, ?f_shieldTimer; reflexivity.
Qed.

Hypothesis f_running : forall v s, f (set_running v s) = f s.
Hypothesis f_alerts : forall v s, f (set_alerts v s) = f s.

Lemma ship_collision_keeps a : keeps f (ship_collision a).
Proof.
  intro s. unfold ship_collision, bind, get, alert_final_score, modify.
  destruct (_ && _); simpl; rewrite ?f_alerts, ?f_running; reflexivity.
Qed.

Lemma asteroid_iteration_keeps i : keeps f (asteroid_iteration i).
Proof.
  intro s. unfold asteroid_iteration, bind at 1, get.
  destruct (nth_error (asteroids s) i) as [a|]; [|reflexivity].
  apply keeps_bind; [apply bullet_loop_keeps | intros _; apply ship_collision_keeps].
Qed.

Lemma asteroid_loop_keeps k : keeps f (asteroid_loop k).
Proof.
  induction k as [|k IH]; simpl.
  - intro s. reflexivity.
  - apply keeps_bind; [apply asteroid_iteration_keeps | intros _; exact IH].
Qed.

Lemma resolve_keeps dt : keeps f (resolve dt).
Proof.
  intro s. unfold resolve, bind at 1, get.
  apply keeps_bind; [apply asteroid_loop_keeps|]. intros _ s1.
  unfold bind at 1, get.
  apply keeps_bind; [apply booster_loop_keeps|]. intros _ s2.
  apply shield_decay_keeps.
Qed.

Hypothesis f_spawn : forall v s, f (set_spawn v s) = f s.
Hypothesis f_lastShot : forall v s, f (set_lastShot v s) = f s.
Hypothesis f_nowCalls : forall v s, f (set_nowCalls v s) = f s.

Lemma shoot_keeps : keeps f (shoot host).
Proof.
  intro s. unfold shoot, bind, get, performance_now, modify, ret.
  destruct (pressed_fire s); [|reflexivity].
  destruct (Q_gt_num _ _); simpl;
    rewrite ?f_lastShot, ?f_nowCalls, ?f_bullets, ?f_nowCalls; reflexivity.
Qed.

Lemma spawnAsteroid_keeps : keeps f (spawnAsteroid host).
Proof.
  unfold spawnAsteroid.
  apply keeps_bind; [apply Math_random_keeps | intro u].
  apply keeps_bind; [apply Math_random_keeps | intro v].
  apply keeps_bind; [apply points_loop_keeps | intro points].
  apply keeps_bind; [apply Math_random_keeps | intro ux].
  apply keeps_bind;
    [intro s; unfold read_asteroidSpeed; destruct (asteroidSpeed s); reflexivity
    | intro range].
  apply keeps_bind; [apply Math_random_keeps | intro uv].
  apply keeps_bind; [apply Math_random_keeps | intro urot].
  apply keeps_bind; [apply Math_random_keeps | intro ur].
  intro s. apply f_asteroids.
Qed.

Lemma spawnBooster_keeps : keeps f (spawnBooster host).
Proof.
  unfold spawnBooster.
  apply keeps_bind; [apply Math_random_keeps | intro ux].
  apply keeps_bind; [apply Math_random_keeps | intro ut].
  intro s. apply f_boosters.
Qed.

Lemma spawn_timer_keeps dt : keeps f (spawn_timer host dt).
Proof.
  unfold spawn_timer.
  apply keeps_bind; [intro s; apply f_spawn | intros _].
  intro s. unfold bind at 1, get.
  destruct (num_le (spawn s) 0); [|reflexivity].
  apply keeps_bind; [intro s'; apply f_spawn | intros _].
  apply keeps_bind; [apply spawnAsteroid_keeps | intros _].
  apply keeps_bind; [apply Math_random_keeps | intro u].
  destruct (Qltb u 0.2); [apply spawnBooster_keeps | intro s'; reflexivity].
Qed.

Lemma advance_after_move dt s :
  f (state_of (advance host dt s)) = f (move_player host dt s).
Proof.
  unfold advance. unfold bind at 1. unfold modify at 1.
  generalize (move_player host dt s).
  apply keeps_bind; [apply shoot_keeps | intros _].
  apply keeps_bind; [intro s'; apply f_bullets | intros _].
  apply keeps_bind; [apply spawn_timer_keeps | intros _].
  apply keeps_bind; [intro s'; apply f_asteroids | intros _].
  intro s'. apply f_boosters.
Qed.

(** Whatever [update] does after the ship has moved leaves [f] alone. *)
Lemma update_after_move dt s :
  f (state_of (update host dt s)) = f (move_player host dt s).
Proof.
  unfold update, advance.
  unfold bind at 1. unfold bind at 1. unfold modify at 1.
  change (f (state_of
    (((shoot host ;; modify (move_bullets dt) ;; spawn_timer host dt ;;
       modify (move_asteroids host dt) ;; modify (move_boosters host dt)) ;;
      resolve dt) (move_player host dt s))) = f (move_player host dt s)).
  generalize (move_player host dt s). apply keeps_bind; [|intros _; apply resolve_keeps].
  apply keeps_bind; [apply shoot_keeps | intros _].
  apply keeps_bind; [intro s'; apply f_bullets | intros _].
  apply keeps_bind; [apply spawn_timer_keeps | intros _].
  apply keeps_bind; [intro s'; apply f_asteroids | intros _].
  intro s'. apply f_boosters.
Qed.

Hypothesis f_move_player : forall dt s, f (move_player host dt s) = f s.
Hypothesis f_last : forall v s, f (set_last v s) = f s.
Hypothesis f_calls : forall v s, f (set_calls v s) = f s.
Hypothesis f_rafQueue : forall v s, f (set_rafQueue v s) = f s.

Lemma update_keeps dt : keeps f (update host dt).
Proof. intro s. rewrite update_after_move. apply f_move_player. Qed.

Lemma draw_keeps : keeps f draw.
Proof. intro s. unfold draw. destruct (existsb _ _); reflexivity. Qed.

Lemma loop_keeps now : keeps f (loop host now).
Proof.
  intro s. unfold loop, bind at 1, get. unfold bind at 1, modify at 1.
  change (running (set_last now s)) with (running s).
  destruct (running s); [|apply f_last].
  rewrite <- (f_last now s). generalize (set_last now s).
  apply keeps_bind; [intro s'; apply f_calls | intros _].
  apply keeps_bind; [apply update_keeps | intros _].
  apply keeps_bind; [intro s'; apply f_calls | intros _].
  apply keeps_bind; [apply draw_keeps | intros _].
  apply keeps_bind; [intro s'; apply f_calls | intros _].
  intro s'. apply f_rafQueue.
Qed.

Lemma run_callbacks_keeps n timestamp s :
  f (run_callbacks host n timestamp s) = f s.
Proof.
  revert s. induction n as [|n IH]; intro s; simpl; [reflexivity|].
  rewrite IH. apply loop_keeps.
Qed.

End Frames.

(** ** The ship *)

Section Ship.

Variable host : Host.

Lemma update_player dt s :
  player (state_of (update host dt s)) = player (move_player host dt s).
Proof. apply update_after_move; intros; reflexivity. Qed.

Lemma move_player_x dt s :
  Player.x (player (move_player host dt s)) =
  Qmax 10 (Qmin (c_width host - 10 - Player.w (player s))
     (let x1 := if pressed_left s then Player.x (player s) - 220 * dt
                else Player.x (player s) in
      if pressed_right s then x1 + 220 * dt else x1)).
Proof. reflexivity. Qed.

Lemma clamp_bounds lo hi x : lo <= hi -> lo <= Qmax lo (Qmin hi x) <= hi.
Proof.
  intro H. split.
  - apply Q.le_max_l.
  - apply Q.max_lub; [exact H | apply Q.le_min_l].
Qed.

Lemma clamp_empty lo hi x : hi < lo -> Qmax lo (Qmin hi x) == lo.
Proof.
  intro H. apply Q.max_l.
  apply Qle_trans with hi; [apply Q.le_min_l | apply Qlt_le_weak; exact H].
Qed.

(** C10.  A simulation step leaves the ship's [y], [w] and [h] as they
    were, for every [dt] and every state of the keys and touch zones,
    whether the step returns or throws: of the ship's fields [update]
    assigns only [x].  The same holds for every event of the page that
    does not call [initGame]. *)
Theorem update_keeps_ship_y_w_h (dt : Q) (s : state) :
  (Player.y (player (state_of (update host dt s))) = Player.y (player s)
   /\ Player.w (player (state_of (update host dt s))) = Player.w (player s)
   /\ Player.h (player (state_of (update host dt s))) = Player.h (player s))
  /\ (forall e, starts_a_run e = false -> ship_y_w_h (step host s e) = ship_y_w_h s).
Proof.
  split.
  - rewrite update_player. unfold move_player. simpl. repeat split.
  - intros e He. unfold step. destruct e; try discriminate He; try reflexivity.
    + destruct b; reflexivity.
    + destruct b; reflexivity.
    + simpl. unfold modify. simpl.
      rewrite (run_callbacks_keeps host ship_y_w_h); try reflexivity;
        intros; reflexivity.
Qed.

(** C4.  When the canvas has room for the ship between the two margins,
    after a simulation step the ship's [x] lies in
    [[10, c.width - 10 - player.w]], for every [dt], every state of the
    keys and touch zones and every [x] before the step. *)
Theorem update_clamps_ship_x (dt : Q) (s : state) :
  10 <= c_width host - 10 - Player.w (player s) ->
  10 <= Player.x (player (state_of (update host dt s)))
    <= c_width host - 10 - Player.w (player (state_of (update host dt s))).
Proof.
  intro room.
  rewrite !update_player.
  change (Player.w (player (move_player host dt s))) with (Player.w (player s)).
  rewrite move_player_x.
  apply clamp_bounds. exact room.
Qed.

(** On a canvas too narrow for that, the step parks the ship on the left
    margin. *)
Remark update_ship_x_narrow_canvas (dt : Q) (s : state) :
  c_width host - 10 - Player.w (player s) < 10 ->
  Player.x (player (state_of (update host dt s))) == 10.
Proof.
  intro narrow. rewrite update_player, move_player_x.
  apply clamp_empty. exact narrow.
Qed.

End Ship.

(** ** The fire-rate booster *)

Lemma pick_fireRate_fireRate s :
  fireRate (pick_fireRate s) = Math_max_num 80 (num_sub (fireRate s) 80).
Proof. reflexivity. Qed.

Lemma applyBooster_returns type s : returns (applyBooster type s) = true.
Proof.
  unfold applyBooster, bind, modify, show_score, ret.
  destruct (is_type type "fireRate"), (is_type type "shield"),
    (is_type type "score"); reflexivity.
Qed.

Lemma floor_step (x y : Q) :
  x == Qmax 80 y -> Qmax 80 (x - 80) == Qmax 80 (y - 80).
Proof.
  intro E.
  destruct (Q.max_spec 80 y) as [[L1 E1]|[L1 E1]];
  destruct (Q.max_spec 80 (x - 80)) as [[L2 E2]|[L2 E2]];
  destruct (Q.max_spec 80 (y - 80)) as [[L3 E3]|[L3 E3]];
  rewrite E2, E3; rewrite E, E1 in *; lra.
Qed.

Lemma inject_succ (k : nat) :
  inject_Z (Z.of_nat (S k)) == inject_Z (Z.of_nat k) + 1.
Proof. rewrite Nat2Z.inj_succ. unfold Z.succ. rewrite inject_Z_plus. reflexivity. Qed.

(** C7.  From a fire interval [B] of at least 80 ms, [k] pickups of the
    [fireRate] booster leave the interval at [max(80, B - 80 * k)], which
    is never below 80. *)
Theorem fireRate_booster_saturates (B : Q) (k : nat) (s : state) :
  fireRate s = Some B ->
  80 <= B ->
  exists f,
    fireRate (Nat.iter k pick_fireRate s) = Some f
    /\ f == Qmax 80 (B - 80 * inject_Z (Z.of_nat k))
    /\ 80 <= f.
Proof.
  intros HB base. induction k as [|k (f & Hf & Ef & Lf)].
  - exists B. simpl. split; [exact HB|]. split; [|exact base].
    change (inject_Z 0) with 0.
    apply Qeq_sym. eapply Qeq_trans; [apply Q.max_r; lra | ring].
  - exists (Qmax 80 (f - 80)). split; [|split].
    + change (Nat.iter (S k) pick_fireRate s)
        with (pick_fireRate (Nat.iter k pick_fireRate s)).
      rewrite pick_fireRate_fireRate, Hf. reflexivity.
    + rewrite (floor_step f (B - 80 * inject_Z (Z.of_nat k)) Ef).
      apply Q.max_compat; [reflexivity|]. rewrite inject_succ. ring.
    + apply Q.le_max_l.
Qed.

(** ** Starting a run *)

Lemma difficulty_undefined (diff : string) :
  ~ In diff difficulty_names -> ~ In diff Object_prototype -> difficulty diff = Undefined.
Proof.
  intros Hn Hp. unfold difficulty.
  destruct (String.eqb_spec diff "easy") as [E|_];
    [exfalso; apply Hn; rewrite E; simpl; auto|].
  destruct (String.eqb_spec diff "medium") as [E|_];
    [exfalso; apply Hn; rewrite E; simpl; auto|].
  destruct (String.eqb_spec diff "hard") as [E|_];
    [exfalso; apply Hn; rewrite E; simpl; auto|].
  destruct (existsb (String.eqb diff) Object_prototype) eqn:Ex; [|reflexivity].
  exfalso. apply Hp. apply existsb_exists in Ex. destruct Ex as (x & Hx & E).
  apply String.eqb_eq in E. rewrite E. exact Hx.
Qed.

Lemma initGame_undefined host diff s :
  difficulty diff = Undefined ->
  exists s',
    initGame host diff s = Throw TypeError s'
    /\ running s' = running s
    /\ fireRate s' = fireRate s
    /\ spawnRate s' = spawnRate s
    /\ asteroidSpeed s' = asteroidSpeed s
    /\ rafQueue s' = rafQueue s
    /\ calls s' = calls s.
Proof.
  intro H. unfold initGame, bind, modify, throw. rewrite H.
  eexists. split; [reflexivity|]. simpl. repeat split.
Qed.

(** C9, the identifiers the claim fails on.  [constructor] is none of the
    three names, and yet starting a run with it sets the running flag, with
    [undefined] for the fire interval, the spawn interval and the speed
    range: [difficulty["constructor"]] is the inherited [Object], whose
    missing properties read as [undefined] without an exception. *)
Lemma start_with_inherited_name_runs :
  ~ In "constructor"%string difficulty_names
  /\ running (play demo_host [click_startBtn "constructor"]) = true
  /\ fireRate (play demo_host [click_startBtn "constructor"]) = None
  /\ spawnRate (play demo_host [click_startBtn "constructor"]) = None
  /\ asteroidSpeed (play demo_host [click_startBtn "constructor"]) = None.
Proof.
  split.
  - intros [H|[H|[H|[]]]]; discriminate H.
  - vm_compute. repeat split.
Qed.

(** C9, as the script has it.  For an identifier that is none of [easy],
    [medium], [hard] and names no member inherited from [Object.prototype],
    [initGame] throws a [TypeError] before it assigns a difficulty
    variable, sets the running flag, or calls [loop]: the three variables,
    the frame queue and the calls made stay as they were.  After a click on
    Restart the running flag is false, after a click on Start it is what
    it was. *)
Theorem unknown_difficulty_throws host (diff : string) (s : state) :
  ~ In diff difficulty_names ->
  ~ In diff Object_prototype ->
  (exists s',
     initGame host diff s = Throw TypeError s'
     /\ running s' = running s
     /\ fireRate s' = fireRate s
     /\ spawnRate s' = spawnRate s
     /\ asteroidSpeed s' = asteroidSpeed s
     /\ rafQueue s' = rafQueue s
     /\ calls s' = calls s)
  /\ running (step host s (click_restartBtn diff)) = false
  /\ running (step host s (click_startBtn diff)) = running s.
Proof.
  intros Hn Hp. pose proof (difficulty_undefined diff Hn Hp) as H.
  split; [apply initGame_undefined; exact H|].
  split.
  - unfold step, listener, bind at 1, modify at 1.
    destruct (initGame_undefined host diff (set_running false s) H)
      as (s' & E & R & _).
    rewrite E. simpl. rewrite R. reflexivity.
  - unfold step, listener, bind at 1, modify at 1, bind at 1, modify at 1.
    destruct (initGame_undefined host diff
                (set_gameHidden false (set_homeHidden true s)) H)
      as (s' & E & R & _).
    rewrite E. simpl. rewrite R. reflexivity.
Qed.

(** C9 at the identifier [insane], on the page as loaded and during an
    easy run. *)
Lemma unknown_difficulty_throws_witness :
  running (step demo_host (loaded demo_host) (click_startBtn "insane")) = false
  /\ running (step demo_host (play demo_host [click_startBtn "easy"])
                (click_restartBtn "insane")) = false.
Proof.
  assert (Hn : ~ In "insane"%string difficulty_names)
    by (intros [H|[H|[H|[]]]]; discriminate H).
  assert (Hp : ~ In "insane"%string Object_prototype)
    by (intro H; repeat (destruct H as [H|H]; [discriminate H|]); exact H).
  split.
  - exact (proj2 (proj2 (unknown_difficulty_throws demo_host "insane"
                           (loaded demo_host) Hn Hp))).
  - exact (proj1 (proj2 (unknown_difficulty_throws demo_host "insane"
                           (play demo_host [click_startBtn "easy"]) Hn Hp))).
Defined.

(** ** Arrays: [splice] and [store] *)

Section Arrays.

Context {A : Type}.
Implicit Types (l : list A) (i : nat) (v : A).

Lemma splice_length l i :
  (i < List.length l)%nat -> S (List.length (splice i l)) = List.length l.
Proof.
  intro H. unfold splice. rewrite length_app, firstn_length_le by lia.
  rewrite length_skipn. lia.
Qed.

Lemma splice_firstn l i : firstn i (splice i l) = firstn i l.
Proof.
  unfold splice. destruct (Nat.le_gt_cases i (List.length l)) as [H|H].
  - rewrite firstn_app, firstn_firstn, Nat.min_id.
    rewrite firstn_length_le by exact H. rewrite Nat.sub_diag. simpl.
    apply app_nil_r.
  - rewrite skipn_all2 by lia. rewrite app_nil_r.
    rewrite firstn_firstn, Nat.min_id. reflexivity.
Qed.

Lemma store_length l i v : List.length (store i v l) = List.length l.
Proof.
  unfold store. destruct (nth_error l i) eqn:E; [|reflexivity].
  assert (i < List.length l)%nat by (apply nth_error_Some; congruence).
  rewrite length_app, firstn_length_le by lia. cbn [List.length].
  rewrite length_skipn. lia.
Qed.

Lemma store_firstn l i v : firstn i (store i v l) = firstn i l.
Proof.
  unfold store. destruct (nth_error l i) eqn:E; [|reflexivity].
  assert (i < List.length l)%nat by (apply nth_error_Some; congruence).
  rewrite firstn_app, firstn_firstn, Nat.min_id.
  rewrite firstn_length_le by lia. rewrite Nat.sub_diag. simpl.
  apply app_nil_r.
Qed.

Lemma store_skipn l i v : skipn (S i) (store i v l) = skipn (S i) l.
Proof.
  unfold store. destruct (nth_error l i) eqn:E; [|reflexivity].
  assert (H : (i < List.length l)%nat) by (apply nth_error_Some; congruence).
  rewrite skipn_app, firstn_length_le by lia.
  rewrite skipn_all2 by (rewrite firstn_length_le; lia).
  replace (S i - i)%nat with 1%nat by lia. reflexivity.
Qed.

Lemma store_nth l i v :
  (i < List.length l)%nat -> nth_error (store i v l) i = Some v.
Proof.
  intro H. unfold store. destruct (nth_error l i) eqn:E.
  - rewrite nth_error_app2; rewrite firstn_length_le by lia; [|lia].
    rewrite Nat.sub_diag. reflexivity.
  - apply nth_error_None in E. lia.
Qed.

Lemma splice_store l i v : splice i (store i v l) = splice i l.
Proof. unfold splice. rewrite store_firstn, store_skipn. reflexivity. Qed.

Lemma firstn_nth l l' i k :
  firstn k l = firstn k l' -> (i < k)%nat -> nth_error l i = nth_error l' i.
Proof.
  intros E H.
  assert (F : forall m : list A, nth_error (firstn k m) i = nth_error m i).
  { intro m. rewrite nth_error_firstn.
    destruct (Nat.ltb_spec i k); [reflexivity | lia]. }
  rewrite <- (F l), <- (F l'), E. reflexivity.
Qed.

Lemma firstn_shorter l l' i k :
  firstn k l = firstn k l' -> (i <= k)%nat -> firstn i l = firstn i l'.
Proof.
  intros E H. replace i with (Nat.min i k) by lia.
  rewrite <- !firstn_firstn. rewrite E. reflexivity.
Qed.

End Arrays.

(** ** The collision loop *)

Lemma ship_collision_result a s : ship_collision a s = Ok tt (collided a s).
Proof.
  unfold ship_collision, collided, bind, get, modify, alert_final_score.
  destruct (_ && _); reflexivity.
Qed.

Lemma on_hit_result i j a s :
  exists s',
    on_hit i j a s = Ok tt s'
    /\ bullets s' = splice j (bullets s)
    /\ (if (Asteroid.hp a - 1 <=? 0)%Z
        then asteroids s' = splice i (asteroids s)
             /\ score s' = (score s + 10)%Z
        else asteroids s' = store i (wounded a) (asteroids s)
             /\ score s' = score s).
Proof.
  unfold on_hit, bind, modify, show_score, ret.
  change (Asteroid.hp (Asteroid.set_hp (Asteroid.hp a - 1) a))
    with (Asteroid.hp a - 1)%Z.
  destruct (Asteroid.hp a - 1 <=? 0)%Z; eexists; (split; [reflexivity|]);
    simpl; repeat split.
  apply splice_store.
Qed.

Lemma bullet_loop_result i a j s :
  (j <= List.length (bullets s))%nat ->
  (bullet_loop i a j s = Ok tt s
   /\ forall j' b, (j' < j)%nat -> nth_error (bullets s) j' = Some b ->
                   bullet_hits a b = false)
  \/ exists j' b,
       (j' < j)%nat
       /\ nth_error (bullets s) j' = Some b
       /\ bullet_hits a b = true
       /\ bullet_loop i a j s = on_hit i j' a s.
Proof.
  induction j as [|j IH]; intro H; simpl.
  - left. split; [reflexivity|]. intros j' b Hj. lia.
  - unfold bind, get.
    destruct (nth_error (bullets s) j) as [b|] eqn:E.
    + destruct (bullet_hits a b) eqn:Hit.
      * right. exists j, b. repeat split; [lia | exact E | exact Hit].
      * destruct IH as [[IH Hno]|(j' & b' & Hj & Hb & Hh & IH)]; [lia | left |].
        { split; [exact IH|]. intros j' b' Hj Hb.
          destruct (Nat.eq_dec j' j) as [->|Hne]; [congruence|].
          apply (Hno j' b'); [lia | exact Hb]. }
        right. exists j', b'. repeat split; [lia | exact Hb | exact Hh | exact IH].
    + apply nth_error_None in E. lia.
Qed.

(** What the scan of the bullets does to the arrays. *)
Lemma bullet_loop_arrays i a s :
  (i < List.length (asteroids s))%nat ->
  exists s1,
    bullet_loop i a (List.length (bullets s)) s = Ok tt s1
    /\ firstn i (asteroids s1) = firstn i (asteroids s)
    /\ (i <= List.length (asteroids s1))%nat
    /\ (List.length (bullets s1) <= List.length (bullets s))%nat.
Proof.
  intro Hi.
  destruct (bullet_loop_result i a (List.length (bullets s)) s (le_n _))
    as [[E _]|(j & b & Hj & Hb & Hh & E)].
  - exists s. repeat split; [exact E | lia | lia].
  - destruct (on_hit_result i j a s) as (s1 & E1 & Hbul & Hast).
    exists s1. rewrite E, E1. split; [reflexivity|].
    assert (Lb : (List.length (bullets s1) <= List.length (bullets s))%nat).
    { rewrite Hbul. pose proof (splice_length (bullets s) j Hj). lia. }
    destruct (Asteroid.hp a - 1 <=? 0)%Z; destruct Hast as [Hast _]; rewrite Hast.
    + pose proof (splice_length (asteroids s) i Hi).
      repeat split; [apply splice_firstn | lia | exact Lb].
    + rewrite store_length.
      repeat split; [apply store_firstn | lia | exact Lb].
Qed.

Lemma asteroid_iteration_result i s a :
  nth_error (asteroids s) i = Some a ->
  exists s1,
    bullet_loop i a (List.length (bullets s)) s = Ok tt s1
    /\ asteroid_iteration i s = Ok tt (collided a s1)
    /\ player s1 = player s
    /\ shieldActive s1 = shieldActive s
    /\ running s1 = running s
    /\ alerts s1 = alerts s
    /\ firstn i (asteroids s1) = firstn i (asteroids s)
    /\ (i <= List.length (asteroids s1))%nat.
Proof.
  intro Ha.
  assert (Hi : (i < List.length (asteroids s))%nat)
    by (apply nth_error_Some; congruence).
  destruct (bullet_loop_arrays i a s Hi) as (s1 & E & Hf & Hl & _).
  exists s1. split; [exact E|]. split.
  { unfold asteroid_iteration, bind at 1, get. rewrite Ha.
    unfold bind. rewrite E. apply ship_collision_result. }
  pose proof (bullet_loop_keeps player
    (fun _ _ => eq_refl) (fun _ _ => eq_refl) (fun _ _ => eq_refl)
    (fun _ _ => eq_refl) i a (List.length (bullets s)) s) as Kp.
  pose proof (bullet_loop_keeps shieldActive
    (fun _ _ => eq_refl) (fun _ _ => eq_refl) (fun _ _ => eq_refl)
    (fun _ _ => eq_refl) i a (List.length (bullets s)) s) as Ks.
  pose proof (bullet_loop_keeps running
    (fun _ _ => eq_refl) (fun _ _ => eq_refl) (fun _ _ => eq_refl)
    (fun _ _ => eq_refl) i a (List.length (bullets s)) s) as Kr.
  pose proof (bullet_loop_keeps alerts
    (fun _ _ => eq_refl) (fun _ _ => eq_refl) (fun _ _ => eq_refl)
    (fun _ _ => eq_refl) i a (List.length (bullets s)) s) as Ka.
  rewrite E in Kp, Ks, Kr, Ka. simpl in Kp, Ks, Kr, Ka.
  repeat split; assumption.
Qed.

Lemma collided_frame a s :
  player (collided a s) = player s
  /\ shieldActive (collided a s) = shieldActive s
  /\ asteroids (collided a s) = asteroids s
  /\ bullets (collided a s) = bullets s
  /\ score (collided a s) = score s.
Proof. unfold collided. destruct (_ && _); repeat split. Qed.

Lemma collided_shielded a s : shieldActive s = true -> collided a s = s.
Proof. intro H. unfold collided. rewrite H. reflexivity. Qed.

Lemma collided_stays_ended a s :
  running s = false -> running (collided a s) = false.
Proof. intro H. unfold collided. destruct (_ && _); [reflexivity | exact H]. Qed.

Lemma collided_alerts a s :
  (List.length (alerts s) <= List.length (alerts (collided a s)))%nat.
Proof.
  unfold collided. destruct (_ && _); simpl; [|lia].
  rewrite length_app. simpl. lia.
Qed.

Lemma collided_hit a s :
  shieldActive s = false ->
  overlaps_player a (player s) = true ->
  running (collided a s) = false
  /\ alerts (collided a s) = alerts s ++ [score s].
Proof. intros Hs Ho. unfold collided. rewrite Hs, Ho. simpl. split; reflexivity. Qed.

(** The loop over the asteroids returns, and what it does to the running
    flag and the alerts. *)
Lemma asteroid_loop_result k :
  forall s,
  (k <= List.length (asteroids s))%nat ->
  exists s',
    asteroid_loop k s = Ok tt s'
    /\ player s' = player s
    /\ shieldActive s' = shieldActive s
    /\ (shieldActive s = true -> running s' = running s /\ alerts s' = alerts s)
    /\ (running s = false -> running s' = false)
    /\ (List.length (alerts s) <= List.length (alerts s'))%nat
    /\ (shieldActive s = false ->
        (exists i a, (i < k)%nat /\ nth_error (asteroids s) i = Some a
                     /\ overlaps_player a (player s) = true) ->
        running s' = false
        /\ (List.length (alerts s) < List.length (alerts s'))%nat).
Proof.
  induction k as [|k IH]; intros s Hk.
  - exists s. simpl. unfold ret.
    split; [reflexivity|]. split; [reflexivity|]. split; [reflexivity|].
    split; [intros _; split; reflexivity|]. split; [intro H; exact H|].
    split; [lia|]. intros _ (i & a & Hi & _). lia.
  - destruct (nth_error (asteroids s) k) as [a|] eqn:Ha;
      [|apply nth_error_None in Ha; lia].
    destruct (asteroid_iteration_result k s a Ha)
      as (s1 & _ & E & Hp1 & Hs1 & Hr1 & Ha1 & Hf1 & Hl1).
    destruct (collided_frame a s1) as (Cp & Cs & Cas & _).
    destruct (IH (collided a s1)) as (s' & E' & Hp' & Hs' & Hon & Hend & Hal & Hoff).
    { rewrite Cas. exact Hl1. }
    exists s'. split.
    { simpl. unfold bind. rewrite E. exact E'. }
    split; [congruence|]. split; [congruence|].
    pose proof (collided_alerts a s1) as Cal.
    split; [|split; [|split]].
    + intro On. rewrite (collided_shielded a s1) in Hon by congruence.
      destruct Hon as [R1 R2]; [congruence|]. split; congruence.
    + intro Hr. apply Hend. apply collided_stays_ended. congruence.
    + rewrite <- Ha1. lia.
    + intros Off (i & b & Hi & Hb & Ho).
      destruct (Nat.eq_dec i k) as [->|Hne].
      * assert (b = a) by congruence. subst b.
        destruct (collided_hit a s1) as [Hr Hx]; [congruence | congruence |].
        split; [apply Hend; exact Hr|].
        rewrite Hx, length_app in Hal. simpl in Hal. rewrite Ha1 in Hal. lia.
      * assert (Hlt : running s' = false
                      /\ (List.length (alerts (collided a s1))
                          < List.length (alerts s'))%nat).
        { apply Hoff; [congruence|]. exists i, b.
          split; [lia|]. split; [|congruence].
          rewrite Cas. rewrite (firstn_nth _ _ i k Hf1) by lia. exact Hb. }
        split; [apply Hlt|]. rewrite <- Ha1. lia.
Qed.

(** ** Spawning *)

Section Spawning.

Variable host : Host.

Lemma points_loop_result radius sides n :
  forall i points s,
  exists points',
    points_loop host radius sides n i points s
    = Ok points' (set_randomCalls (n + randomCalls s) s).
Proof.
  induction n as [|n IH]; intros i points s; simpl.
  - exists points. unfold ret. destruct s; reflexivity.
  - unfold bind, Math_random.
    destruct (IH (i + 1)%Z
                (points ++ [ {| Point.turn := inject_Z i / inject_Z sides;
                                Point.r := radius * (0.7 + random_src host (randomCalls s) * 0.6) |} ])
                (set_randomCalls (S (randomCalls s)) s)) as (points' & E).
    exists points'. rewrite E. f_equal. simpl.
    unfold set_randomCalls. simpl. f_equal. lia.
Qed.

(** [spawnAsteroid] returns when the speed range is defined, appends one
    asteroid at [y = -40] whose speed is drawn from the range, and besides
    that only advances the random source. *)
Lemma spawnAsteroid_result s range :
  asteroidSpeed s = Some range ->
  exists a c n,
    spawnAsteroid host s
    = Ok tt (set_asteroids (asteroids s ++ [a]) (set_randomCalls c s))
    /\ Asteroid.y a = -40
    /\ Asteroid.vy a
       = fst range + random_src host n * (snd range - fst range).
Proof.
  intro H. unfold spawnAsteroid, bind at 1. unfold Math_random at 1.
  unfold bind at 1. unfold Math_random at 1.
  unfold bind at 1.
  match goal with
  | |- context [points_loop host ?r ?sd ?n ?i ?p ?st] =>
      destruct (points_loop_result r sd n i p st) as (points & E); rewrite E
  end.
  unfold bind, Math_random, read_asteroidSpeed, modify. simpl. rewrite H.
  eexists _, _, _. split; [reflexivity|]. simpl. split; reflexivity.
Qed.

Lemma spawnAsteroid_undefined s :
  asteroidSpeed s = None -> returns (spawnAsteroid host s) = false.
Proof.
  intro H. unfold spawnAsteroid, bind at 1. unfold Math_random at 1.
  unfold bind at 1. unfold Math_random at 1.
  unfold bind at 1.
  match goal with
  | |- context [points_loop host ?r ?sd ?n ?i ?p ?st] =>
      destruct (points_loop_result r sd n i p st) as (points & E); rewrite E
  end.
  unfold bind, Math_random, read_asteroidSpeed. simpl. rewrite H. reflexivity.
Qed.

(** A spawned asteroid has between two and five hit-points. *)
Lemma spawnAsteroid_hit_points s range :
  (forall n, 0 <= random_src host n < 1) ->
  asteroidSpeed s = Some range ->
  exists s' a,
    spawnAsteroid host s = Ok tt s'
    /\ asteroids s' = asteroids s ++ [a]
    /\ (2 <= Asteroid.hp a <= 5)%Z.
Proof.
  intros U H. unfold spawnAsteroid, bind at 1. unfold Math_random at 1.
  unfold bind at 1. unfold Math_random at 1.
  unfold bind at 1.
  match goal with
  | |- context [points_loop host ?r ?sd ?n ?i ?p ?st] =>
      destruct (points_loop_result r sd n i p st) as (points & E); rewrite E
  end.
  unfold bind, Math_random, read_asteroidSpeed, modify. simpl. rewrite H.
  eexists _, _. split; [reflexivity|]. split; [reflexivity|].
  cbn [Asteroid.hp]. destruct (U (S (randomCalls s))) as [U0 U1].
  split.
  - change 2%Z with (Qceiling (15 / 10)). apply Qceiling_resp_le.
    unfold Qdiv. change (/ 10) with (1 # 10). lra.
  - change 5%Z with (Qceiling (45 / 10)). apply Qceiling_resp_le.
    unfold Qdiv. change (/ 10) with (1 # 10). lra.
Qed.

Lemma spawnBooster_result s :
  exists b,
    spawnBooster host s
    = Ok tt (set_boosters (boosters s ++ [b]) (set_randomCalls (2 + randomCalls s) s)).
Proof. eexists. reflexivity. Qed.

End Spawning.

(** ** The first half of a step *)

Lemma returns_state (r : result unit) : returns r = true -> r = Ok tt (state_of r).
Proof. destruct r as [[] s|e s]; [reflexivity | discriminate]. Qed.

Lemma bind_returns {B} (m : M unit) (k : unit -> M B) s :
  returns (m s) = true -> bind m k s = k tt (state_of (m s)).
Proof.
  intro H. unfold bind. rewrite (returns_state _ H). reflexivity.
Qed.

Lemma bind_returns_inv {B} (m : M unit) (k : unit -> M B) s :
  returns (bind m k s) = true -> returns (m s) = true.
Proof. unfold bind. destruct (m s); [reflexivity | discriminate]. Qed.

Section Advance.

Variable host : Host.

Lemma shoot_returns s : returns (shoot host s) = true.
Proof.
  unfold shoot, bind, get, performance_now, modify, ret.
  destruct (pressed_fire s); [|reflexivity].
  destruct (Q_gt_num _ _); reflexivity.
Qed.

Lemma shoot_idle s : pressed_fire s = false -> shoot host s = Ok tt s.
Proof. intro H. unfold shoot, bind, get. rewrite H. reflexivity. Qed.

Lemma spawn_timer_idle dt s :
  num_le (num_sub (spawn s) dt) 0 = false ->
  spawn_timer host dt s = Ok tt (set_spawn (num_sub (spawn s) dt) s).
Proof.
  intro H. unfold spawn_timer, bind, modify, get. simpl. rewrite H. reflexivity.
Qed.

Lemma spawn_timer_fires dt s range :
  asteroidSpeed s = Some range ->
  num_le (num_sub (spawn s) dt) 0 = true ->
  exists a c bs n,
    spawn_timer host dt s
    = Ok tt (set_boosters bs
               (set_asteroids (asteroids s ++ [a])
                  (set_randomCalls c (set_spawn (spawnRate s) s))))
    /\ Asteroid.y a = -40
    /\ Asteroid.vy a = fst range + random_src host n * (snd range - fst range).
Proof.
  intros Hr H. unfold spawn_timer, bind at 1, modify at 1.
  unfold bind at 1, get. cbn [spawn set_spawn]. rewrite H.
  unfold bind at 1, modify at 1.
  destruct (spawnAsteroid_result host
              (set_spawn (spawnRate (set_spawn (num_sub (spawn s) dt) s))
                 (set_spawn (num_sub (spawn s) dt) s)) range Hr)
    as (a & c & n & E & Hy & Hv).
  unfold bind at 1. rewrite E. unfold bind, Math_random. cbn [randomCalls set_asteroids set_randomCalls].
  destruct (Qltb _ 0.2).
  - eexists a, _, _, n. split; [reflexivity|]. split; assumption.
  - exists a, (S c), (boosters s), n. split; [reflexivity|]. split; assumption.
Qed.

Lemma spawn_timer_returns dt s range :
  asteroidSpeed s = Some range -> returns (spawn_timer host dt s) = true.
Proof.
  intro Hr. destruct (num_le (num_sub (spawn s) dt) 0) eqn:H.
  - destruct (spawn_timer_fires dt s range Hr H) as (a & c & bs & n & E & _).
    rewrite E. reflexivity.
  - rewrite (spawn_timer_idle dt s H). reflexivity.
Qed.

Lemma advance_unfold dt s :
  advance host dt s =
  match spawn_timer host dt (aimed host dt s) with
  | Ok _ s' => Ok tt (move_boosters host dt (move_asteroids host dt s'))
  | Throw e s' => Throw e s'
  end.
Proof.
  unfold advance, aimed. unfold bind at 1, modify at 1.
  rewrite bind_returns by apply shoot_returns.
  unfold bind at 1, modify at 1. unfold bind at 1.
  destruct (spawn_timer host dt _) as [[] s'|e s']; reflexivity.
Qed.

Lemma aimed_asteroidSpeed dt s : asteroidSpeed (aimed host dt s) = asteroidSpeed s.
Proof.
  unfold aimed. cbn [move_bullets asteroidSpeed set_bullets].
  rewrite (shoot_keeps host asteroidSpeed); try reflexivity; intros; reflexivity.
Qed.

Lemma advance_returns dt s range :
  asteroidSpeed s = Some range -> returns (advance host dt s) = true.
Proof.
  intro Hr. rewrite advance_unfold.
  pose proof (spawn_timer_returns dt (aimed host dt s) range) as R.
  rewrite aimed_asteroidSpeed in R. specialize (R Hr).
  destruct (spawn_timer host dt (aimed host dt s)); [reflexivity | discriminate R].
Qed.

End Advance.

(** ** The second half of a step *)

Lemma booster_loop_returns k :
  forall s, (k <= List.length (boosters s))%nat -> returns (booster_loop k s) = true.
Proof.
  induction k as [|k IH]; intros s Hk; [reflexivity|].
  simpl. unfold bind at 1, get.
  destruct (nth_error (boosters s) k) as [b|] eqn:Hb;
    [|apply nth_error_None in Hb; lia].
  destruct (picked_up b (player s)).
  - unfold bind at 1. unfold bind at 1.
    pose proof (applyBooster_returns (Booster.type b) s) as R.
    pose proof (applyBooster_keeps boosters
      (fun _ _ => eq_refl) (fun _ _ => eq_refl) (fun _ _ => eq_refl)
      (fun _ _ => eq_refl) (fun _ _ => eq_refl) (Booster.type b) s) as K.
    destruct (applyBooster (Booster.type b) s) as [[] s1|]; [|discriminate R].
    simpl in K. unfold modify. apply IH. cbn [boosters set_boosters].
    rewrite K. pose proof (splice_length (boosters s) k). lia.
  - unfold bind, ret. apply IH. lia.
Qed.

(** [resolve] returns; [s1] is the state after the loop over the asteroids
    and [s2] the state after the loop over the boosters. *)
Lemma resolve_result dt s :
  exists s1 s2,
    asteroid_loop (List.length (asteroids s)) s = Ok tt s1
    /\ booster_loop (List.length (boosters s1)) s1 = Ok tt s2
    /\ resolve dt s = Ok tt (shield_decay dt s2)
    /\ running (shield_decay dt s2) = running s1
    /\ alerts (shield_decay dt s2) = alerts s1
    /\ asteroids (shield_decay dt s2) = asteroids s1
    /\ bullets (shield_decay dt s2) = bullets s1.
Proof.
  destruct (asteroid_loop_result (List.length (asteroids s)) s (le_n _))
    as (s1 & E1 & _).
  pose proof (booster_loop_returns (List.length (boosters s1)) s1 (le_n _)) as R.
  apply returns_state in R. set (s2 := state_of (booster_loop _ s1)) in R.
  exists s1, s2. split; [exact E1|]. split; [exact R|]. split.
  { unfold resolve, bind, get. rewrite E1, R. reflexivity. }
  assert (K : forall {X} (f : state -> X),
             (forall v s, f (set_boosters v s) = f s) ->
             (forall v s, f (set_fireRate v s) = f s) ->
             (forall v s, f (set_shieldActive v s) = f s) ->
             (forall v s, f (set_shieldTimer v s) = f s) ->
             (forall v s, f (set_score v s) = f s) ->
             (forall v s, f (set_scoreEl v s) = f s) ->
             f (shield_decay dt s2) = f s1).
  { intros X f H1 H2 H3 H4 H5 H6. rewrite shield_decay_keeps by assumption.
    apply (booster_loop_keeps f H5 H6 H1 H2 H3 H4). }
  repeat split; apply K; intros; reflexivity.
Qed.

(** ** One alert per asteroid over the ship *)

Lemma firstn_snoc {A} (l : list A) (k : nat) (a : A) :
  nth_error l k = Some a -> firstn (S k) l = firstn k l ++ [a].
Proof.
  revert k. induction l as [|x l IH]; intros [|k] H; simpl in *; try discriminate.
  - injection H as ->. reflexivity.
  - rewrite (IH k H). reflexivity.
Qed.

(** Without the shield the loop raises the alert once for every asteroid
    it finds over the ship. *)
Lemma asteroid_loop_alerts k :
  forall s,
  shieldActive s = false ->
  (k <= List.length (asteroids s))%nat ->
  exists s',
    asteroid_loop k s = Ok tt s'
    /\ List.length (alerts s')
       = (List.length (alerts s)
          + List.length (filter (over_ship s) (firstn k (asteroids s))))%nat.
Proof.
  induction k as [|k IH]; intros s Off Hk.
  - exists s. split; [reflexivity|]. simpl. lia.
  - destruct (nth_error (asteroids s) k) as [a|] eqn:Ha;
      [|apply nth_error_None in Ha; lia].
    destruct (asteroid_iteration_result k s a Ha)
      as (s1 & _ & E & Hp1 & Hs1 & _ & Ha1 & Hf1 & Hl1).
    destruct (collided_frame a s1) as (Cp & Cs & Cas & _).
    destruct (IH (collided a s1)) as (s' & E' & Hlen); [congruence | rewrite Cas; exact Hl1 |].
    exists s'. split; [simpl; unfold bind; rewrite E; exact E'|].
    rewrite Hlen, Cas, Hf1.
    rewrite (filter_ext (over_ship (collided a s1)) (over_ship s))
      by (intro b; unfold over_ship; congruence).
    rewrite (firstn_snoc _ _ _ Ha), filter_app, length_app.
    cbn [filter]. unfold over_ship at 3.
    unfold collided. rewrite Hs1, Off, Hp1. cbn [negb andb].
    destruct (overlaps_player a (player s)); cbn [alerts set_alerts set_running List.length].
    + rewrite length_app, Ha1. simpl. lia.
    + rewrite Ha1. simpl. lia.
Qed.

Lemma resolve_alerts dt s :
  shieldActive s = false ->
  List.length (alerts (state_of (resolve dt s)))
  = (List.length (alerts s) + List.length (filter (over_ship s) (asteroids s)))%nat.
Proof.
  intro Off.
  destruct (resolve_result dt s) as (s1 & s2 & E1 & _ & E & _ & Ha & _).
  destruct (asteroid_loop_alerts (List.length (asteroids s)) s Off (le_n _))
    as (s1' & E1' & Hlen).
  assert (s1' = s1) by congruence. subst s1'.
  rewrite E. cbn [state_of]. rewrite Ha, Hlen, firstn_all. reflexivity.
Qed.

(** ** The shield *)

Section Shield.

Variable host : Host.

Lemma update_unfold dt s :
  update host dt s =
  match advance host dt s with
  | Ok _ mid => resolve dt mid
  | Throw e s' => Throw e s'
  end.
Proof. unfold update, bind. destruct (advance host dt s); reflexivity. Qed.

Lemma advance_frame dt s :
  shieldActive (state_of (advance host dt s)) = shieldActive s
  /\ running (state_of (advance host dt s)) = running s
  /\ alerts (state_of (advance host dt s)) = alerts s.
Proof.
  repeat split;
    (rewrite advance_after_move; [reflexivity | intros; reflexivity ..]).
Qed.

(** Under the shield the second half of a step raises no alert and leaves
    the running flag alone. *)
Lemma resolve_shielded dt s :
  shieldActive s = true ->
  running (state_of (resolve dt s)) = running s
  /\ alerts (state_of (resolve dt s)) = alerts s.
Proof.
  intro On.
  destruct (resolve_result dt s) as (s1 & s2 & E1 & _ & E & Hr & Ha & _).
  destruct (asteroid_loop_result (List.length (asteroids s)) s (le_n _))
    as (s1' & E1' & _ & _ & Hon & _).
  assert (s1' = s1) by congruence. subst s1'.
  destruct (Hon On) as [R A]. rewrite E. simpl. split; congruence.
Qed.

(** Without the shield an asteroid over the ship ends the run. *)
Lemma resolve_unshielded dt s a :
  shieldActive s = false ->
  In a (asteroids s) ->
  overlaps_player a (player s) = true ->
  exists s',
    resolve dt s = Ok tt s'
    /\ running s' = false
    /\ (List.length (alerts s) < List.length (alerts s'))%nat.
Proof.
  intros Off Hin Ho.
  destruct (resolve_result dt s) as (s1 & s2 & E1 & _ & E & Hr & Ha & _).
  destruct (asteroid_loop_result (List.length (asteroids s)) s (le_n _))
    as (s1' & E1' & _ & _ & _ & _ & _ & Hoff).
  assert (s1' = s1) by congruence. subst s1'.
  destruct (In_nth_error _ _ Hin) as (i & Hi).
  destruct (Hoff Off) as [R A].
  { exists i, a. split; [|split; assumption].
    apply nth_error_Some. congruence. }
  exists (shield_decay dt s2). split; [exact E|]. split; congruence.
Qed.

(** C6.  With the shield active at the start of a step, the step leaves
    the running flag as it was and raises no alert, whatever overlaps the
    ship.  With the shield inactive and a defined speed range, the first
    half of the step returns, and if one of the asteroids it leaves has its
    centre within its radius of the ship's centre on both axes, the step
    returns with the running flag false and an alert raised. *)
Theorem shield_decides_collision (dt : Q) (s : state) :
  (shieldActive s = true ->
   running (state_of (update host dt s)) = running s
   /\ alerts (state_of (update host dt s)) = alerts s)
  /\ (shieldActive s = false ->
      forall range, asteroidSpeed s = Some range ->
      exists mid,
        advance host dt s = Ok tt mid
        /\ forall a,
             In a (asteroids mid) ->
             overlaps_player a (player mid) = true ->
             exists s',
               update host dt s = Ok tt s'
               /\ running s' = false
               /\ (List.length (alerts s) < List.length (alerts s'))%nat).
Proof.
  destruct (advance_frame dt s) as (Fs & Fr & Fa).
  split.
  - intro On. rewrite update_unfold.
    destruct (advance host dt s) as [[] mid|e s'] eqn:E; simpl in Fs, Fr, Fa.
    + destruct (resolve_shielded dt mid) as [R A]; [congruence|].
      split; congruence.
    + simpl. split; assumption.
  - intros Off range Hr.
    pose proof (returns_state _ (advance_returns host dt s range Hr)) as E.
    rewrite E in Fs, Fr, Fa. simpl in Fs, Fr, Fa.
    exists (state_of (advance host dt s)). split; [exact E|].
    intros a Hin Ho.
    destruct (resolve_unshielded dt (state_of (advance host dt s)) a)
      as (s' & E' & R & A); [congruence | exact Hin | exact Ho |].
    exists s'. rewrite update_unfold. rewrite E at 1.
    split; [exact E'|]. split; [exact R|]. rewrite <- Fa. exact A.
Qed.

End Shield.

(** ** Hits *)

(** The scan of the bullets for the asteroid at index [i]: either no
    bullet hits and nothing changes, or exactly one bullet is spliced out
    and the asteroid takes one hit. *)
Lemma bullet_loop_one_hit i s a :
  nth_error (asteroids s) i = Some a ->
  exists s1,
    bullet_loop i a (List.length (bullets s)) s = Ok tt s1
    /\ firstn i (asteroids s1) = firstn i (asteroids s)
    /\ ((s1 = s /\ forall b, In b (bullets s) -> bullet_hits a b = false)
        \/ exists j b,
             nth_error (bullets s) j = Some b
             /\ bullet_hits a b = true
             /\ bullets s1 = splice j (bullets s)
             /\ S (List.length (bullets s1)) = List.length (bullets s)
             /\ match take_hit a with
                | Some a' =>
                    nth_error (asteroids s1) i = Some a'
                    /\ List.length (asteroids s1) = List.length (asteroids s)
                    /\ Asteroid.hp a' = (Asteroid.hp a - 1)%Z
                    /\ score s1 = score s
                | None =>
                    asteroids s1 = splice i (asteroids s)
                    /\ score s1 = (score s + 10)%Z
                end).
Proof.
  intro Ha.
  assert (Hi : (i < List.length (asteroids s))%nat)
    by (apply nth_error_Some; congruence).
  destruct (bullet_loop_result i a (List.length (bullets s)) s (le_n _))
    as [[E Hno]|(j & b & Hj & Hb & Hh & E)].
  - exists s. split; [exact E|]. split; [reflexivity|]. left. split; [reflexivity|].
    intros b Hin. destruct (In_nth_error _ _ Hin) as (j & Hj).
    apply (Hno j b); [|exact Hj]. apply nth_error_Some. congruence.
  - destruct (on_hit_result i j a s) as (s1 & E1 & Hbul & Hast).
    exists s1. split; [congruence|]. split.
    { destruct (Asteroid.hp a - 1 <=? 0)%Z; destruct Hast as [Hast _]; rewrite Hast;
        [apply splice_firstn | apply store_firstn]. }
    right. exists j, b.
    split; [exact Hb|]. split; [exact Hh|]. split; [exact Hbul|].
    split; [rewrite Hbul; apply splice_length; exact Hj|].
    unfold take_hit. change (Asteroid.hp (wounded a)) with (Asteroid.hp a - 1)%Z.
    destruct (Asteroid.hp a - 1 <=? 0)%Z; destruct Hast as [Hast Hsc].
    + split; assumption.
    + rewrite Hast. split; [apply store_nth; exact Hi|].
      split; [apply store_length|]. split; [reflexivity | exact Hsc].
Qed.

(** C2, as the script has it.  The iteration of the collision loop for an
    asteroid tests that asteroid against the ship after the scan of the
    bullets, whatever the scan did to it: the iteration returns, and the
    running flag is false after it when the shield is inactive and the
    asteroid's centre is within its radius of the ship's centre on both
    axes, and as it was otherwise.  An asteroid with one hit-point that a
    bullet hits is spliced out and scored in that iteration, and the test
    still applies to it. *)
Theorem ship_test_follows_hit (i : nat) (s : state) (a : Asteroid.t) :
  nth_error (asteroids s) i = Some a ->
  exists s',
    asteroid_iteration i s = Ok tt s'
    /\ running s'
       = (if negb (shieldActive s) && overlaps_player a (player s)
          then false else running s)
    /\ (forall b,
          In b (bullets s) ->
          bullet_hits a b = true ->
          (Asteroid.hp a <= 1)%Z ->
          asteroids s' = splice i (asteroids s)
          /\ score s' = (score s + 10)%Z).
Proof.
  intro Ha.
  destruct (asteroid_iteration_result i s a Ha)
    as (s1 & E1 & E & Hp & Hs & Hr & _).
  exists (collided a s1). split; [exact E|]. split.
  - unfold collided. rewrite Hp, Hs.
    destruct (negb (shieldActive s) && overlaps_player a (player s));
      [reflexivity | exact Hr].
  - intros b Hin Hit Hhp.
    destruct (collided_frame a s1) as (_ & _ & Cas & _ & Csc).
    destruct (bullet_loop_one_hit i s a Ha)
      as (s1' & E1' & _ & [[_ Hno]|(j & b' & _ & _ & _ & _ & Hdead)]).
    + rewrite (Hno b Hin) in Hit. discriminate Hit.
    + assert (s1' = s1) by congruence. subst s1'.
      unfold take_hit in Hdead.
      change (Asteroid.hp (wounded a)) with (Asteroid.hp a - 1)%Z in Hdead.
      destruct (Z.leb_spec (Asteroid.hp a - 1) 0) as [_|Hgt]; [|lia].
      rewrite Cas, Csc. exact Hdead.
Qed.

(** ** The first 1.6 seconds of an easy run *)



Section EasyRun.

Variable host : Host.
Hypothesis tall : 16 <= c_height host.


End EasyRun.

Section EasyStart.

Variable host : Host.
Hypothesis tall : 16 <= c_height host.
Hypothesis unit_interval : forall n, 0 <= random_src host n < 1.

(** A frame callback that finds the flag set runs [update]; what follows
    it in [loop] touches only the record of calls and the frame queue. *)
Lemma loop_running {X} (f : state -> X) now s :
  (forall v s, f (set_calls v s) = f s) ->
  (forall v s, f (set_rafQueue v s) = f s) ->
  running s = true ->
  f (state_of (loop host now s))
  = f (state_of (update host (Qmin 0.04 ((now - last s) / 1000))
                   (set_calls (calls s ++ [CallUpdate (Qmin 0.04 ((now - last s) / 1000))])
                      (set_last now s)))).
Proof.
  intros Hc Hq Hr. unfold loop, bind at 1, get. unfold bind at 1, modify at 1.
  rewrite Hr. unfold bind at 1, record_call at 1, modify at 1.
  unfold bind at 1. cbn [calls set_last].
  destruct (update host _ _) as [[] s1|e s1]; [|reflexivity].
  unfold bind at 1, record_call, modify. unfold bind at 1, draw.
  cbn [asteroids set_calls]. destruct (existsb _ _); cbn [state_of].
  - apply Hc.
  - unfold requestAnimationFrame_loop, bind, record_call, modify. cbn [state_of].
    rewrite Hq, Hc, Hc. reflexivity.
Qed.




End EasyStart.





(** The simulated time counts from the start of the run.  When the steps
    after [initGame] alone make up 1.6 seconds, the first step comes on
    top of them: the timer is back at zero in the last step and a second
    asteroid is spawned. *)
Remark easy_run_second_spawn :
  List.length (asteroids (steps demo_host [0.8; 0.8]
                            (state_of (initGame demo_host "easy" (loaded demo_host)))))
  = 2%nat.
Proof. vm_compute. reflexivity. Qed.

(** ** Runs of the page *)

Section Stopped.

Variable host : Host.

Lemma loop_stopped now s :
  running s = false -> loop host now s = Ok tt (set_last now s).
Proof.
  intro H. unfold loop, bind, get, modify. rewrite H. reflexivity.
Qed.

(** Callbacks that find the flag cleared neither simulate, draw nor queue. *)
Lemma run_callbacks_stopped n timestamp s :
  running s = false ->
  running (run_callbacks host n timestamp s) = false
  /\ calls (run_callbacks host n timestamp s) = calls s
  /\ rafQueue (run_callbacks host n timestamp s) = rafQueue s
  /\ alerts (run_callbacks host n timestamp s) = alerts s.
Proof.
  revert s. induction n as [|n IH]; intros s H; simpl; [repeat split; exact H|].
  rewrite (loop_stopped timestamp s H). cbn [state_of].
  destruct (IH (set_last timestamp s) H) as (R & C & Q & A).
  repeat split; assumption.
Qed.

(** After a stop the queued frame is the last: it finds the flag cleared,
    makes no call, raises no alert and leaves the queue empty. *)
Lemma frame_after_stop timestamp s :
  running s = false ->
  running (step host s (animation_frame timestamp)) = false
  /\ calls (step host s (animation_frame timestamp)) = calls s
  /\ rafQueue (step host s (animation_frame timestamp)) = O
  /\ alerts (step host s (animation_frame timestamp)) = alerts s.
Proof.
  intro H. unfold step, listener, modify. cbn [state_of].
  destruct (run_callbacks_stopped (rafQueue s) timestamp (set_rafQueue O s) H)
    as (R & C & Q & A).
  repeat split; assumption.
Qed.

Lemma loop_when_running now s :
  running s = true ->
  loop host now s
  = (record_call (CallUpdate (Qmin 0.04 ((now - last s) / 1000))) ;;
     update host (Qmin 0.04 ((now - last s) / 1000)) ;;
     record_call CallDraw ;;
     draw ;;
     requestAnimationFrame_loop) (set_last now s).
Proof.
  intro H. unfold loop, bind at 1, get. unfold bind at 1, modify at 1.
  rewrite H. reflexivity.
Qed.

(** A callback that finds the flag set, and returns, queues itself again. *)
Lemma loop_queues now s :
  running s = true ->
  returns (loop host now s) = true ->
  rafQueue (state_of (loop host now s)) = S (rafQueue s).
Proof.
  intros Hr R. rewrite (loop_when_running now s Hr) in R |- *.
  rewrite bind_returns in R |- * by reflexivity.
  pose proof (bind_returns_inv _ _ _ R) as Ru.
  rewrite bind_returns in R |- * by exact Ru.
  rewrite bind_returns in R |- * by reflexivity.
  pose proof (bind_returns_inv _ _ _ R) as Rd.
  rewrite bind_returns by exact Rd.
  unfold requestAnimationFrame_loop, bind, record_call at 1, modify at 1 2.
  cbn [state_of rafQueue set_rafQueue set_calls]. f_equal.
  rewrite (draw_keeps rafQueue). cbn [record_call modify state_of rafQueue set_calls].
  rewrite update_keeps by (intros; reflexivity). reflexivity.
Qed.

(** [initGame] cancels nothing: when it returns, the frame queue holds one
    callback more than before.  So does a click on Restart, which leaves
    two callbacks where a run had one. *)
Lemma initGame_queues diff s :
  returns (initGame host diff s) = true ->
  rafQueue (state_of (initGame host diff s)) = S (rafQueue s).
Proof.
  assert (E : difficulty diff = Undefined
              \/ exists s0,
                   initGame host diff s = loop host (now_src host (nowCalls s)) s0
                   /\ running s0 = true
                   /\ rafQueue s0 = rafQueue s).
  { destruct (difficulty diff) as [set| |] eqn:D; [right | right | left; reflexivity];
      (eexists; split;
       [ unfold initGame, bind, modify, performance_now; rewrite D;
         cbv beta iota; reflexivity
       | split; reflexivity ]). }
  destruct E as [D|(s0 & E & Hr & Hq)].
  - destruct (initGame_undefined host diff s D) as (s' & E & _).
    rewrite E. discriminate.
  - rewrite E. intro R. rewrite (loop_queues _ _ Hr R). f_equal. exact Hq.
Qed.

Lemma restart_queues diff s :
  returns (listener host (click_restartBtn diff) s) = true ->
  rafQueue (step host s (click_restartBtn diff)) = S (rafQueue s).
Proof.
  unfold step, listener, bind, modify. intro R.
  rewrite initGame_queues; [reflexivity | exact R].
Qed.

End Stopped.

(** C1, at an input the page can receive.  On [crossing_host], after
    [crossing_approach] the run is on, no alert was raised, the ship is at
    [x = 176.4] with the right arrow down, and two asteroids hang level
    with it to its right.  The next frame runs one simulation step, in
    which the ship moves under both at once: the step raises the alert
    twice. *)
Lemma two_asteroids_two_alerts :
  running (play crossing_host crossing_approach) = true
  /\ shieldActive (play crossing_host crossing_approach) = false
  /\ alerts (play crossing_host crossing_approach) = []
  /\ pressed_right (play crossing_host crossing_approach) = true
  /\ Qred (Player.x (player (play crossing_host crossing_approach))) = 882 # 5
  /\ map sighting (asteroids (play crossing_host crossing_approach))
     = [ (230, 592 # 5, 30, 3%Z); (240, 2481 # 25, 40, 4%Z); (150, -2, 30, 3%Z) ]
  /\ updates (calls (step crossing_host (play crossing_host crossing_approach)
                       (animation_frame 8960)))
     = S (updates (calls (play crossing_host crossing_approach)))
  /\ running (step crossing_host (play crossing_host crossing_approach)
                (animation_frame 8960)) = false
  /\ alerts (step crossing_host (play crossing_host crossing_approach)
               (animation_frame 8960)) = [0; 0]%Z.
Proof. vm_compute. repeat split. Qed.

(** C2, at an input the page can receive.  On [duel_host], after
    [duel_approach] the asteroid above the ship, at [(168, 113.6)] with
    radius 20, has one hit-point left, the fire key is down and the run is
    on.  In the next step the bullet fired from [(168, 120)] destroys it
    and the score goes to 10, and the same iteration of the loop finds it
    over the ship, whose centre is [(168, 134)], and ends the run. *)
Lemma shot_asteroid_still_ends_run :
  running (play duel_host duel_approach) = true
  /\ shieldActive (play duel_host duel_approach) = false
  /\ pressed_fire (play duel_host duel_approach) = true
  /\ bullets (play duel_host duel_approach) = []
  /\ Qred (Player.x (player (play duel_host duel_approach))) = 150
  /\ map sighting (asteroids (play duel_host duel_approach))
     = [ (168, 568 # 5, 20, 1%Z); (150, 72, 30, 3%Z); (150, -8, 30, 3%Z) ]
  /\ score (play duel_host duel_approach) = 0%Z
  /\ map sighting (asteroids (step duel_host (play duel_host duel_approach)
                                 (animation_frame 8840)))
     = [ (150, 74, 30, 3%Z); (150, -6, 30, 3%Z) ]
  /\ score (step duel_host (play duel_host duel_approach)
              (animation_frame 8840)) = 10%Z
  /\ running (step duel_host (play duel_host duel_approach)
                (animation_frame 8840)) = false
  /\ alerts (step duel_host (play duel_host duel_approach)
               (animation_frame 8840)) = [10%Z].
Proof. vm_compute. repeat split. Qed.

(** The frame of the loss still draws and queues one callback, which the
    next frame finds stopped. *)
Remark loss_frame_still_draws :
  calls (step crossing_host (play crossing_host crossing_approach)
           (animation_frame 8960))
  = calls (play crossing_host crossing_approach)
    ++ [ CallUpdate 0.04; CallDraw; CallRequestAnimationFrame ]
  /\ rafQueue (step crossing_host (play crossing_host crossing_approach)
                 (animation_frame 8960)) = 1%nat.
Proof. vm_compute. split; reflexivity. Qed.

(** C8, at an input the page can receive.  A click on Restart during a run
    leaves the callback of the old run in the queue beside the new one:
    the next frame runs two simulation steps and queues two callbacks
    again. *)
Lemma restart_doubles_frame_chain :
  rafQueue (play restart_host [ click_startBtn "easy"; animation_frame 5040;
                                animation_frame 5080 ]) = 1%nat
  /\ rafQueue (play restart_host restart_clicks) = 2%nat
  /\ updates (calls (step restart_host (play restart_host restart_clicks)
                       (animation_frame 5120)))
     = (2 + updates (calls (play restart_host restart_clicks)))%nat
  /\ rafQueue (step restart_host (play restart_host restart_clicks)
                 (animation_frame 5120)) = 2%nat.
Proof. vm_compute. repeat split. Qed.

(** ** Instances *)

(** C4 at an easy run on [demo_host] with the left arrow held. *)
Lemma update_clamps_ship_x_witness :
  10 <= Player.x (player (state_of (update demo_host 0.04
          (play demo_host [ click_startBtn "easy"; keydown "ArrowLeft" ]))))
     <= c_width demo_host - 10
        - Player.w (player (state_of (update demo_host 0.04
            (play demo_host [ click_startBtn "easy"; keydown "ArrowLeft" ])))).
Proof.
  apply update_clamps_ship_x. vm_compute. discriminate.
Defined.

(** C7 at an easy run: three pickups take 250 ms to 80 ms. *)
Lemma fireRate_booster_saturates_witness :
  exists f,
    fireRate (Nat.iter 3 pick_fireRate (play demo_host [ click_startBtn "easy" ])) = Some f
    /\ f == Qmax 80 (250 - 80 * inject_Z (Z.of_nat 3))
    /\ 80 <= f.
Proof.
  apply fireRate_booster_saturates.
  - reflexivity.
  - vm_compute. discriminate.
Defined.

(** C6 at the step in which the ship of [crossing_approach] moves under
    the two asteroids, its shield inactive. *)
Lemma shield_decides_collision_witness :
  exists s',
    update crossing_host 0.04 (play crossing_host crossing_approach) = Ok tt s'
    /\ running s' = false
    /\ (List.length (alerts (play crossing_host crossing_approach))
        < List.length (alerts s'))%nat.
Proof.
  assert (Off : shieldActive (play crossing_host crossing_approach) = false)
    by (vm_compute; reflexivity).
  assert (Range : asteroidSpeed (play crossing_host crossing_approach) = Some (40, 60))
    by (vm_compute; reflexivity).
  destruct (proj2 (shield_decides_collision crossing_host 0.04
                     (play crossing_host crossing_approach)) Off (40, 60) Range)
    as (mid & E & H).
  vm_compute in E. injection E as <-.
  eapply H; [left; reflexivity | vm_compute; reflexivity].
Defined.

(** C2 at the iteration for the asteroid of [duel_approach], after the
    first half of the step in which the second bullet reaches it. *)
Lemma ship_test_follows_hit_witness :
  exists s',
    asteroid_iteration 0
      (state_of (advance duel_host 0.04 (play duel_host duel_approach))) = Ok tt s'
    /\ running s' = false
    /\ map sighting (asteroids s') = [ (150, 74, 30, 3%Z); (150, -6, 30, 3%Z) ]
    /\ score s' = 10%Z.
Proof.
  destruct (ship_test_follows_hit 0
              (state_of (advance duel_host 0.04 (play duel_host duel_approach)))
              (nth 0 (asteroids (state_of (advance duel_host 0.04
                                   (play duel_host duel_approach)))) boulder))
    as (s' & E & R & H).
  - vm_compute. reflexivity.
  - exists s'. split; [exact E|]. split; [rewrite R; vm_compute; reflexivity|].
    destruct (H (nth 0 (bullets (state_of (advance duel_host 0.04
                                   (play duel_host duel_approach))))
                   {| Bullet.x := 0; Bullet.y := 0; Bullet.vy := 0 |}))
      as [Has Hsc].
    + vm_compute. left. reflexivity.
    + vm_compute. reflexivity.
    + vm_compute. discriminate.
    + rewrite Has, Hsc. vm_compute. split; reflexivity.
Defined.

(** * More of the script *)

(** ** What [initGame] hands to [loop] *)

Lemma initGame_own host diff set s :
  difficulty diff = Own set ->
  initGame host diff s
  = loop host (now_src host (nowCalls s))
      (prepared host (Some (Difficulty.fireRate set)) (Some (Difficulty.spawnRate set))
         (Some (Difficulty.asteroidSpeed set)) s).
Proof.
  intro D. unfold initGame, bind, modify, performance_now. rewrite D.
  destruct s. reflexivity.
Qed.

Lemma initGame_inherited host diff s :
  difficulty diff = Inherited ->
  initGame host diff s
  = loop host (now_src host (nowCalls s)) (prepared host None None None s).
Proof.
  intro D. unfold initGame, bind, modify, performance_now. rewrite D.
  destruct s. reflexivity.
Qed.

Lemma initGame_cases host diff s :
  (exists s', initGame host diff s = Throw TypeError s' /\ calls s' = calls s
              /\ score s' = 0%Z)
  \/ exists fr sr range,
       initGame host diff s
       = loop host (now_src host (nowCalls s)) (prepared host fr sr range s).
Proof.
  destruct (difficulty diff) as [set| |] eqn:D.
  - right. eexists _, _, _. apply (initGame_own host diff set s D).
  - right. eexists _, _, _. apply (initGame_inherited host diff s D).
  - left. destruct (initGame_undefined host diff s D) as (s' & E & _).
    exists s'. split; [exact E|].
    revert E. unfold initGame, bind, modify, throw. rewrite D.
    intro E. injection E as <-. split; reflexivity.
Qed.

(** ** The clamp of [dt] *)

Section Clamp.

Variable host : Host.

Lemma loop_calls now s :
  exists suffix,
    calls (state_of (loop host now s)) = calls s ++ suffix
    /\ Forall clamped suffix.
Proof.
  destruct (running s) eqn:Hr.
  - rewrite (loop_when_running host now s Hr).
    set (dt := Qmin 0.04 ((now - last s) / 1000)).
    assert (Hdt : clamped (CallUpdate dt)) by apply Q.le_min_l.
    assert (K : forall st, calls (state_of (update host dt st)) = calls st)
      by (intro st; apply update_keeps; intros; reflexivity).
    unfold bind at 1, record_call at 1, modify at 1. unfold bind at 1.
    specialize (K (set_calls (calls (set_last now s) ++ [CallUpdate dt])
                     (set_last now s))).
    destruct (update host dt _) as [[] s1|e s1]; cbn [state_of] in K.
    + unfold bind at 1, record_call at 1, modify at 1. unfold bind at 1, draw.
      cbn [asteroids set_calls]. destruct (existsb _ _); cbn [state_of].
      * exists [CallUpdate dt; CallDraw]. cbn [calls set_calls]. rewrite K.
        cbn [calls set_calls set_last]. rewrite <- app_assoc.
        split; [reflexivity|]. repeat constructor. exact Hdt.
      * exists [CallUpdate dt; CallDraw; CallRequestAnimationFrame].
        unfold requestAnimationFrame_loop, bind, record_call, modify.
        cbn [state_of calls set_calls set_rafQueue]. rewrite K.
        cbn [calls set_calls set_last]. rewrite <- !app_assoc.
        split; [reflexivity|]. repeat constructor. exact Hdt.
    + exists [CallUpdate dt]. cbn [state_of]. rewrite K. cbn [calls set_calls set_last].
      split; [reflexivity|]. repeat constructor. exact Hdt.
  - rewrite (loop_stopped host now s Hr). exists []. cbn [state_of calls set_last].
    rewrite app_nil_r. split; [reflexivity | constructor].
Qed.

Lemma run_callbacks_calls n timestamp :
  forall s,
  Forall clamped (calls s) ->
  Forall clamped (calls (run_callbacks host n timestamp s)).
Proof.
  induction n as [|n IH]; intros s H; simpl; [exact H|].
  apply IH. destruct (loop_calls timestamp s) as (suffix & E & Hs).
  rewrite E. apply Forall_app. split; assumption.
Qed.

Lemma step_calls s e :
  Forall clamped (calls s) -> Forall clamped (calls (step host s e)).
Proof.
  intro H. unfold step. destruct e; cbn [listener].
  - exact H.
  - exact H.
  - destruct b; exact H.
  - destruct b; exact H.
  - unfold bind at 1, modify at 1. unfold bind at 1, modify at 1.
    destruct (initGame_cases host diffSelect_value
                (set_gameHidden false (set_homeHidden true s)))
      as [(s' & E & Hc & _)|(fr & sr & range & E)]; rewrite E.
    + cbn [state_of]. rewrite Hc. exact H.
    + destruct (loop_calls (now_src host (nowCalls (set_gameHidden false
                                                      (set_homeHidden true s))))
                  (prepared host fr sr range
                     (set_gameHidden false (set_homeHidden true s))))
        as (suffix & Ec & Hs).
      rewrite Ec. apply Forall_app. split; [exact H | exact Hs].
  - exact H.
  - unfold bind at 1, modify at 1.
    destruct (initGame_cases host diffSelect_value (set_running false s))
      as [(s' & E & Hc & _)|(fr & sr & range & E)]; rewrite E.
    + cbn [state_of]. rewrite Hc. exact H.
    + destruct (loop_calls (now_src host (nowCalls (set_running false s)))
                  (prepared host fr sr range (set_running false s)))
        as (suffix & Ec & Hs).
      rewrite Ec. apply Forall_app. split; [exact H | exact Hs].
  - unfold modify. cbn [state_of]. apply run_callbacks_calls. exact H.
Qed.

(** X1.  Whatever the events and the clock, every call of [update] that
    [loop] has made since the page was loaded got a [dt] of at most
    0.04 s. *)
Theorem every_update_is_clamped (es : list event) :
  Forall clamped (calls (play host es)).
Proof.
  unfold play, run. generalize (Forall_nil clamped : Forall clamped (calls (loaded host))).
  generalize (loaded host). induction es as [|e es IH]; intros s H; simpl.
  - exact H.
  - apply IH. apply step_calls. exact H.
Qed.

End Clamp.

(** ** Home *)

Section Home.

Variable host : Host.

Lemma run_callbacks_frozen n timestamp :
  forall s,
  running s = false ->
  game_of (run_callbacks host n timestamp s) = game_of s.
Proof.
  induction n as [|n IH]; intros s H; simpl; [reflexivity|].
  rewrite (loop_stopped host timestamp s H). cbn [state_of].
  rewrite IH by exact H. reflexivity.
Qed.

Lemma step_frozen s e :
  running s = false ->
  starts_a_run e = false ->
  game_of (step host s e) = game_of s.
Proof.
  intros H He. unfold step.
  destruct e; try discriminate He; cbn [listener modify state_of].
  - reflexivity.
  - reflexivity.
  - destruct b; reflexivity.
  - destruct b; reflexivity.
  - unfold bind, modify. cbn [state_of]. unfold game_of. cbn. rewrite H. reflexivity.
  - rewrite run_callbacks_frozen by exact H. reflexivity.
Qed.

Lemma run_frozen es :
  forall s,
  running s = false ->
  no_start es = true ->
  game_of (run host s es) = game_of s.
Proof.
  induction es as [|e es IH]; intros s H Hes; [reflexivity|].
  cbn [no_start forallb] in Hes. apply andb_true_iff in Hes. destruct Hes as [He Hes].
  apply negb_true_iff in He.
  change (run host s (e :: es)) with (run host (step host s e) es).
  pose proof (step_frozen s e H He) as F.
  rewrite IH; [exact F | | exact Hes].
  unfold game_of in F. injection F as _ _ _ _ _ R _ _. rewrite R. exact H.
Qed.

(** X2.  Once the running flag is cleared, by a loss or by a click on
    Home, no frame, key or touch changes the game until Start or Restart is
    clicked: the ship, the bullets, asteroids and boosters, the score, the
    alerts shown and the calls of [update] and [draw] stay as they were. *)
Theorem stopped_game_is_frozen (s : state) (es : list event) :
  no_start es = true ->
  (running s = false -> game_of (run host s es) = game_of s)
  /\ game_of (run host (step host s click_homeBtn) es) = game_of (set_running false s).
Proof.
  intro Hes. split.
  - intro H. apply run_frozen; assumption.
  - rewrite run_frozen; [reflexivity | reflexivity | exact Hes].
Qed.

End Home.

(** X2 during an easy run on [demo_host]: three frames and a key press
    after the click on Home. *)
Lemma stopped_game_is_frozen_witness :
  game_of (run demo_host
             (step demo_host (play demo_host [ click_startBtn "easy" ]) click_homeBtn)
             [ animation_frame 1040; keydown " "; animation_frame 1080;
               animation_frame 1120 ])
  = game_of (set_running false (play demo_host [ click_startBtn "easy" ])).
Proof.
  apply (stopped_game_is_frozen demo_host). reflexivity.
Defined.

(** ** Invariants of the two loops *)

Section LoopInvariants.

Variable I : state -> Prop.

Lemma asteroid_loop_inv :
  (forall i j a s, nth_error (asteroids s) i = Some a -> I s ->
                   I (state_of (on_hit i j a s))) ->
  (forall a s, I s -> I (collided a s)) ->
  forall k s,
  (k <= List.length (asteroids s))%nat ->
  I s -> I (state_of (asteroid_loop k s)).
Proof.
  intros Hhit Hcol. induction k as [|k IH]; intros s Hk Hs; [exact Hs|].
  destruct (nth_error (asteroids s) k) as [a|] eqn:Ha;
    [|apply nth_error_None in Ha; lia].
  destruct (asteroid_iteration_result k s a Ha)
    as (s1 & E1 & E & _ & _ & _ & _ & _ & Hl).
  assert (Hs1 : I s1).
  { destruct (bullet_loop_result k a (List.length (bullets s)) s (le_n _))
      as [[E0 _]|(j & b & _ & _ & _ & E0)].
    - assert (s1 = s) by congruence. subst s1. exact Hs.
    - rewrite E0 in E1. pose proof (Hhit k j a s Ha Hs) as H. rewrite E1 in H.
      exact H. }
  simpl. unfold bind. rewrite E. apply IH.
  - destruct (collided_frame a s1) as (_ & _ & Cas & _). rewrite Cas. exact Hl.
  - apply Hcol. exact Hs1.
Qed.

Lemma booster_loop_inv :
  (forall type s, I s -> I (state_of (applyBooster type s))) ->
  (forall i s, I s -> I (set_boosters (splice i (boosters s)) s)) ->
  forall k s, I s -> I (state_of (booster_loop k s)).
Proof.
  intros Happ Hspl. induction k as [|k IH]; intros s Hs; [exact Hs|].
  simpl. unfold bind at 1, get.
  destruct (nth_error (boosters s) k) as [b|]; [|exact Hs].
  destruct (picked_up b (player s)).
  - unfold bind at 1. unfold bind at 1.
    pose proof (applyBooster_returns (Booster.type b) s) as R.
    pose proof (Happ (Booster.type b) s Hs) as H.
    destruct (applyBooster (Booster.type b) s) as [[] s1|]; [|discriminate R].
    unfold modify. apply IH. apply Hspl. exact H.
  - unfold bind, ret. apply IH. exact Hs.
Qed.

Lemma resolve_inv :
  (forall i j a s, nth_error (asteroids s) i = Some a -> I s ->
                   I (state_of (on_hit i j a s))) ->
  (forall a s, I s -> I (collided a s)) ->
  (forall type s, I s -> I (state_of (applyBooster type s))) ->
  (forall i s, I s -> I (set_boosters (splice i (boosters s)) s)) ->
  (forall dt s, I s -> I (shield_decay dt s)) ->
  forall dt s, I s -> I (state_of (resolve dt s)).
Proof.
  intros Hhit Hcol Happ Hspl Hdec dt s Hs.
  destruct (resolve_result dt s) as (s1 & s2 & E1 & E2 & E & _).
  rewrite E. cbn [state_of]. apply Hdec.
  pose proof (booster_loop_inv Happ Hspl (List.length (boosters s1)) s1) as H2.
  rewrite E2 in H2. apply H2.
  pose proof (asteroid_loop_inv Hhit Hcol (List.length (asteroids s)) s (le_n _) Hs) as H1.
  rewrite E1 in H1. exact H1.
Qed.

End LoopInvariants.

(** ** The score *)

Section Score.

Variable host : Host.

Lemma resolve_score c dt s :
  (c <= score s)%Z -> (c <= score (state_of (resolve dt s)))%Z.
Proof.
  apply (resolve_inv (fun s => (c <= score s)%Z)).
  - intros i j a s0 _ H. destruct (on_hit_result i j a s0) as (s' & E & _ & Hc).
    rewrite E. cbn [state_of].
    destruct (Asteroid.hp a - 1 <=? 0)%Z; destruct Hc as [_ Hc]; rewrite Hc; lia.
  - intros a s0 H. destruct (collided_frame a s0) as (_ & _ & _ & _ & Hc).
    rewrite Hc. exact H.
  - intros type s0 H. unfold applyBooster, bind, modify, show_score, ret.
    destruct (is_type type "fireRate"), (is_type type "shield"),
      (is_type type "score"); cbn; lia.
  - intros i s0 H. exact H.
  - intros dt0 s0 H. rewrite shield_decay_keeps by (intros; reflexivity). exact H.
Qed.

Lemma update_score dt s : (score s <= score (state_of (update host dt s)))%Z.
Proof.
  pose proof (advance_after_move host score) as K.
  specialize (K (fun _ _ => eq_refl) (fun _ _ => eq_refl) (fun _ _ => eq_refl)
                (fun _ _ => eq_refl) (fun _ _ => eq_refl) (fun _ _ => eq_refl)
                (fun _ _ => eq_refl) dt s).
  change (score (move_player host dt s)) with (score s) in K.
  rewrite update_unfold.
  destruct (advance host dt s) as [[] mid|e s']; cbn [state_of] in K |- *.
  - apply resolve_score. lia.
  - lia.
Qed.

Lemma loop_score now s : (score s <= score (state_of (loop host now s)))%Z.
Proof.
  destruct (running s) eqn:Hr.
  - rewrite (loop_running host score) by (reflexivity || exact Hr).
    eapply Z.le_trans; [|apply update_score]. cbn. lia.
  - rewrite (loop_stopped host now s Hr). cbn. lia.
Qed.

Lemma run_callbacks_score n timestamp :
  forall s, (score s <= score (run_callbacks host n timestamp s))%Z.
Proof.
  induction n as [|n IH]; intro s; simpl; [lia|].
  eapply Z.le_trans; [apply (loop_score timestamp s) | apply IH].
Qed.

Lemma step_score s e :
  starts_a_run e = false -> (score s <= score (step host s e))%Z.
Proof.
  intro He. unfold step. destruct e; try discriminate He; cbn [listener modify state_of].
  - cbn. lia.
  - cbn. lia.
  - destruct b; cbn; lia.
  - destruct b; cbn; lia.
  - unfold bind, modify. cbn. lia.
  - eapply Z.le_trans; [|apply run_callbacks_score]. cbn. lia.
Qed.

Lemma step_score_nonneg s e : (0 <= score s)%Z -> (0 <= score (step host s e))%Z.
Proof.
  intro H. destruct (starts_a_run e) eqn:He.
  - unfold step. destruct e; try discriminate He; cbn [listener].
    + unfold bind at 1, modify at 1. unfold bind at 1, modify at 1.
      destruct (initGame_cases host diffSelect_value
                  (set_gameHidden false (set_homeHidden true s)))
        as [(s' & E & _ & Hc)|(fr & sr & range & E)]; rewrite E.
      * cbn [state_of]. lia.
      * eapply Z.le_trans; [|apply loop_score]. cbn. lia.
    + unfold bind at 1, modify at 1.
      destruct (initGame_cases host diffSelect_value (set_running false s))
        as [(s' & E & _ & Hc)|(fr & sr & range & E)]; rewrite E.
      * cbn [state_of]. lia.
      * eapply Z.le_trans; [|apply loop_score]. cbn. lia.
  - pose proof (step_score s e He). lia.
Qed.

(** X3.  The score never drops: not in a simulation step, returned or
    thrown, and not at any event other than a click on Start or Restart,
    which set it to zero; so from page load on it is never negative. *)
Theorem score_never_drops :
  (forall dt s, (score s <= score (state_of (update host dt s)))%Z)
  /\ (forall s e, starts_a_run e = false -> (score s <= score (step host s e))%Z)
  /\ (forall es, (0 <= score (play host es))%Z).
Proof.
  split; [exact update_score|]. split; [exact step_score|].
  intro es. unfold play, run.
  assert (H : (0 <= score (loaded host))%Z) by (cbn; lia).
  revert H. generalize (loaded host).
  induction es as [|e es IH]; intros s H; simpl; [exact H|].
  apply IH. apply step_score_nonneg. exact H.
Qed.

End Score.

(** ** What the collision stage keeps of the arrays *)

Lemma Forall_cut {A} (P : A -> Prop) (i : nat) (l : list A) :
  Forall P l -> Forall P (firstn i l) /\ Forall P (skipn i l).
Proof.
  intro H. apply Forall_app. rewrite firstn_skipn. exact H.
Qed.

Lemma Forall_splice {A} (P : A -> Prop) (i : nat) (l : list A) :
  Forall P l -> Forall P (splice i l).
Proof.
  intro H. unfold splice. apply Forall_app. split.
  - apply (Forall_cut P i l H).
  - apply (Forall_cut P (S i) l H).
Qed.

Lemma Forall_store {A} (P : A -> Prop) (i : nat) (v : A) (l : list A) :
  Forall P l -> P v -> Forall P (store i v l).
Proof.
  intros H Hv. unfold store. destruct (nth_error l i); [|exact H].
  apply Forall_app. split; [apply (Forall_cut P i l H)|].
  constructor; [exact Hv | apply (Forall_cut P (S i) l H)].
Qed.

Lemma collided_boosters a s : boosters (collided a s) = boosters s.
Proof. unfold collided. destruct (_ && _); reflexivity. Qed.

Section Arrays3.

Variable P : Bullet.t -> Prop.
Variable Q : Asteroid.t -> Prop.
Variable R : Booster.t -> Prop.
Hypothesis Q_wounded :
  forall a, Q a -> (0 < Asteroid.hp a - 1)%Z -> Q (wounded a).

(** The collision stage only removes bullets, asteroids and boosters, and
    writes an asteroid back only with its hit-points lowered and still
    positive. *)
Lemma resolve_forall dt s :
  Forall P (bullets s) -> Forall Q (asteroids s) -> Forall R (boosters s) ->
  Forall P (bullets (state_of (resolve dt s)))
  /\ Forall Q (asteroids (state_of (resolve dt s)))
  /\ Forall R (boosters (state_of (resolve dt s))).
Proof.
  intros HP HQ HR.
  apply (resolve_inv (fun s => Forall P (bullets s) /\ Forall Q (asteroids s)
                               /\ Forall R (boosters s))); [ | | | | | tauto].
  - intros i j a s0 Ha (H1 & H2 & H3).
    destruct (on_hit_result i j a s0) as (s' & E & Hb & Hc).
    pose proof (on_hit_keeps boosters (fun _ _ => eq_refl) (fun _ _ => eq_refl)
                  (fun _ _ => eq_refl) (fun _ _ => eq_refl) i j a s0) as Kb.
    rewrite E in Kb |- *. cbn [state_of] in Kb |- *.
    rewrite Hb, Kb. split; [apply Forall_splice; exact H1|]. split; [|exact H3].
    destruct (Z.leb_spec (Asteroid.hp a - 1) 0) as [_|Hpos];
      destruct Hc as [Hc _]; rewrite Hc.
    + apply Forall_splice. exact H2.
    + apply Forall_store; [exact H2|]. apply Q_wounded; [|exact Hpos].
      rewrite Forall_forall in H2. apply H2. apply (nth_error_In _ _ Ha).
  - intros a s0 (H1 & H2 & H3).
    destruct (collided_frame a s0) as (_ & _ & Ca & Cb & _).
    rewrite Ca, Cb, collided_boosters. tauto.
  - intros type s0 (H1 & H2 & H3).
    rewrite (applyBooster_keeps bullets), (applyBooster_keeps asteroids),
      (applyBooster_keeps boosters) by (intros; reflexivity).
    tauto.
  - intros i s0 (H1 & H2 & H3). cbn [bullets asteroids boosters set_boosters].
    split; [exact H1|]. split; [exact H2|]. apply Forall_splice. exact H3.
  - intros dt0 s0 (H1 & H2 & H3).
    rewrite !shield_decay_keeps by (intros; reflexivity). tauto.
Qed.

End Arrays3.

(** ** What the spawner builds *)

Section SpawnShapes.

Variable host : Host.
Hypothesis unit_interval : forall n, 0 <= random_src host n < 1.

Lemma floor_of_four (u : Q) : 0 <= u < 1 -> (0 <= Qfloor (u * 4) <= 3)%Z.
Proof.
  intros [U0 U1]. split.
  - change 0%Z with (Qfloor 0). apply Qfloor_resp_le. lra.
  - assert (H : inject_Z (Qfloor (u * 4)) < inject_Z 4).
    { eapply Qle_lt_trans; [apply Qfloor_le|]. change (inject_Z 4) with 4. lra. }
    rewrite <- Zlt_Qlt in H. lia.
Qed.

Lemma floor_of_three (u : Q) : 0 <= u < 1 -> (0 <= Qfloor (u * 3) <= 2)%Z.
Proof.
  intros [U0 U1]. split.
  - change 0%Z with (Qfloor 0). apply Qfloor_resp_le. lra.
  - assert (H : inject_Z (Qfloor (u * 3)) < inject_Z 3).
    { eapply Qle_lt_trans; [apply Qfloor_le|]. change (inject_Z 3) with 3. lra. }
    rewrite <- Zlt_Qlt in H. lia.
Qed.

Lemma points_loop_shape radius sides n :
  forall i points s,
  exists points',
    points_loop host radius sides n i points s
    = Ok (points ++ points') (set_randomCalls (n + randomCalls s) s)
    /\ List.length points' = n
    /\ Forall (fun p => exists u, 0 <= u < 1 /\ Point.r p = radius * (0.7 + u * 0.6))
         points'.
Proof.
  induction n as [|n IH]; intros i points s; simpl.
  - exists []. rewrite app_nil_r. unfold ret. split; [|split; [reflexivity | constructor]].
    destruct s; reflexivity.
  - unfold bind, Math_random.
    destruct (IH (i + 1)%Z
                (points ++ [ {| Point.turn := inject_Z i / inject_Z sides;
                                Point.r := radius * (0.7 + random_src host (randomCalls s) * 0.6) |} ])
                (set_randomCalls (S (randomCalls s)) s)) as (points' & E & Hl & Hf).
    eexists (_ :: points'). rewrite E. split; [|split].
    + rewrite <- app_assoc. cbn [app]. f_equal.
      unfold set_randomCalls. simpl. f_equal. lia.
    + simpl. rewrite Hl. reflexivity.
    + constructor; [|exact Hf]. eexists. split; [apply unit_interval | reflexivity].
Qed.

Lemma spawnAsteroid_shape s range :
  asteroidSpeed s = Some range ->
  exists a c,
    spawnAsteroid host s
    = Ok tt (set_asteroids (asteroids s ++ [a]) (set_randomCalls c s))
    /\ spawned host range a.
Proof.
  intro H. unfold spawnAsteroid, bind at 1. unfold Math_random at 1.
  unfold bind at 1. unfold Math_random at 1.
  unfold bind at 1.
  match goal with
  | |- context [points_loop host ?r ?sd ?n ?i ?p ?st] =>
      destruct (points_loop_shape r sd n i p st) as (points & E & Hl & Hf); rewrite E
  end.
  unfold bind, Math_random, read_asteroidSpeed, modify. simpl. rewrite H.
  eexists _, _. split; [reflexivity|].
  unfold spawned. cbn [Asteroid.y Asteroid.x Asteroid.vy Asteroid.rSpeed
    Asteroid.radius Asteroid.points Asteroid.hp].
  split; [reflexivity|].
  split; [eexists; split; [apply unit_interval | reflexivity]|].
  split; [eexists; split; [apply unit_interval | reflexivity]|].
  split; [eexists; split; [apply unit_interval | reflexivity]|].
  split; [eexists; split; [apply unit_interval | reflexivity]|].
  split; [|split; [exact Hf | reflexivity]].
  rewrite Hl. pose proof (floor_of_four _ (unit_interval (randomCalls s))). lia.
Qed.

Lemma spawnBooster_shape s :
  exists b,
    spawnBooster host s
    = Ok tt (set_boosters (boosters s ++ [b]) (set_randomCalls (2 + randomCalls s) s))
    /\ dropped host b.
Proof.
  eexists. split; [reflexivity|].
  unfold dropped. cbn [Booster.y Booster.vy Booster.size Booster.x Booster.type].
  split; [reflexivity|]. split; [reflexivity|]. split; [reflexivity|].
  split; [eexists; split; [apply unit_interval | reflexivity]|].
  change (inject_Z (Z.of_nat (List.length types))) with 3.
  pose proof (floor_of_three _ (unit_interval (S (randomCalls s)))) as F.
  unfold Math_random. cbn [randomCalls set_randomCalls].
  assert (C : Qfloor (random_src host (S (randomCalls s)) * 3) = 0%Z
              \/ Qfloor (random_src host (S (randomCalls s)) * 3) = 1%Z
              \/ Qfloor (random_src host (S (randomCalls s)) * 3) = 2%Z) by lia.
  destruct C as [C|[C|C]]; rewrite C; eexists; (split; [reflexivity|]);
    simpl; auto.
Qed.

End SpawnShapes.

(** ** What the first half of a step does to the arrays *)

Section AdvanceArrays.

Variable host : Host.
Hypothesis unit_interval : forall n, 0 <= random_src host n < 1.

Lemma spawnAsteroid_throws s :
  asteroidSpeed s = None ->
  exists c, spawnAsteroid host s = Throw TypeError (set_randomCalls c s).
Proof.
  intro H. unfold spawnAsteroid, bind at 1. unfold Math_random at 1.
  unfold bind at 1. unfold Math_random at 1.
  unfold bind at 1.
  match goal with
  | |- context [points_loop host ?r ?sd ?n ?i ?p ?st] =>
      destruct (points_loop_result host r sd n i p st) as (points & E); rewrite E
  end.
  unfold bind, Math_random, read_asteroidSpeed. simpl. rewrite H.
  eexists. destruct s. reflexivity.
Qed.

(** The spawn timer, when the speed range is defined: it returns, adds at
    most one asteroid, and a booster only together with an asteroid. *)
Lemma spawn_timer_shape dt s range :
  asteroidSpeed s = Some range ->
  exists new_a new_b c sp,
    spawn_timer host dt s
    = Ok tt (set_boosters (boosters s ++ new_b)
               (set_asteroids (asteroids s ++ new_a)
                  (set_randomCalls c (set_spawn sp s))))
    /\ Forall (spawned host range) new_a
    /\ Forall (dropped host) new_b
    /\ (List.length new_b <= List.length new_a <= 1)%nat.
Proof.
  intro Hr. destruct (num_le (num_sub (spawn s) dt) 0) eqn:H.
  - unfold spawn_timer, bind at 1, modify at 1.
    unfold bind at 1, get. cbn [spawn set_spawn]. rewrite H.
    unfold bind at 1, modify at 1.
    destruct (spawnAsteroid_shape host unit_interval
                (set_spawn (spawnRate (set_spawn (num_sub (spawn s) dt) s))
                   (set_spawn (num_sub (spawn s) dt) s)) range Hr)
      as (a & c & E & Ha).
    unfold bind at 1. rewrite E. unfold bind, Math_random.
    cbn [randomCalls set_asteroids set_randomCalls].
    destruct (Qltb _ 0.2).
    + match goal with
      | |- context [spawnBooster host ?st] =>
          destruct (spawnBooster_shape host unit_interval st) as (b & Eb & Hb);
          rewrite Eb
      end.
      exists [a], [b], (2 + S c)%nat, (spawnRate s).
      split; [destruct s; reflexivity|].
      split; [constructor; [exact Ha | constructor]|].
      split; [constructor; [exact Hb | constructor] | simpl; lia].
    + exists [a], [], (S c), (spawnRate s).
      split; [rewrite app_nil_r; destruct s; reflexivity|].
      split; [constructor; [exact Ha | constructor]|].
      split; [constructor | simpl; lia].
  - rewrite (spawn_timer_idle host dt s H).
    exists [], [], (randomCalls s), (num_sub (spawn s) dt).
    split; [rewrite !app_nil_r; destruct s; reflexivity|].
    split; [constructor|]. split; [constructor | simpl; lia].
Qed.

(** The spawn timer, when the speed range is [undefined]: it leaves the
    arrays alone, returned or thrown. *)
Lemma spawn_timer_undefined dt s :
  asteroidSpeed s = None ->
  exists c sp,
    state_of (spawn_timer host dt s) = set_randomCalls c (set_spawn sp s).
Proof.
  intro Hr. destruct (num_le (num_sub (spawn s) dt) 0) eqn:H.
  - unfold spawn_timer, bind at 1, modify at 1.
    unfold bind at 1, get. cbn [spawn set_spawn]. rewrite H.
    unfold bind at 1, modify at 1.
    destruct (spawnAsteroid_throws
                (set_spawn (spawnRate (set_spawn (num_sub (spawn s) dt) s))
                   (set_spawn (num_sub (spawn s) dt) s)) Hr) as (c & E).
    unfold bind at 1. rewrite E. exists c, (spawnRate s).
    destruct s. reflexivity.
  - rewrite (spawn_timer_idle host dt s H).
    exists (randomCalls s), (num_sub (spawn s) dt). destruct s. reflexivity.
Qed.

Lemma aimed_arrays dt s :
  asteroids (aimed host dt s) = asteroids s
  /\ boosters (aimed host dt s) = boosters s
  /\ asteroidSpeed (aimed host dt s) = asteroidSpeed s.
Proof.
  unfold aimed. cbn [move_bullets asteroids boosters asteroidSpeed set_bullets].
  rewrite (shoot_keeps host asteroids), (shoot_keeps host boosters),
    (shoot_keeps host asteroidSpeed) by (intros; reflexivity).
  repeat split.
Qed.

(** The first half of a step, when the speed range is defined. *)
Lemma advance_shape dt s range :
  asteroidSpeed s = Some range ->
  exists new_a new_b mid,
    advance host dt s = Ok tt mid
    /\ bullets mid = bullets (aimed host dt s)
    /\ asteroids mid
       = filter (fun a => Qltb (Asteroid.y a) (c_height host + 40))
           (map (Asteroid.move dt) (asteroids s ++ new_a))
    /\ boosters mid
       = filter (fun b => Qltb (Booster.y b) (c_height host + 20))
           (map (move_booster dt) (boosters s ++ new_b))
    /\ Forall (spawned host range) new_a
    /\ Forall (dropped host) new_b
    /\ (List.length new_b <= List.length new_a <= 1)%nat.
Proof.
  intro Hr. destruct (aimed_arrays dt s) as (Aa & Ab & Ar).
  destruct (spawn_timer_shape dt (aimed host dt s) range) as
    (new_a & new_b & c & sp & E & Ha & Hb & Hl); [congruence|].
  exists new_a, new_b. eexists. rewrite advance_unfold, E.
  split; [reflexivity|].
  cbn [bullets asteroids boosters move_boosters set_boosters move_asteroids
    set_asteroids set_randomCalls set_spawn].
  rewrite Aa, Ab. repeat split; try assumption; apply Hl.
Qed.

End AdvanceArrays.

(** ** The ranges of what is spawned *)

Lemma hp_of_radius (r : Q) :
  15 <= r -> r <= 45 -> (2 <= Qceiling (r / 10) <= 5)%Z.
Proof.
  intros H0 H1. split.
  - change 2%Z with (Qceiling (15 / 10)). apply Qceiling_resp_le.
    unfold Qdiv. change (/ 10) with (1 # 10). lra.
  - change 5%Z with (Qceiling (45 / 10)). apply Qceiling_resp_le.
    unfold Qdiv. change (/ 10) with (1 # 10). lra.
Qed.

Lemma spawned_radius host range a :
  spawned host range a -> 15 <= Asteroid.radius a /\ Asteroid.radius a < 45.
Proof.
  intros (_ & _ & _ & _ & (u & (U0 & U1) & E) & _). rewrite E. split; lra.
Qed.

Lemma spawned_sound host range a : spawned host range a -> sound a.
Proof.
  intro H. destruct (spawned_radius host range a H) as (R0 & R1).
  apply Qlt_le_weak in R1.
  destruct H as (_ & _ & _ & _ & _ & Hl & _ & Hhp).
  unfold sound. rewrite Hhp.
  pose proof (hp_of_radius _ R0 R1). repeat split; try assumption; lia.
Qed.

Section SpawnRanges.

Variable host : Host.
Hypothesis unit_interval : forall n, 0 <= random_src host n < 1.

(** X4.  With [Math.random] in [0, 1), a canvas of positive width and a
    speed range [lo <= hi], [spawnAsteroid] returns, changes nothing but
    the asteroid array, to which it appends one asteroid, and that asteroid
    starts 40 above the canvas, at an [x] inside it, with a speed inside
    the range, a radius from 15 to 45, two to five hit-points, a rotation
    speed in [-0.75, 0.75), and six to nine vertices, each at a distance
    from the centre from 0.7 to 1.3 radii.  The upper bounds on the radius
    and on the vertices are not strict: they also hold of a sum or product
    that rounds up to the bound. *)
Theorem spawnAsteroid_in_range (s : state) (lo hi : Q) :
  0 < c_width host -> lo <= hi -> asteroidSpeed s = Some (lo, hi) ->
  exists a c,
    spawnAsteroid host s
    = Ok tt (set_asteroids (asteroids s ++ [a]) (set_randomCalls c s))
    /\ Asteroid.y a = -40
    /\ (0 <= Asteroid.x a /\ Asteroid.x a < c_width host)
    /\ (lo <= Asteroid.vy a /\ Asteroid.vy a <= hi)
    /\ (15 <= Asteroid.radius a /\ Asteroid.radius a <= 45)
    /\ (2 <= Asteroid.hp a <= 5)%Z
    /\ (-0.75 <= Asteroid.rSpeed a /\ Asteroid.rSpeed a < 0.75)
    /\ (6 <= List.length (Asteroid.points a) <= 9)%nat
    /\ Forall (fun p => 0.7 * Asteroid.radius a <= Point.r p
                        /\ Point.r p <= 1.3 * Asteroid.radius a)
         (Asteroid.points a).
Proof.
  intros W L Hr.
  destruct (spawnAsteroid_shape host unit_interval s (lo, hi) Hr) as (a & c & E & Ha).
  exists a, c. split; [exact E|].
  destruct (spawned_radius host _ a Ha) as (R0 & R1).
  apply Qlt_le_weak in R1.
  destruct Ha as (Hy & (u1 & (A0 & A1) & Hx) & (u2 & (B0 & B1) & Hv)
                  & (u3 & (C0 & C1) & Hs) & _ & Hl & Hp & Hhp).
  cbn [fst snd] in Hv.
  split; [exact Hy|].
  split; [rewrite Hx; split; nra|].
  split; [rewrite Hv; split; nra|].
  split; [split; assumption|].
  split; [rewrite Hhp; apply hp_of_radius; assumption|].
  split; [rewrite Hs; split; lra|].
  split; [exact Hl|].
  eapply Forall_impl; [|exact Hp].
  intros p (u & (D0 & D1) & Ep). cbn beta. rewrite Ep. split; nra.
Qed.

(** X5.  With [Math.random] in [0, 1) and a canvas at least 60 wide,
    [spawnBooster] returns, appends one booster and changes nothing else;
    the booster starts 20 above the canvas, at least 30 from either side,
    falls at 100 a second, has size 12, and its type is one of the three
    that [applyBooster] knows. *)
Theorem spawnBooster_in_range (s : state) :
  60 <= c_width host ->
  exists b,
    spawnBooster host s
    = Ok tt (set_boosters (boosters s ++ [b])
               (set_randomCalls (2 + randomCalls s) s))
    /\ Booster.y b = -20 /\ Booster.vy b = 100 /\ Booster.size b = 12
    /\ (30 <= Booster.x b /\ Booster.x b <= c_width host - 30)
    /\ (Booster.type b = Some "fireRate"%string
        \/ Booster.type b = Some "shield"%string
        \/ Booster.type b = Some "score"%string).
Proof.
  intro W.
  destruct (spawnBooster_shape host unit_interval s) as (b & E & Hb).
  exists b. split; [exact E|].
  destruct Hb as (Hy & Hv & Hs & (u & (U0 & U1) & Hx) & (t & Ht & Hin)).
  split; [exact Hy|]. split; [exact Hv|]. split; [exact Hs|].
  split; [rewrite Hx; split; nra|].
  rewrite Ht. unfold types in Hin. cbn [In] in Hin.
  destruct Hin as [<-|[<-|[<-|[]]]]; tauto.
Qed.

End SpawnRanges.

(** ** What a step leaves in the arrays *)

Lemma filter_Forall {A} (f : A -> bool) (l : list A) :
  Forall (fun x => f x = true) (filter f l).
Proof.
  apply Forall_forall. intros x H. apply filter_In in H. apply H.
Qed.

Lemma splice_length_le {A} (i : nat) (l : list A) :
  (List.length (splice i l) <= List.length l)%nat.
Proof.
  unfold splice. rewrite length_app, length_firstn, length_skipn. lia.
Qed.

Lemma resolve_lengths dt s :
  (List.length (bullets (state_of (resolve dt s))) <= List.length (bullets s))%nat
  /\ (List.length (asteroids (state_of (resolve dt s))) <= List.length (asteroids s))%nat
  /\ (List.length (boosters (state_of (resolve dt s))) <= List.length (boosters s))%nat.
Proof.
  apply (resolve_inv
           (fun s' => (List.length (bullets s') <= List.length (bullets s))%nat
                      /\ (List.length (asteroids s') <= List.length (asteroids s))%nat
                      /\ (List.length (boosters s') <= List.length (boosters s))%nat));
    [ | | | | | lia].
  - intros i j a s0 Ha (H1 & H2 & H3).
    destruct (on_hit_result i j a s0) as (s' & E & Hb & Hc).
    pose proof (on_hit_keeps boosters (fun _ _ => eq_refl) (fun _ _ => eq_refl)
                  (fun _ _ => eq_refl) (fun _ _ => eq_refl) i j a s0) as Kb.
    rewrite E in Kb |- *. cbn [state_of] in Kb |- *. rewrite Hb, Kb.
    pose proof (splice_length_le j (bullets s0)).
    split; [lia|]. split; [|exact H3].
    destruct (Asteroid.hp a - 1 <=? 0)%Z; destruct Hc as [Hc _]; rewrite Hc.
    + pose proof (splice_length_le i (asteroids s0)). lia.
    + rewrite store_length. exact H2.
  - intros a s0 H. destruct (collided_frame a s0) as (_ & _ & Ca & Cb & _).
    rewrite Ca, Cb, collided_boosters. exact H.
  - intros type s0 H.
    rewrite (applyBooster_keeps bullets), (applyBooster_keeps asteroids),
      (applyBooster_keeps boosters) by (intros; reflexivity).
    exact H.
  - intros i s0 (H1 & H2 & H3). cbn [bullets asteroids boosters set_boosters].
    pose proof (splice_length_le i (boosters s0)). lia.
  - intros dt0 s0 H. rewrite !shield_decay_keeps by (intros; reflexivity). exact H.
Qed.

Section Field.

Variable host : Host.

(** Lines 168-173 append at most one bullet, which flies up at 400. *)
Lemma shoot_bullets s :
  exists shot,
    bullets (state_of (shoot host s)) = bullets s ++ shot
    /\ (List.length shot <= 1)%nat
    /\ Forall (fun b => Bullet.vy b = -400) shot.
Proof.
  unfold shoot, bind at 1, get. destruct (pressed_fire s).
  - unfold bind at 1, performance_now at 1.
    destruct (Q_gt_num _ _).
    + eexists [_]. unfold bind, modify, performance_now. cbn [state_of bullets
        set_bullets set_nowCalls set_lastShot].
      split; [reflexivity|]. split; [simpl; lia|]. repeat constructor.
    + exists []. cbn [state_of ret bullets set_nowCalls]. rewrite app_nil_r.
      split; [reflexivity|]. split; [simpl; lia | constructor].
  - exists []. cbn [state_of ret]. rewrite app_nil_r.
    split; [reflexivity|]. split; [simpl; lia | constructor].
Qed.

Lemma aimed_bullets dt s :
  exists shot,
    bullets (aimed host dt s)
    = filter (fun b => Qltb (-10) (Bullet.y b))
        (map (move_bullet dt) (bullets s ++ shot))
    /\ (List.length shot <= 1)%nat
    /\ Forall (fun b => Bullet.vy b = -400) shot.
Proof.
  destruct (shoot_bullets (move_player host dt s)) as (shot & E & Hl & Hv).
  exists shot. unfold aimed, move_bullets. cbn [bullets set_bullets].
  rewrite E. repeat split; assumption.
Qed.

Hypothesis unit_interval : forall n, 0 <= random_src host n < 1.

(** X6.  With the speed range of a difficulty in place, a simulation
    step returns, and what it leaves in the three arrays is inside the
    strip the filters of lines 178, 193 and 198 keep: no bullet at or above
    10 over the top edge, no asteroid 40 or more and no booster 20 or more
    under the bottom edge.  The collision loops that follow the filters
    do not bring one back. *)
Theorem update_leaves_field (dt : Q) (s : state) (range : Q * Q) :
  asteroidSpeed s = Some range ->
  exists s',
    update host dt s = Ok tt s'
    /\ Forall (fun b => -10 < Bullet.y b) (bullets s')
    /\ Forall (fun a => Asteroid.y a < c_height host + 40) (asteroids s')
    /\ Forall (fun b => Booster.y b < c_height host + 20) (boosters s').
Proof.
  intro Hr.
  destruct (advance_shape host unit_interval dt s range Hr)
    as (new_a & new_b & mid & E & Hb & Ha & Hbo & _).
  destruct (resolve_result dt mid) as (s1 & s2 & _ & _ & Er & _).
  exists (shield_decay dt s2). rewrite update_unfold, E. split; [exact Er|].
  pose proof (resolve_forall
                (fun b => -10 < Bullet.y b)
                (fun a => Asteroid.y a < c_height host + 40)
                (fun b => Booster.y b < c_height host + 20)
                (fun a H _ => H) dt mid) as F.
  rewrite Er in F. cbn [state_of] in F. apply F.
  - rewrite Hb. destruct (aimed_bullets dt s) as (shot & Es & _). rewrite Es.
    eapply Forall_impl; [|apply filter_Forall].
    intros b H. apply Qltb_lt. exact H.
  - rewrite Ha. eapply Forall_impl; [|apply filter_Forall].
    intros a H. apply Qltb_lt. exact H.
  - rewrite Hbo. eapply Forall_impl; [|apply filter_Forall].
    intros b H. apply Qltb_lt. exact H.
Qed.

(** X7.  A simulation step adds at most one bullet, one asteroid and one
    booster to what was there. *)
Theorem update_adds_at_most_one (dt : Q) (s : state) (range : Q * Q) :
  asteroidSpeed s = Some range ->
  exists s',
    update host dt s = Ok tt s'
    /\ (List.length (bullets s') <= S (List.length (bullets s)))%nat
    /\ (List.length (asteroids s') <= S (List.length (asteroids s)))%nat
    /\ (List.length (boosters s') <= S (List.length (boosters s)))%nat.
Proof.
  intro Hr.
  destruct (advance_shape host unit_interval dt s range Hr)
    as (new_a & new_b & mid & E & Hb & Ha & Hbo & _ & _ & Hl).
  destruct (resolve_result dt mid) as (s1 & s2 & _ & _ & Er & _).
  exists (shield_decay dt s2). rewrite update_unfold, E. split; [exact Er|].
  pose proof (resolve_lengths dt mid) as (L1 & L2 & L3).
  rewrite Er in L1, L2, L3. cbn [state_of] in L1, L2, L3.
  destruct (aimed_bullets dt s) as (shot & Es & Hs & _).
  assert (B : (List.length (bullets mid) <= S (List.length (bullets s)))%nat).
  { rewrite Hb, Es.
    eapply Nat.le_trans; [apply filter_length_le|].
    rewrite length_map, length_app. lia. }
  assert (A : (List.length (asteroids mid) <= S (List.length (asteroids s)))%nat).
  { rewrite Ha.
    eapply Nat.le_trans; [apply filter_length_le|].
    rewrite length_map, length_app. lia. }
  assert (C : (List.length (boosters mid) <= S (List.length (boosters s)))%nat).
  { rewrite Hbo.
    eapply Nat.le_trans; [apply filter_length_le|].
    rewrite length_map, length_app. lia. }
  lia.
Qed.

End Field.

(** ** Invariants of the page *)

Section PageInvariant.

Variable host : Host.
Context {X : Type} (f : state -> X) (I : X -> Prop).

Hypothesis f_keys : forall v s, f (set_keys v s) = f s.
Hypothesis f_touchLeft : forall v s, f (set_touchLeft v s) = f s.
Hypothesis f_touchRight : forall v s, f (set_touchRight v s) = f s.
Hypothesis f_touchFire : forall v s, f (set_touchFire v s) = f s.
Hypothesis f_homeHidden : forall v s, f (set_homeHidden v s) = f s.
Hypothesis f_gameHidden : forall v s, f (set_gameHidden v s) = f s.
Hypothesis f_running : forall v s, f (set_running v s) = f s.
Hypothesis f_rafQueue : forall v s, f (set_rafQueue v s) = f s.

Hypothesis I_loop : forall now s, I (f s) -> I (f (state_of (loop host now s))).
Hypothesis I_initGame : forall diff s, I (f (state_of (initGame host diff s))).

Lemma run_callbacks_invariant n timestamp :
  forall s, I (f s) -> I (f (run_callbacks host n timestamp s)).
Proof.
  induction n as [|n IH]; intros s H; simpl; [exact H|].
  apply IH. apply I_loop. exact H.
Qed.

Lemma step_invariant s e : I (f s) -> I (f (step host s e)).
Proof.
  intro H. unfold step. destruct e; cbn [listener].
  - unfold modify, assign_key. cbn [state_of]. rewrite f_keys. exact H.
  - unfold modify, assign_key. cbn [state_of]. rewrite f_keys. exact H.
  - unfold modify. cbn [state_of].
    destruct b; cbn [assign_touch];
      rewrite ?f_touchLeft, ?f_touchRight, ?f_touchFire; exact H.
  - unfold modify. cbn [state_of].
    destruct b; cbn [assign_touch];
      rewrite ?f_touchLeft, ?f_touchRight, ?f_touchFire; exact H.
  - unfold bind at 1, modify at 1. unfold bind at 1, modify at 1. apply I_initGame.
  - unfold bind, modify. cbn [state_of].
    rewrite f_homeHidden, f_gameHidden, f_running. exact H.
  - unfold bind at 1, modify at 1. apply I_initGame.
  - unfold modify. cbn [state_of]. apply run_callbacks_invariant.
    rewrite f_rafQueue. exact H.
Qed.

Lemma run_invariant es : forall s, I (f s) -> I (f (run host s es)).
Proof.
  induction es as [|e es IH]; intros s H; [exact H|].
  change (run host s (e :: es)) with (run host (step host s e) es).
  apply IH. apply step_invariant. exact H.
Qed.

End PageInvariant.

(** ** What is in the arrays of a reachable state *)

Lemma sound_move dt a : sound a -> sound (Asteroid.move dt a).
Proof. intro H. exact H. Qed.

Lemma sound_wounded a : sound a -> (0 < Asteroid.hp a - 1)%Z -> sound (wounded a).
Proof.
  intros (Hhp & Hl & R0 & R1) Hpos. unfold sound, wounded.
  cbn [Asteroid.set_hp Asteroid.hp Asteroid.radius Asteroid.points].
  repeat split; try assumption; lia.
Qed.

Lemma dropped_packed host b : dropped host b -> packed b.
Proof. intros (_ & Hv & Hs & _ & Ht). repeat split; assumption. Qed.

Lemma draw_sound s : Forall sound (asteroids s) -> draw s = Ok tt s.
Proof.
  intro H. unfold draw.
  destruct (existsb _ (asteroids s)) eqn:E; [|reflexivity].
  apply existsb_exists in E. destruct E as (a & Ha & Hp).
  rewrite Forall_forall in H. destruct (H a Ha) as (_ & Hl & _).
  destruct (Asteroid.points a); [simpl in Hl; lia | discriminate Hp].
Qed.

Lemma initGame_undefined_arrays host diff s :
  difficulty diff = Undefined ->
  bullets (state_of (initGame host diff s)) = []
  /\ asteroids (state_of (initGame host diff s)) = []
  /\ boosters (state_of (initGame host diff s)) = [].
Proof.
  intro D. unfold initGame, bind, modify, throw. rewrite D.
  repeat split.
Qed.

Section Objects.

Variable host : Host.
Hypothesis unit_interval : forall n, 0 <= random_src host n < 1.

Lemma advance_undefined dt s :
  asteroidSpeed s = None -> asteroids s = [] -> boosters s = [] ->
  asteroids (state_of (advance host dt s)) = []
  /\ boosters (state_of (advance host dt s)) = []
  /\ bullets (state_of (advance host dt s)) = bullets (aimed host dt s).
Proof.
  intros Hr Ha Hb. destruct (aimed_arrays host dt s) as (Aa & Ab & Ar).
  destruct (spawn_timer_undefined host dt (aimed host dt s)) as (c & sp & E);
    [congruence|].
  rewrite advance_unfold.
  destruct (spawn_timer host dt (aimed host dt s)) as [[] s'|e s'];
    cbn [state_of] in E |- *; subst s'.
  - cbn [move_boosters move_asteroids asteroids boosters bullets set_boosters
      set_asteroids set_randomCalls set_spawn].
    rewrite Aa, Ab, Ha, Hb. repeat split.
  - cbn [asteroids boosters bullets set_randomCalls set_spawn].
    rewrite Aa, Ab, Ha, Hb. repeat split.
Qed.

Lemma aimed_bullets_fly dt s :
  Forall (fun b => Bullet.vy b = -400) (bullets s) ->
  Forall (fun b => Bullet.vy b = -400) (bullets (aimed host dt s)).
Proof.
  intro H. destruct (aimed_bullets host dt s) as (shot & E & _ & Hs).
  rewrite E. apply Forall_forall. intros b Hb.
  apply filter_In in Hb. destruct Hb as [Hb _].
  apply in_map_iff in Hb. destruct Hb as (b0 & <- & Hb0).
  cbn [move_bullet Bullet.vy].
  assert (F : Forall (fun b => Bullet.vy b = -400) (bullets s ++ shot))
    by (apply Forall_app; split; assumption).
  rewrite Forall_forall in F. apply F. exact Hb0.
Qed.

Lemma update_well_formed dt s :
  well_formed (flying s) -> well_formed (flying (state_of (update host dt s))).
Proof.
  unfold flying, well_formed. intros (HP & HQ & HR & Hn).
  assert (K : asteroidSpeed (state_of (update host dt s)) = asteroidSpeed s)
    by (apply update_keeps; intros; reflexivity).
  rewrite K. rewrite update_unfold.
  destruct (asteroidSpeed s) as [range|] eqn:Hr.
  - destruct (advance_shape host unit_interval dt s range Hr)
      as (new_a & new_b & mid & E & Hb & Ha & Hbo & Sa & Sb & _).
    rewrite E.
    destruct (resolve_forall (fun b => Bullet.vy b = -400) sound packed
                sound_wounded dt mid) as (F1 & F2 & F3).
    + rewrite Hb. apply aimed_bullets_fly. exact HP.
    + rewrite Ha. apply Forall_forall. intros a Hin.
      apply filter_In in Hin. destruct Hin as [Hin _].
      apply in_map_iff in Hin. destruct Hin as (a0 & <- & Hin).
      apply sound_move. apply in_app_or in Hin. destruct Hin as [Hin|Hin].
      * rewrite Forall_forall in HQ. apply HQ. exact Hin.
      * rewrite Forall_forall in Sa. apply (spawned_sound host range). apply Sa. exact Hin.
    + rewrite Hbo. apply Forall_forall. intros b Hin.
      apply filter_In in Hin. destruct Hin as [Hin _].
      apply in_map_iff in Hin. destruct Hin as (b0 & <- & Hin).
      assert (Pb : packed b0).
      { apply in_app_or in Hin. destruct Hin as [Hin|Hin].
        - rewrite Forall_forall in HR. apply HR. exact Hin.
        - rewrite Forall_forall in Sb. apply (dropped_packed host). apply Sb. exact Hin. }
      exact Pb.
    + split; [exact F1|]. split; [exact F2|]. split; [exact F3|]. discriminate.
  - destruct (Hn eq_refl) as (Ea & Eb).
    destruct (advance_undefined dt s Hr Ea Eb) as (Aa & Ab & Abu).
    destruct (advance host dt s) as [[] mid|e s']; cbn [state_of] in Aa, Ab, Abu |- *.
    + destruct (resolve_forall (fun b => Bullet.vy b = -400) sound packed
                  sound_wounded dt mid) as (F1 & F2 & F3).
      * rewrite Abu. apply aimed_bullets_fly. exact HP.
      * rewrite Aa. constructor.
      * rewrite Ab. constructor.
      * split; [exact F1|]. split; [exact F2|]. split; [exact F3|]. intros _.
        pose proof (resolve_lengths dt mid) as (_ & L2 & L3).
        rewrite Aa in L2. rewrite Ab in L3. simpl in L2, L3.
        split; apply length_zero_iff_nil; lia.
    + rewrite Aa, Ab, Abu. split; [apply aimed_bullets_fly; exact HP|].
      split; [constructor|]. split; [constructor|]. intros _. split; reflexivity.
Qed.

Lemma loop_well_formed now s :
  well_formed (flying s) -> well_formed (flying (state_of (loop host now s))).
Proof.
  intro H. destruct (running s) eqn:Hr.
  - rewrite (loop_running host flying) by (reflexivity || exact Hr).
    apply update_well_formed. exact H.
  - rewrite (loop_stopped host now s Hr). exact H.
Qed.

Lemma prepared_well_formed fr sr range s :
  well_formed (flying (prepared host fr sr range s)).
Proof.
  unfold well_formed, flying. cbn.
  split; [constructor|]. split; [constructor|]. split; [constructor|].
  intros _. split; reflexivity.
Qed.

Lemma initGame_well_formed diff s :
  well_formed (flying (state_of (initGame host diff s))).
Proof.
  destruct (difficulty diff) as [set| |] eqn:D.
  - rewrite (initGame_own host diff set s D). apply loop_well_formed.
    apply prepared_well_formed.
  - rewrite (initGame_inherited host diff s D). apply loop_well_formed.
    apply prepared_well_formed.
  - destruct (initGame_undefined_arrays host diff s D) as (Eb & Ea & Ebo).
    unfold well_formed, flying. rewrite Eb, Ea, Ebo.
    split; [constructor|]. split; [constructor|]. split; [constructor|].
    intros _. split; reflexivity.
Qed.

(** X8.  With [Math.random] in [0, 1), in every state the page can
    reach the arrays hold only what the script makes: each bullet flies up
    at 400; each asteroid has a radius from 15 to 45, six to nine vertices and
    at least one hit-point, at most the [ceil(radius / 10)] it was spawned
    with; each booster falls at 100, has size 12 and one of the three types;
    and there is neither asteroid nor booster while the speed range is
    [undefined].  So [draw] finds a first vertex for every asteroid and
    returns. *)
Theorem reachable_objects_well_formed (es : list event) :
  well_formed (flying (play host es))
  /\ draw (play host es) = Ok tt (play host es).
Proof.
  assert (W : well_formed (flying (play host es))).
  { unfold play.
    apply (run_invariant host flying well_formed); try (intros; reflexivity).
    - apply loop_well_formed.
    - apply initGame_well_formed.
    - unfold well_formed, flying. cbn.
      split; [constructor|]. split; [constructor|]. split; [constructor|].
      intros _. split; reflexivity. }
  split; [exact W|]. apply draw_sound. apply W.
Qed.

End Objects.

(** ** A run with a difficulty of the table *)

Section KnownDifficulty.

Variable host : Host.
Hypothesis unit_interval : forall n, 0 <= random_src host n < 1.

Lemma update_returns_defined dt s range :
  asteroidSpeed s = Some range -> returns (update host dt s) = true.
Proof.
  intro Hr.
  destruct (advance_shape host unit_interval dt s range Hr)
    as (new_a & new_b & mid & E & _).
  destruct (resolve_result dt mid) as (s1 & s2 & _ & _ & Er & _).
  rewrite update_unfold, E, Er. reflexivity.
Qed.

Lemma loop_returns_defined now s range :
  running s = true -> asteroidSpeed s = Some range -> well_formed (flying s) ->
  returns (loop host now s) = true
  /\ asteroidSpeed (state_of (loop host now s)) = Some range
  /\ spawnRate (state_of (loop host now s)) = spawnRate s
  /\ well_formed (flying (state_of (loop host now s))).
Proof.
  intros Hr Hs W.
  split; [|split; [|split]].
  - rewrite (loop_when_running host now s Hr).
    set (dt := Qmin 0.04 ((now - last s) / 1000)).
    rewrite bind_returns by reflexivity.
    set (st := state_of (record_call (CallUpdate dt) (set_last now s))).
    assert (Ru : returns (update host dt st) = true)
      by (apply (update_returns_defined dt st range); exact Hs).
    rewrite bind_returns by exact Ru.
    rewrite bind_returns by reflexivity.
    assert (D : forall s1, Forall sound (asteroids s1) ->
                           draw (state_of (record_call CallDraw s1))
                           = Ok tt (state_of (record_call CallDraw s1))).
    { intros s1 F. apply draw_sound. exact F. }
    rewrite bind_returns.
    + reflexivity.
    + rewrite D; [reflexivity|].
      apply (update_well_formed host unit_interval dt st). exact W.
  - rewrite (loop_keeps host asteroidSpeed) by (intros; reflexivity). exact Hs.
  - rewrite (loop_keeps host spawnRate) by (intros; reflexivity). reflexivity.
  - apply loop_well_formed; assumption.
Qed.

(** X9.  With [Math.random] in [0, 1): while the run is on, the speed
    range is that of a difficulty of the table and the arrays hold what the
    script makes, a frame callback does not throw; it returns with one more
    callback queued, the same speed range, and arrays that again hold what
    the script makes.  So the next frame is in the same case, unless this
    one ended the run. *)
Theorem frame_of_known_difficulty_returns (now : Q) (s : state) (range : Q * Q) :
  running s = true -> asteroidSpeed s = Some range -> well_formed (flying s) ->
  exists s',
    loop host now s = Ok tt s'
    /\ rafQueue s' = S (rafQueue s)
    /\ asteroidSpeed s' = Some range
    /\ well_formed (flying s').
Proof.
  intros Hr Hs W.
  destruct (loop_returns_defined now s range Hr Hs W) as (R & Ks & _ & W').
  exists (state_of (loop host now s)).
  split; [apply returns_state; exact R|].
  split; [apply loop_queues; assumption|].
  split; assumption.
Qed.

(** X10.  With [Math.random] in [0, 1), [initGame] with [easy],
    [medium] or [hard] returns, from whatever state: the spawn interval and
    the speed range are those of the table, one frame callback more is
    queued than before, and the arrays hold what the script makes. *)
Theorem initGame_known_difficulty_returns (diff : string) (set : Difficulty.t)
    (s : state) :
  difficulty diff = Own set ->
  exists s',
    initGame host diff s = Ok tt s'
    /\ rafQueue s' = S (rafQueue s)
    /\ spawnRate s' = Some (Difficulty.spawnRate set)
    /\ asteroidSpeed s' = Some (Difficulty.asteroidSpeed set)
    /\ well_formed (flying s').
Proof.
  intro D. rewrite (initGame_own host diff set s D).
  set (p := prepared host _ _ _ s).
  destruct (loop_returns_defined (now_src host (nowCalls s)) p
              (Difficulty.asteroidSpeed set) eq_refl eq_refl
              (prepared_well_formed host _ _ _ s)) as (R & Ks & Kr & W').
  exists (state_of (loop host (now_src host (nowCalls s)) p)).
  split; [apply returns_state; exact R|].
  split; [rewrite (loop_queues host _ p eq_refl R); reflexivity|].
  split; [rewrite Kr; reflexivity|].
  split; assumption.
Qed.

End KnownDifficulty.

(** ** The pickup loop *)

Lemma skipn_nth {A} (l : list A) :
  forall k b, nth_error l k = Some b -> skipn k l = b :: skipn (S k) l.
Proof.
  induction l as [|x l IH]; intros [|k] b H; try discriminate H.
  - injection H as ->. reflexivity.
  - cbn [nth_error] in H. change (skipn (S k) (x :: l)) with (skipn k l).
    rewrite (IH k b H). reflexivity.
Qed.

Lemma splice_skipn {A} (l : list A) (k : nat) :
  (k <= List.length l)%nat -> skipn k (splice k l) = skipn (S k) l.
Proof.
  intro H. unfold splice. rewrite skipn_app, length_firstn.
  rewrite skipn_all2 by (rewrite length_firstn; lia).
  replace (k - Nat.min k (List.length l))%nat with 0%nat by lia. reflexivity.
Qed.

Lemma applyBooster_score type s :
  score (state_of (applyBooster type s))
  = (score s + (if is_type type "score" then 50 else 0))%Z.
Proof.
  unfold applyBooster, bind, modify, show_score, ret.
  destruct (is_type type "fireRate"), (is_type type "shield"),
    (is_type type "score"); cbn; lia.
Qed.

Section Pickup.

Variable p : Player.t.

Lemma booster_loop_sweep k :
  forall s,
  player s = p ->
  (k <= List.length (boosters s))%nat ->
  boosters (state_of (booster_loop k s))
  = filter (fun b => negb (picked_up b p)) (firstn k (boosters s))
    ++ skipn k (boosters s)
  /\ score (state_of (booster_loop k s))
     = (score s
        + 50 * Z.of_nat
                 (List.length
                    (filter (fun b => picked_up b p
                                      && is_type (Booster.type b) "score")
                       (firstn k (boosters s)))))%Z
  /\ player (state_of (booster_loop k s)) = p.
Proof.
  induction k as [|k IH]; intros s Hp Hk.
  - cbn. split; [reflexivity|]. split; [lia | exact Hp].
  - destruct (nth_error (boosters s) k) as [b|] eqn:Hb;
      [|apply nth_error_None in Hb; lia].
    assert (E : booster_loop (S k) s
                = if picked_up b p
                  then match applyBooster (Booster.type b) s with
                       | Ok _ s1 => booster_loop k (set_boosters (splice k (boosters s1)) s1)
                       | Throw e s' => Throw e s'
                       end
                  else booster_loop k s).
    { cbn [booster_loop]. unfold bind at 1, get. rewrite Hb, Hp.
      destruct (picked_up b p); [|reflexivity].
      unfold bind at 1. unfold bind at 1.
      destruct (applyBooster (Booster.type b) s) as [[] s1|]; reflexivity. }
    rewrite E. rewrite (firstn_snoc _ _ _ Hb), !filter_app. cbn [filter].
    destruct (picked_up b p) eqn:Pk; cbn [negb andb].
    + pose proof (applyBooster_returns (Booster.type b) s) as R.
      pose proof (applyBooster_score (Booster.type b) s) as Sc.
      pose proof (applyBooster_keeps boosters (fun _ _ => eq_refl)
                    (fun _ _ => eq_refl) (fun _ _ => eq_refl) (fun _ _ => eq_refl)
                    (fun _ _ => eq_refl) (Booster.type b) s) as Kb.
      pose proof (applyBooster_keeps player (fun _ _ => eq_refl)
                    (fun _ _ => eq_refl) (fun _ _ => eq_refl) (fun _ _ => eq_refl)
                    (fun _ _ => eq_refl) (Booster.type b) s) as Kp.
      destruct (applyBooster (Booster.type b) s) as [[] s1|]; [|discriminate R].
      cbn [state_of] in Sc, Kb, Kp.
      destruct (IH (set_boosters (splice k (boosters s1)) s1)) as (I1 & I2 & I3).
      * cbn [player set_boosters]. congruence.
      * cbn [boosters set_boosters]. rewrite Kb.
        pose proof (splice_length (boosters s) k). lia.
      * cbn [boosters set_boosters score player] in I1, I2.
        rewrite Kb in I1, I2, I3 |- *.
        rewrite splice_firstn in I1, I2. rewrite splice_skipn in I1 by lia.
        rewrite I1, I2, Sc, I3, app_nil_r.
        split; [reflexivity|]. split; [|reflexivity].
        destruct (is_type (Booster.type b) "score"); rewrite length_app;
          cbn [List.length]; lia.
    + destruct (IH s Hp) as (I1 & I2 & I3); [lia|].
      rewrite (skipn_nth _ _ _ Hb) in I1.
      rewrite I1, I2, I3, <- app_assoc, app_nil_r. repeat split.
Qed.

End Pickup.

(** X11.  The pickup loop of lines 241-250 returns; it leaves the ship
    alone and removes from the booster array exactly the boosters within 20
    of the ship's centre on both axes, keeping the others in their order;
    and the score grows by 50 for each score booster among those removed,
    and by nothing else. *)
Theorem pickup_removes_what_is_picked (s : state) :
  exists s',
    booster_loop (List.length (boosters s)) s = Ok tt s'
    /\ player s' = player s
    /\ boosters s'
       = filter (fun b => negb (picked_up b (player s))) (boosters s)
    /\ score s'
       = (score s
          + 50 * Z.of_nat
                   (List.length
                      (filter (fun b => picked_up b (player s)
                                        && is_type (Booster.type b) "score")
                         (boosters s))))%Z.
Proof.
  pose proof (booster_loop_returns (List.length (boosters s)) s (le_n _)) as R.
  destruct (booster_loop_sweep (player s) (List.length (boosters s)) s eq_refl (le_n _))
    as (H1 & H2 & H3).
  exists (state_of (booster_loop (List.length (boosters s)) s)).
  split; [apply returns_state; exact R|].
  rewrite firstn_all, skipn_all, app_nil_r in H1. rewrite firstn_all in H2.
  split; [exact H3|]. split; [exact H1 | exact H2].
Qed.

(** ** The shield *)

Lemma shield_decay_positive dt s :
  shieldActive (shield_decay dt s) = true -> 0 < shieldTimer (shield_decay dt s).
Proof.
  unfold shield_decay. destruct (shieldActive s) eqn:On.
  - cbn [shieldTimer set_shieldTimer].
    destruct (Qle_bool (shieldTimer s - dt) 0) eqn:E.
    + cbn [shieldActive set_shieldActive]. discriminate.
    + intros _. cbn [shieldTimer set_shieldTimer].
      apply Qnot_le_lt. intro L. apply Qle_bool_iff in L. congruence.
  - rewrite On. discriminate.
Qed.

Section ShieldTimer.

Variable host : Host.

Lemma update_shield dt s : timed (shield s) -> timed (shield (state_of (update host dt s))).
Proof.
  intro H.
  pose proof (advance_after_move host shield (fun _ _ => eq_refl) (fun _ _ => eq_refl)
                (fun _ _ => eq_refl) (fun _ _ => eq_refl) (fun _ _ => eq_refl)
                (fun _ _ => eq_refl) (fun _ _ => eq_refl) dt s) as K.
  change (shield (move_player host dt s)) with (shield s) in K.
  rewrite update_unfold.
  destruct (advance host dt s) as [[] mid|e s']; cbn [state_of] in K |- *.
  - destruct (resolve_result dt mid) as (s1 & s2 & _ & _ & E & _).
    rewrite E. cbn [state_of]. unfold timed, shield. cbn [fst snd].
    apply shield_decay_positive.
  - rewrite K. exact H.
Qed.

Lemma loop_shield now s : timed (shield s) -> timed (shield (state_of (loop host now s))).
Proof.
  intro H. destruct (running s) eqn:Hr.
  - rewrite (loop_running host shield) by (reflexivity || exact Hr).
    apply update_shield. exact H.
  - rewrite (loop_stopped host now s Hr). exact H.
Qed.

Lemma initGame_shield diff s : timed (shield (state_of (initGame host diff s))).
Proof.
  destruct (difficulty diff) as [set| |] eqn:D.
  - rewrite (initGame_own host diff set s D). apply loop_shield.
    unfold timed, shield. cbn. discriminate.
  - rewrite (initGame_inherited host diff s D). apply loop_shield.
    unfold timed, shield. cbn. discriminate.
  - unfold initGame, bind, modify, throw. rewrite D.
    unfold timed, shield. cbn. discriminate.
Qed.

(** X12.  In every state the page can reach, an active shield has time
    left: the flag is on only while the timer is above zero.  The step
    that brings the timer to zero or below switches the flag off in that
    same step, a pickup sets both, and a step that throws has touched
    neither. *)
Theorem active_shield_has_time_left (es : list event) :
  shieldActive (play host es) = true -> 0 < shieldTimer (play host es).
Proof.
  assert (H : timed (shield (play host es))).
  { unfold play.
    apply (run_invariant host shield timed); try (intros; reflexivity).
    - apply loop_shield.
    - apply initGame_shield.
    - unfold timed, shield. cbn. discriminate. }
  exact H.
Qed.

End ShieldTimer.

(** ** The ship *)

Section ShipMoves.

Variable host : Host.

(** X13.  A ship inside its bounds moves toward the side that is held,
    at 220 a second, and no further than the margin: in a step of length
    [dt >= 0] with only left held its new [x] is [max(10, x - 220 * dt)],
    with only right held it is [min(c.width - 10 - w, x + 220 * dt)], and
    with neither held it is [x].  Each is the value the script computes,
    so the equations do not depend on how the products round. *)
Theorem ship_moves_toward_held_side (dt : Q) (s : state) :
  0 <= dt ->
  10 <= Player.x (player s) ->
  Player.x (player s) <= c_width host - 10 - Player.w (player s) ->
  (pressed_left s = false -> pressed_right s = false ->
   Player.x (player (state_of (update host dt s))) == Player.x (player s))
  /\ (pressed_left s = true -> pressed_right s = false ->
      Player.x (player (state_of (update host dt s)))
      == Qmax 10 (Player.x (player s) - 220 * dt)
      /\ Player.x (player (state_of (update host dt s))) <= Player.x (player s))
  /\ (pressed_left s = false -> pressed_right s = true ->
      Player.x (player (state_of (update host dt s)))
      == Qmin (c_width host - 10 - Player.w (player s))
              (Player.x (player s) + 220 * dt)
      /\ Player.x (player s) <= Player.x (player (state_of (update host dt s)))).
Proof.
  intros Dt Lo Hi. rewrite update_player, move_player_x.
  set (x := Player.x (player s)) in *.
  set (hi := c_width host - 10 - Player.w (player s)) in *.
  split; [|split].
  - intros L R. rewrite L, R. cbn zeta.
    destruct (Q.max_spec 10 (Qmin hi x)) as [[M1 E]|[M1 E]];
      destruct (Q.min_spec hi x) as [[M E2]|[M E2]]; lra.
  - intros L R. rewrite L, R. cbn zeta.
    destruct (Q.max_spec 10 (Qmin hi (x - 220 * dt))) as [[M1 E]|[M1 E]];
      destruct (Q.min_spec hi (x - 220 * dt)) as [[M E2]|[M E2]];
      destruct (Q.max_spec 10 (x - 220 * dt)) as [[M3 E3]|[M3 E3]];
      split; lra.
  - intros L R. rewrite L, R. cbn zeta.
    destruct (Q.max_spec 10 (Qmin hi (x + 220 * dt))) as [[M1 E]|[M1 E]];
      destruct (Q.min_spec hi (x + 220 * dt)) as [[M E2]|[M E2]];
      split; lra.
Qed.

(** X14.  On a canvas too narrow for the ship between the two margins,
    a simulation step parks the ship on the left margin, whatever is held:
    its [x] is 10 and its right side is past the right margin. *)
Theorem narrow_canvas_parks_ship (dt : Q) (s : state) :
  c_width host - 10 - Player.w (player s) < 10 ->
  Player.x (player (state_of (update host dt s))) == 10
  /\ c_width host - 10
     < Player.x (player (state_of (update host dt s)))
       + Player.w (player (state_of (update host dt s))).
Proof.
  intro narrow.
  assert (E : Player.x (player (state_of (update host dt s))) == 10).
  { rewrite update_player, move_player_x. apply clamp_empty. exact narrow. }
  split; [exact E|].
  assert (W : Player.w (player (state_of (update host dt s))) = Player.w (player s)).
  { rewrite update_player. reflexivity. }
  rewrite W. lra.
Qed.

End ShipMoves.

(** ** The keys *)

(** X15.  A key other than the six that [update] reads is ignored:
    pressing or releasing it changes nothing of what the next step sees as
    held.  The names are compared as they are, so [A] is not [a]. *)
Theorem other_keys_are_ignored (host : Host) (k : string) (s : state) :
  ~ In k game_keys ->
  pressed (step host s (keydown k)) = pressed s
  /\ pressed (step host s (keyup k)) = pressed s.
Proof.
  intro H. unfold game_keys in H. cbn [In] in H.
  assert (N : forall g, In g game_keys -> String.eqb g k = false).
  { intros g Hg. apply String.eqb_neq. intros ->.
    apply H. unfold game_keys in Hg. cbn [In] in Hg. exact Hg. }
  unfold pressed, step, pressed_left, pressed_right, pressed_fire.
  cbn [listener modify state_of assign_key keys set_keys touchLeft touchRight touchFire].
  rewrite !N by (unfold game_keys; cbn [In]; tauto).
  split; reflexivity.
Qed.

(** ** Bullets *)

Section HoldFire.

Variable host : Host.

Lemma advance_bullets dt s :
  bullets (state_of (advance host dt s)) = bullets (aimed host dt s).
Proof.
  pose proof (spawn_timer_keeps host bullets (fun _ _ => eq_refl) (fun _ _ => eq_refl)
                (fun _ _ => eq_refl) (fun _ _ => eq_refl) dt (aimed host dt s)) as K.
  rewrite advance_unfold.
  destruct (spawn_timer host dt (aimed host dt s)) as [[] s'|e s'];
    cbn [state_of] in K |- *; [|exact K].
  cbn [move_boosters move_asteroids bullets set_boosters set_asteroids]. exact K.
Qed.

Lemma shoot_holds_fire s :
  pressed_fire s = false \/ fireRate s = None ->
  bullets (state_of (shoot host s)) = bullets s.
Proof.
  intros [H|H].
  - rewrite (shoot_idle host s H). reflexivity.
  - unfold shoot, bind at 1, get. destruct (pressed_fire s); [|reflexivity].
    unfold bind at 1, performance_now at 1. cbn [lastShot fireRate set_nowCalls].
    rewrite H. reflexivity.
Qed.

(** X16.  No bullet without a trigger: in a simulation step taken while
    no fire key or fire zone is held, or while the fire rate is
    [undefined], the bullet array does not grow, whether the step returns
    or throws. *)
Theorem no_bullet_without_fire (dt : Q) (s : state) :
  pressed_fire s = false \/ fireRate s = None ->
  (List.length (bullets (state_of (update host dt s))) <= List.length (bullets s))%nat.
Proof.
  intro H.
  assert (A : (List.length (bullets (state_of (advance host dt s)))
               <= List.length (bullets s))%nat).
  { rewrite advance_bullets. unfold aimed, move_bullets. cbn [bullets set_bullets].
    rewrite shoot_holds_fire by exact H.
    eapply Nat.le_trans; [apply filter_length_le|].
    rewrite length_map. apply Nat.le_refl. }
  rewrite update_unfold.
  destruct (advance host dt s) as [[] mid|e s']; cbn [state_of] in A |- *; [|exact A].
  pose proof (resolve_lengths dt mid) as (L & _). lia.
Qed.

(** X17.  Without a shield, a simulation step raises one alert for each
    asteroid that is over the ship once everything has moved, shot or not:
    as many alerts as such asteroids. *)
Theorem one_alert_per_overlap (dt : Q) (s : state) :
  shieldActive s = false ->
  returns (advance host dt s) = true ->
  List.length (alerts (state_of (update host dt s)))
  = (List.length (alerts s)
     + List.length (filter (over_ship (state_of (advance host dt s)))
                      (asteroids (state_of (advance host dt s)))))%nat.
Proof.
  intros Off R.
  destruct (advance_frame host dt s) as (Fs & _ & Fa).
  rewrite update_unfold.
  destruct (advance host dt s) as [[] mid|e s']; [|discriminate R].
  cbn [state_of] in Fs, Fa |- *.
  rewrite resolve_alerts by congruence. rewrite Fa. reflexivity.
Qed.

End HoldFire.

(** ** The score of a step *)

(** X18.  The collision stage of a step scores 10 for each asteroid it
    removes and 50 for each score booster the ship picks up, and nothing
    else. *)
Theorem score_accounting (dt : Q) (s : state) :
  score (state_of (resolve dt s))
  = (score s
     + 10 * (Z.of_nat (List.length (asteroids s))
             - Z.of_nat (List.length (asteroids (state_of (resolve dt s)))))
     + 50 * Z.of_nat (List.length (filter (bonus s) (boosters s))))%Z.
Proof.
  destruct (resolve_result dt s) as (s1 & s2 & E1 & E2 & E & _ & _ & Ha & _).
  rewrite E. cbn [state_of]. rewrite Ha.
  rewrite shield_decay_keeps by (intros; reflexivity).
  pose proof (asteroid_loop_inv
                (fun s' => (score s' + 10 * Z.of_nat (List.length (asteroids s'))
                            = score s + 10 * Z.of_nat (List.length (asteroids s)))%Z
                           /\ boosters s' = boosters s /\ player s' = player s)) as L.
  specialize (L ltac:(
    intros i j a s0 Hn (I1 & I2 & I3);
    destruct (on_hit_result i j a s0) as (s' & Eh & _ & Hc);
    pose proof (on_hit_keeps boosters (fun _ _ => eq_refl) (fun _ _ => eq_refl)
                  (fun _ _ => eq_refl) (fun _ _ => eq_refl) i j a s0) as Kb;
    pose proof (on_hit_keeps player (fun _ _ => eq_refl) (fun _ _ => eq_refl)
                  (fun _ _ => eq_refl) (fun _ _ => eq_refl) i j a s0) as Kp;
    rewrite Eh in Kb, Kp |- *; cbn [state_of] in Kb, Kp |- *;
    split; [|split; congruence];
    assert (Hi : (i < List.length (asteroids s0))%nat)
      by (apply nth_error_Some; congruence);
    pose proof (splice_length (asteroids s0) i Hi);
    destruct (Asteroid.hp a - 1 <=? 0)%Z; destruct Hc as [Hc1 Hc2];
    rewrite Hc1, Hc2, ?store_length; lia)).
  specialize (L ltac:(
    intros a s0 (I1 & I2 & I3);
    destruct (collided_frame a s0) as (Cp & _ & Ca & _ & Cs);
    rewrite Cp, Ca, Cs, collided_boosters; tauto)).
  specialize (L (List.length (asteroids s)) s (le_n _)
                (conj eq_refl (conj eq_refl eq_refl))).
  rewrite E1 in L. cbn [state_of] in L. destruct L as (L1 & L2 & L3).
  destruct (booster_loop_sweep (player s1) (List.length (boosters s1)) s1
              eq_refl (le_n _)) as (_ & S2 & _).
  assert (Ka : asteroids (state_of (booster_loop (List.length (boosters s1)) s1))
               = asteroids s1) by (apply booster_loop_keeps; intros; reflexivity).
  rewrite E2 in S2, Ka. cbn [state_of] in S2, Ka.
  rewrite firstn_all in S2. rewrite S2.
  unfold bonus. rewrite L2, L3. lia.
Qed.

(** ** A start that fails *)

(** X19.  [initGame] reads the difficulty entry only after it has reset
    the game, so for an identifier the table lacks it throws with the field
    already wiped: the three arrays are empty, the score and the score shown
    are zero, the shield is off and the ship is back in mid canvas. *)
Theorem failed_start_wipes_field (host : Host) (diff : string) (s : state) :
  difficulty diff = Undefined ->
  exists s',
    initGame host diff s = Throw TypeError s'
    /\ bullets s' = [] /\ asteroids s' = [] /\ boosters s' = []
    /\ score s' = 0%Z /\ scoreEl s' = 0%Z
    /\ shieldActive s' = false
    /\ player s' = {| Player.x := c_width host / 2; Player.y := c_height host - 60;
                      Player.w := 36; Player.h := 28 |}.
Proof.
  intro D. unfold initGame, bind, modify, throw. rewrite D.
  eexists. split; [reflexivity|]. cbn. repeat split.
Qed.

(** * Hits across the steps *)

Lemma filter_map_nth {A B} (f : B -> bool) (g : A -> B) (l l' : list A) :
  forall i a,
  nth_error l i = Some a ->
  f (g a) = true ->
  nth_error (filter f (map g (l ++ l')))
    (List.length (filter (fun x => f (g x)) (firstn i l)))
  = Some (g a).
Proof.
  induction l as [|x l IH]; intros [|i] a Ha Hf; try discriminate Ha.
  - injection Ha as ->. cbn [firstn filter List.length app map]. rewrite Hf. reflexivity.
  - cbn [nth_error] in Ha. cbn [firstn filter app map].
    destruct (f (g x)); cbn [List.length nth_error]; apply IH; assumption.
Qed.

Lemma store_skipn_at {A} (l : list A) (i : nat) (v : A) :
  (i < List.length l)%nat -> skipn i (store i v l) = v :: skipn (S i) l.
Proof.
  intro H. rewrite (skipn_nth (store i v l) i v) by (apply store_nth; exact H).
  rewrite store_skipn. reflexivity.
Qed.

(** The loop above an index leaves the array as it is up to that index,
    and the whole loop goes on from there. *)
Lemma asteroid_loop_above_result j k :
  forall s,
  (j < k)%nat -> (k <= List.length (asteroids s))%nat ->
  exists s',
    asteroid_loop_above j k s = Ok tt s'
    /\ firstn (S j) (asteroids s') = firstn (S j) (asteroids s)
    /\ (S j <= List.length (asteroids s'))%nat
    /\ asteroid_loop k s = asteroid_loop (S j) s'.
Proof.
  induction k as [|k IH]; intros s Hj Hk; [lia|].
  cbn [asteroid_loop_above]. destruct (Nat.leb_spec k j) as [Hle|Hgt].
  - assert (k = j) by lia. subst k. exists s. repeat split. exact Hk.
  - destruct (nth_error (asteroids s) k) as [a|] eqn:Ha;
      [|apply nth_error_None in Ha; lia].
    destruct (asteroid_iteration_result k s a Ha)
      as (s1 & _ & E & _ & _ & _ & _ & Hf & Hl).
    destruct (collided_frame a s1) as (_ & _ & Ca & _).
    destruct (IH (collided a s1)) as (s' & E' & Hf' & Hl' & El); [lia | rewrite Ca; exact Hl|].
    exists s'. unfold bind at 1. rewrite E. split; [exact E'|].
    split; [|split; [exact Hl'|]].
    + rewrite Hf', Ca. apply (firstn_shorter _ _ (S j) k Hf). lia.
    + cbn [asteroid_loop]. unfold bind at 1. rewrite E. exact El.
Qed.

(** The loop below an index leaves the array as it is from that index on. *)
Lemma asteroid_loop_suffix k :
  forall s,
  (k <= List.length (asteroids s))%nat ->
  exists s' before,
    asteroid_loop k s = Ok tt s'
    /\ asteroids s' = before ++ skipn k (asteroids s).
Proof.
  induction k as [|k IH]; intros s Hk.
  - exists s, []. split; reflexivity.
  - destruct (nth_error (asteroids s) k) as [a|] eqn:Ha;
      [|apply nth_error_None in Ha; lia].
    destruct (asteroid_iteration_result k s a Ha)
      as (s1 & E1 & E & _ & _ & _ & _ & _ & Hl).
    destruct (collided_frame a s1) as (_ & _ & Ca & _).
    destruct (IH (collided a s1)) as (s' & before & E' & Hs'); [rewrite Ca; exact Hl|].
    rewrite Ca in Hs'.
    assert (Hsk : exists mid, skipn k (asteroids s1) = mid ++ skipn (S k) (asteroids s)).
    { destruct (bullet_loop_result k a (List.length (bullets s)) s (le_n _))
        as [[E0 _]|(j0 & b0 & _ & _ & _ & E0)].
      - assert (s1 = s) by congruence. subst s1.
        exists [a]. apply (skipn_nth _ _ _ Ha).
      - destruct (on_hit_result k j0 a s) as (s3 & E3 & _ & Hc3).
        assert (s3 = s1) by congruence. subst s3.
        destruct (Asteroid.hp a - 1 <=? 0)%Z; destruct Hc3 as [Hc3 _]; rewrite Hc3.
        + exists []. apply splice_skipn. lia.
        + exists [wounded a]. apply store_skipn_at. lia. }
    destruct Hsk as (mid & Hsk).
    exists s', (before ++ mid). cbn [asteroid_loop]. unfold bind at 1. rewrite E.
    split; [exact E'|]. rewrite Hs', Hsk, app_assoc. reflexivity.
Qed.

Section HitsAcrossSteps.

Variable host : Host.

Lemma advance_asteroids dt s range :
  asteroidSpeed s = Some range ->
  exists new mid,
    advance host dt s = Ok tt mid
    /\ asteroids mid
       = filter (fun a => Qltb (Asteroid.y a) (c_height host + 40))
           (map (Asteroid.move dt) (asteroids s ++ new)).
Proof.
  intro Hr. destruct (aimed_arrays host dt s) as (Aa & _ & Ar).
  rewrite advance_unfold.
  destruct (num_le (num_sub (spawn (aimed host dt s)) dt) 0) eqn:H.
  - destruct (spawn_timer_fires host dt (aimed host dt s) range) as
      (a & c & bs & n & E & _); [congruence | exact H|].
    rewrite E. exists [a]. eexists. split; [reflexivity|].
    cbn [asteroids move_boosters set_boosters move_asteroids set_asteroids].
    rewrite Aa. reflexivity.
  - rewrite (spawn_timer_idle host dt (aimed host dt s) H).
    exists []. eexists. split; [reflexivity|].
    cbn [asteroids move_boosters set_boosters move_asteroids set_asteroids set_spawn].
    rewrite Aa, app_nil_r. reflexivity.
Qed.

(** One step, for the asteroid at index [i]: where the loop finds it, what
    its iteration does, and where it is afterwards. *)
Lemma step_of_asteroid dt s i a range :
  asteroidSpeed s = Some range ->
  nth_error (asteroids s) i = Some a ->
  stays host dt a = true ->
  asteroid_loop (List.length (asteroids (state_of (advance host dt s))))
    (state_of (advance host dt s))
  = asteroid_loop (S (arrival host dt s i)) (at_turn host dt s i)
  /\ nth_error (asteroids (at_turn host dt s i)) (arrival host dt s i)
     = Some (Asteroid.move dt a)
  /\ List.length (bullets (at_turn host dt s i))
     = ((if is_hit host dt s i then 1 else 0)
        + List.length (bullets (after_turn host dt s i)))%nat
  /\ is_gone host dt s i = is_hit host dt s i && (Asteroid.hp a - 1 <=? 0)%Z
  /\ score (after_turn host dt s i)
     = (score (at_turn host dt s i) + (if is_gone host dt s i then 10 else 0))%Z
  /\ (is_gone host dt s i = false ->
      nth_error (asteroids (state_of (update host dt s))) (next_index host dt s i)
      = Some (if is_hit host dt s i then wounded (Asteroid.move dt a)
              else Asteroid.move dt a)).
Proof.
  intros Hr Ha Hs.
  destruct (advance_asteroids dt s range Hr) as (new & mid & Ea & Hm).
  assert (Hj : nth_error (asteroids mid) (arrival host dt s i)
               = Some (Asteroid.move dt a)).
  { rewrite Hm. unfold arrival.
    exact (filter_map_nth (fun a => Qltb (Asteroid.y a) (c_height host + 40))
             (Asteroid.move dt) (asteroids s) new i a Ha Hs). }
  assert (Hjl : (arrival host dt s i < List.length (asteroids mid))%nat)
    by (apply nth_error_Some; congruence).
  destruct (asteroid_loop_above_result (arrival host dt s i)
              (List.length (asteroids mid)) mid Hjl (le_n _))
    as (sa & Eab & Hf & Hl & Eloop).
  assert (At : at_turn host dt s i = sa).
  { unfold at_turn. rewrite Ea. cbn [state_of]. rewrite Eab. reflexivity. }
  assert (Hb : nth_error (asteroids sa) (arrival host dt s i)
               = Some (Asteroid.move dt a)).
  { rewrite (firstn_nth _ _ (arrival host dt s i) (S (arrival host dt s i)) Hf) by lia.
    exact Hj. }
  destruct (asteroid_iteration_result (arrival host dt s i) sa (Asteroid.move dt a) Hb)
    as (s1 & E1 & Eit & _).
  assert (Af : after_turn host dt s i = collided (Asteroid.move dt a) s1).
  { unfold after_turn. rewrite At, Eit. reflexivity. }
  destruct (collided_frame (Asteroid.move dt a) s1) as (_ & _ & Ca & Cb & Cs).
  assert (Hit : is_hit host dt s i
                = existsb (bullet_hits (Asteroid.move dt a)) (bullets sa)).
  { unfold is_hit. rewrite At, Hb. reflexivity. }
  assert (Gone : is_gone host dt s i
                 = (List.length (asteroids s1) <? List.length (asteroids sa))%nat).
  { unfold is_gone. rewrite Af, At, Ca. reflexivity. }
  assert (Tail : forall e,
             nth_error (asteroids s1) (arrival host dt s i) = Some e ->
             nth_error (asteroids (state_of (update host dt s))) (next_index host dt s i)
             = Some e).
  { intros e He.
    assert (Hle : (arrival host dt s i <= List.length (asteroids (collided (Asteroid.move dt a) s1)))%nat).
    { rewrite Ca. apply Nat.lt_le_incl. apply nth_error_Some. congruence. }
    destruct (asteroid_loop_suffix (arrival host dt s i) (collided (Asteroid.move dt a) s1) Hle)
      as (s' & before & E' & Hs').
    destruct (resolve_result dt mid) as (r1 & r2 & Er1 & _ & Er & _ & _ & Hra & _).
    assert (r1 = s').
    { rewrite Eloop in Er1. cbn [asteroid_loop] in Er1. unfold bind at 1 in Er1.
      rewrite Eit in Er1. congruence. }
    subst r1.
    assert (Up : asteroids (state_of (update host dt s)) = asteroids s').
    { rewrite update_unfold, Ea, Er. cbn [state_of]. exact Hra. }
    rewrite Ca in Hs'. rewrite (skipn_nth _ _ _ He) in Hs'.
    unfold next_index. rewrite Up, Af, Ca, Hs'.
    assert (L : (arrival host dt s i < List.length (asteroids s1))%nat)
      by (apply nth_error_Some; congruence).
    pose proof (length_skipn (S (arrival host dt s i)) (asteroids s1)) as Lk.
    rewrite length_app. cbn [List.length].
    replace (List.length before + S (List.length (skipn (S (arrival host dt s i)) (asteroids s1)))
             - (List.length (asteroids s1) - arrival host dt s i))%nat
      with (List.length before) by lia.
    rewrite nth_error_app2 by lia. rewrite Nat.sub_diag. reflexivity. }
  split; [rewrite Ea, At; exact Eloop|].
  split; [rewrite At; exact Hb|].
  rewrite Hit, Gone, Af, At, Cb, Cs.
  destruct (bullet_loop_one_hit (arrival host dt s i) sa (Asteroid.move dt a) Hb)
    as (s1' & E1' & _ & [[Es Hno]|(j' & b' & Hnb & Hh & _ & Hlen & Hth)]);
    assert (s1' = s1) by congruence; subst s1'.
  - subst s1.
    assert (N : existsb (bullet_hits (Asteroid.move dt a)) (bullets sa) = false).
    { destruct (existsb _ _) eqn:X; [|reflexivity].
      apply existsb_exists in X. destruct X as (b & Hin & Hb').
      rewrite (Hno b Hin) in Hb'. discriminate Hb'. }
    rewrite N, Nat.ltb_irrefl. cbn [andb].
    split; [reflexivity|]. split; [reflexivity|]. split; [lia|].
    intros _. apply Tail. exact Hb.
  - assert (Y : existsb (bullet_hits (Asteroid.move dt a)) (bullets sa) = true).
    { apply existsb_exists. exists b'. split; [apply (nth_error_In _ _ Hnb) | exact Hh]. }
    rewrite Y. cbn [andb].
    unfold take_hit in Hth.
    change (Asteroid.hp (wounded (Asteroid.move dt a))) with (Asteroid.hp a - 1)%Z in Hth.
    destruct (Asteroid.hp a - 1 <=? 0)%Z.
    + destruct Hth as (Hsp & Hsc).
      assert (G : (List.length (asteroids s1) <? List.length (asteroids sa))%nat = true).
      { apply Nat.ltb_lt. rewrite Hsp.
        pose proof (splice_length (asteroids sa) (arrival host dt s i)) as L.
        assert ((arrival host dt s i < List.length (asteroids sa))%nat)
          by (apply nth_error_Some; congruence).
        lia. }
      rewrite G. split; [lia|]. split; [reflexivity|]. split; [exact Hsc|].
      intro F. discriminate F.
    + destruct Hth as (Hn & Hle & _ & Hsc).
      rewrite Hle, Nat.ltb_irrefl. split; [lia|]. split; [reflexivity|].
      split; [lia|]. intros _. apply Tail. exact Hn.
Qed.

Lemma follow_hit_points dts :
  forall s i a m0 s' i' m range,
  asteroidSpeed s = Some range ->
  nth_error (asteroids s) i = Some a ->
  (0 < Asteroid.hp a)%Z ->
  follow host dts s i m0 = Some (s', i', m) ->
  (m0 <= m)%nat
  /\ exists a',
       nth_error (asteroids s') i' = Some a'
       /\ (0 < Asteroid.hp a')%Z
       /\ Asteroid.hp a' = (Asteroid.hp a - Z.of_nat (m - m0))%Z
       /\ (Asteroid.x a', Asteroid.vy a', Asteroid.radius a', Asteroid.points a')
          = (Asteroid.x a, Asteroid.vy a, Asteroid.radius a, Asteroid.points a)
       /\ asteroidSpeed s' = Some range.
Proof.
  induction dts as [|dt dts IH]; intros s i a m0 s' i' m range Hr Ha Hp F.
  - cbn [follow] in F. injection F as <- <- <-.
    split; [lia|]. exists a. split; [exact Ha|]. split; [exact Hp|].
    split; [rewrite Nat.sub_diag; cbn; lia|]. split; [reflexivity | exact Hr].
  - cbn [follow] in F. rewrite Ha in F.
    destruct (stays host dt a) eqn:Hs; [|discriminate F].
    destruct (is_gone host dt s i) eqn:G; [discriminate F|].
    cbn [andb negb] in F.
    destruct (step_of_asteroid dt s i a range Hr Ha Hs) as (_ & _ & _ & Hg & _ & Hn).
    specialize (Hn G). rewrite G in Hg.
    assert (Kr : asteroidSpeed (state_of (update host dt s)) = Some range).
    { rewrite (update_keeps host asteroidSpeed) by (intros; reflexivity). exact Hr. }
    destruct (is_hit host dt s i).
    + cbn [andb] in Hg. symmetry in Hg. apply Z.leb_gt in Hg.
      destruct (IH _ _ (wounded (Asteroid.move dt a)) (S m0) s' i' m range Kr Hn)
        as (Hm & a' & Ha' & Hp' & Hhp & Hid & Hr'); [cbn; lia | exact F|].
      split; [lia|]. exists a'. split; [exact Ha'|]. split; [exact Hp'|].
      split; [rewrite Hhp; cbn [wounded Asteroid.set_hp Asteroid.move Asteroid.hp]; lia|].
      split; [rewrite Hid; reflexivity | exact Hr'].
    + destruct (IH _ _ (Asteroid.move dt a) m0 s' i' m range Kr Hn)
        as (Hm & a' & Ha' & Hp' & Hhp & Hid & Hr'); [exact Hp | exact F|].
      split; [exact Hm|]. exists a'. split; [exact Ha'|]. split; [exact Hp'|].
      split; [rewrite Hhp; reflexivity|].
      split; [rewrite Hid; reflexivity | exact Hr'].
Qed.

End HitsAcrossSteps.

(** C5.  [spawnAsteroid] gives an asteroid between two and five
    hit-points.  In the iteration of the collision loop for an asteroid,
    which leaves the asteroids still to visit as they are, either no
    bullet hits it and nothing changes, or exactly one bullet is removed
    and its hit-points drop by one; the asteroid is removed, and the score
    grows by 10, exactly when that hit brings the hit-points to zero, and
    the score is unchanged by a hit it survives.  And across the steps:
    take the asteroid at index [i] of a state, with [n > 0] hit-points, and
    any simulation steps in which it neither leaves the field nor is
    removed; if it was hit in [m] of them, then [m < n], and it is still in
    the array, the same asteroid with [n - m] hit-points: moving it, the
    timer, the spawns and the other asteroids' collisions change none.  In
    the step that follows, the collision loop, having run from the last
    index down, reaches it at the index [arrival] in the state [at_turn];
    its iteration consumes one bullet if it is hit and none otherwise,
    removes it exactly when it is hit and that hit is the [n]-th, and
    scores 10 exactly then. *)
Theorem asteroid_dies_at_nth_hit :
  (forall host s range,
     (forall n, 0 <= random_src host n < 1) ->
     asteroidSpeed s = Some range ->
     exists s' a,
       spawnAsteroid host s = Ok tt s'
       /\ asteroids s' = asteroids s ++ [a]
       /\ (2 <= Asteroid.hp a <= 5)%Z)
  /\ (forall i s a,
     nth_error (asteroids s) i = Some a ->
     exists s1,
       bullet_loop i a (List.length (bullets s)) s = Ok tt s1
       /\ firstn i (asteroids s1) = firstn i (asteroids s)
       /\ ((s1 = s /\ forall b, In b (bullets s) -> bullet_hits a b = false)
           \/ exists j b,
                nth_error (bullets s) j = Some b
                /\ bullet_hits a b = true
                /\ bullets s1 = splice j (bullets s)
                /\ S (List.length (bullets s1)) = List.length (bullets s)
                /\ match take_hit a with
                   | Some a' =>
                       nth_error (asteroids s1) i = Some a'
                       /\ List.length (asteroids s1) = List.length (asteroids s)
                       /\ Asteroid.hp a' = (Asteroid.hp a - 1)%Z
                       /\ score s1 = score s
                   | None =>
                       asteroids s1 = splice i (asteroids s)
                       /\ score s1 = (score s + 10)%Z
                   end))
  /\ (forall host (dts : list Q) (s : state) (i : nat) (a : Asteroid.t) (n : nat)
             (range : Q * Q) (s' : state) (i' m : nat),
        asteroidSpeed s = Some range ->
        nth_error (asteroids s) i = Some a ->
        Asteroid.hp a = Z.of_nat n ->
        (0 < n)%nat ->
        follow host dts s i 0 = Some (s', i', m) ->
        (m < n)%nat
        /\ exists a',
             nth_error (asteroids s') i' = Some a'
             /\ Asteroid.hp a' = (Z.of_nat n - Z.of_nat m)%Z
             /\ (Asteroid.x a', Asteroid.vy a', Asteroid.radius a', Asteroid.points a')
                = (Asteroid.x a, Asteroid.vy a, Asteroid.radius a, Asteroid.points a)
             /\ forall dt,
                  stays host dt a' = true ->
                  asteroid_loop
                    (List.length (asteroids (state_of (advance host dt s'))))
                    (state_of (advance host dt s'))
                  = asteroid_loop (S (arrival host dt s' i')) (at_turn host dt s' i')
                  /\ nth_error (asteroids (at_turn host dt s' i'))
                       (arrival host dt s' i')
                     = Some (Asteroid.move dt a')
                  /\ List.length (bullets (at_turn host dt s' i'))
                     = ((if is_hit host dt s' i' then 1 else 0)
                        + List.length (bullets (after_turn host dt s' i')))%nat
                  /\ is_gone host dt s' i'
                     = is_hit host dt s' i' && (S m =? n)%nat
                  /\ score (after_turn host dt s' i')
                     = (score (at_turn host dt s' i')
                        + (if is_gone host dt s' i' then 10 else 0))%Z).
Proof.
  split; [|split].
  - exact spawnAsteroid_hit_points.
  - exact bullet_loop_one_hit.
  - intros host dts s i a n range s' i' m Hr Ha Hn Hpos F.
    destruct (follow_hit_points host dts s i a 0%nat s' i' m range Hr Ha)
      as (_ & a' & Ha' & Hp' & Hhp & Hid & Hr'); [lia | exact F|].
    rewrite Nat.sub_0_r, Hn in Hhp.
    split; [lia|]. exists a'. split; [exact Ha'|]. split; [exact Hhp|].
    split; [exact Hid|]. intros dt Hs.
    destruct (step_of_asteroid host dt s' i' a' range Hr' Ha' Hs)
      as (L & A & B & C & D & _).
    split; [exact L|]. split; [exact A|]. split; [exact B|]. split; [|exact D].
    rewrite C. f_equal.
    destruct (Z.leb_spec (Asteroid.hp a' - 1) 0), (Nat.eqb_spec (S m) n);
      try reflexivity; lia.
Qed.

(** C5 on [volley_host], the space bar held: the asteroid spawned by the
    click has four hit-points; nine steps later it was hit in three of
    them and is still first in the array, with one hit-point; the tenth
    step hits it again. *)
Lemma asteroid_dies_at_nth_hit_witness :
  ((3 < 4)%nat
   /\ exists a',
        nth_error (asteroids volley_end) 0 = Some a'
        /\ Asteroid.hp a' = (Z.of_nat 4 - Z.of_nat 3)%Z
        /\ (Asteroid.x a', Asteroid.vy a', Asteroid.radius a', Asteroid.points a')
           = (Asteroid.x (nth 0 (asteroids volley_start) boulder),
              Asteroid.vy (nth 0 (asteroids volley_start) boulder),
              Asteroid.radius (nth 0 (asteroids volley_start) boulder),
              Asteroid.points (nth 0 (asteroids volley_start) boulder))
        /\ forall dt,
             stays volley_host dt a' = true ->
             asteroid_loop
               (List.length (asteroids (state_of (advance volley_host dt volley_end))))
               (state_of (advance volley_host dt volley_end))
             = asteroid_loop (S (arrival volley_host dt volley_end 0))
                 (at_turn volley_host dt volley_end 0)
             /\ nth_error (asteroids (at_turn volley_host dt volley_end 0))
                  (arrival volley_host dt volley_end 0)
                = Some (Asteroid.move dt a')
             /\ List.length (bullets (at_turn volley_host dt volley_end 0))
                = ((if is_hit volley_host dt volley_end 0 then 1 else 0)
                   + List.length (bullets (after_turn volley_host dt volley_end 0)))%nat
             /\ is_gone volley_host dt volley_end 0
                = is_hit volley_host dt volley_end 0 && (4 =? 4)%nat
             /\ score (after_turn volley_host dt volley_end 0)
                = (score (at_turn volley_host dt volley_end 0)
                   + (if is_gone volley_host dt volley_end 0 then 10 else 0))%Z)
  /\ is_hit volley_host 0.04 volley_end 0 = true.
Proof.
  split; [|vm_compute; reflexivity].
  apply (proj2 (proj2 asteroid_dies_at_nth_hit) volley_host volley_steps
           volley_start 0%nat (nth 0 (asteroids volley_start) boulder) 4%nat (40, 60)).
  - vm_compute. reflexivity.
  - vm_compute. reflexivity.
  - vm_compute. reflexivity.
  - lia.
  - vm_compute. reflexivity.
Defined.

(** * The theorems above at concrete inputs *)

(** X4 on [demo_host], for the asteroid spawned next after the click. *)
Lemma spawnAsteroid_in_range_witness :
  exists a c,
    spawnAsteroid demo_host easy_start
    = Ok tt (set_asteroids (asteroids easy_start ++ [a]) (set_randomCalls c easy_start))
    /\ Asteroid.y a = -40
    /\ (0 <= Asteroid.x a /\ Asteroid.x a < c_width demo_host)
    /\ (40 <= Asteroid.vy a /\ Asteroid.vy a <= 60)
    /\ (15 <= Asteroid.radius a /\ Asteroid.radius a <= 45)
    /\ (2 <= Asteroid.hp a <= 5)%Z
    /\ (-0.75 <= Asteroid.rSpeed a /\ Asteroid.rSpeed a < 0.75)
    /\ (6 <= List.length (Asteroid.points a) <= 9)%nat
    /\ Forall (fun p => 0.7 * Asteroid.radius a <= Point.r p
                        /\ Point.r p <= 1.3 * Asteroid.radius a)
         (Asteroid.points a).
Proof.
  apply (spawnAsteroid_in_range demo_host).
  - intro n. cbn. split; lra.
  - cbn. lra.
  - lra.
  - vm_compute. reflexivity.
Defined.

(** X5 on [demo_host]. *)
Lemma spawnBooster_in_range_witness :
  exists b,
    spawnBooster demo_host easy_start
    = Ok tt (set_boosters (boosters easy_start ++ [b])
               (set_randomCalls (2 + randomCalls easy_start) easy_start))
    /\ Booster.y b = -20 /\ Booster.vy b = 100 /\ Booster.size b = 12
    /\ (30 <= Booster.x b /\ Booster.x b <= c_width demo_host - 30)
    /\ (Booster.type b = Some "fireRate"%string
        \/ Booster.type b = Some "shield"%string
        \/ Booster.type b = Some "score"%string).
Proof.
  apply (spawnBooster_in_range demo_host).
  - intro n. cbn. split; lra.
  - cbn. lra.
Defined.

(** X6 for the second step of an easy run. *)
Lemma update_leaves_field_witness :
  exists s',
    update demo_host 0.04 easy_start = Ok tt s'
    /\ Forall (fun b => -10 < Bullet.y b) (bullets s')
    /\ Forall (fun a => Asteroid.y a < c_height demo_host + 40) (asteroids s')
    /\ Forall (fun b => Booster.y b < c_height demo_host + 20) (boosters s').
Proof.
  apply (update_leaves_field demo_host) with (range := (40, 60)).
  - intro n. cbn. split; lra.
  - vm_compute. reflexivity.
Defined.

(** X7 for the same step. *)
Lemma update_adds_at_most_one_witness :
  exists s',
    update demo_host 0.04 easy_start = Ok tt s'
    /\ (List.length (bullets s') <= S (List.length (bullets easy_start)))%nat
    /\ (List.length (asteroids s') <= S (List.length (asteroids easy_start)))%nat
    /\ (List.length (boosters s') <= S (List.length (boosters easy_start)))%nat.
Proof.
  apply (update_adds_at_most_one demo_host) with (range := (40, 60)).
  - intro n. cbn. split; lra.
  - vm_compute. reflexivity.
Defined.

(** X8 after the click and one more frame. *)
Lemma reachable_objects_well_formed_witness :
  well_formed (flying (play demo_host [ click_startBtn "easy"; animation_frame 1040 ]))
  /\ draw (play demo_host [ click_startBtn "easy"; animation_frame 1040 ])
     = Ok tt (play demo_host [ click_startBtn "easy"; animation_frame 1040 ]).
Proof.
  apply (reachable_objects_well_formed demo_host).
  intro n. cbn. split; lra.
Defined.

(** X9 for the frame that [initGame] runs. *)
Lemma frame_of_known_difficulty_returns_witness :
  exists s',
    loop demo_host 1001 easy_prepared = Ok tt s'
    /\ rafQueue s' = S (rafQueue easy_prepared)
    /\ asteroidSpeed s' = Some (40, 60)
    /\ well_formed (flying s').
Proof.
  apply (frame_of_known_difficulty_returns demo_host).
  - intro n. cbn. split; lra.
  - reflexivity.
  - reflexivity.
  - unfold well_formed, flying, easy_prepared. cbn.
    split; [constructor|]. split; [constructor|]. split; [constructor|].
    intros _. split; reflexivity.
Defined.

(** X10 for [easy] on the page as loaded. *)
Lemma initGame_known_difficulty_returns_witness :
  exists s',
    initGame demo_host "easy" (loaded demo_host) = Ok tt s'
    /\ rafQueue s' = S (rafQueue (loaded demo_host))
    /\ spawnRate s' = Some (Difficulty.spawnRate easy)
    /\ asteroidSpeed s' = Some (Difficulty.asteroidSpeed easy)
    /\ well_formed (flying s').
Proof.
  apply (initGame_known_difficulty_returns demo_host).
  - intro n. cbn. split; lra.
  - reflexivity.
Defined.

(** X12 in the step of [shield_run] that picks up the shield booster. *)
Lemma active_shield_has_time_left_witness :
  shieldActive (play shield_host shield_run) = true
  /\ 0 < shieldTimer (play shield_host shield_run).
Proof.
  assert (On : shieldActive (play shield_host shield_run) = true)
    by (vm_compute; reflexivity).
  split; [exact On|].
  apply (active_shield_has_time_left shield_host shield_run). exact On.
Defined.

(** X13 for the second step of an easy run, the left arrow held. *)
Lemma ship_moves_toward_held_side_witness :
  (pressed_left easy_left = false -> pressed_right easy_left = false ->
   Player.x (player (state_of (update demo_host 0.04 easy_left)))
   == Player.x (player easy_left))
  /\ (pressed_left easy_left = true -> pressed_right easy_left = false ->
      Player.x (player (state_of (update demo_host 0.04 easy_left)))
      == Qmax 10 (Player.x (player easy_left) - 220 * 0.04)
      /\ Player.x (player (state_of (update demo_host 0.04 easy_left)))
         <= Player.x (player easy_left))
  /\ (pressed_left easy_left = false -> pressed_right easy_left = true ->
      Player.x (player (state_of (update demo_host 0.04 easy_left)))
      == Qmin (c_width demo_host - 10 - Player.w (player easy_left))
              (Player.x (player easy_left) + 220 * 0.04)
      /\ Player.x (player easy_left)
         <= Player.x (player (state_of (update demo_host 0.04 easy_left)))).
Proof.
  apply (ship_moves_toward_held_side demo_host).
  - lra.
  - vm_compute. discriminate.
  - vm_compute. discriminate.
Defined.

(** X14 on [narrow_host]. *)
Lemma narrow_canvas_parks_ship_witness :
  Player.x (player (state_of (update narrow_host 0.04
                                (play narrow_host [ click_startBtn "easy" ])))) == 10
  /\ c_width narrow_host - 10
     < Player.x (player (state_of (update narrow_host 0.04
                                     (play narrow_host [ click_startBtn "easy" ]))))
       + Player.w (player (state_of (update narrow_host 0.04
                                       (play narrow_host [ click_startBtn "easy" ])))).
Proof.
  apply (narrow_canvas_parks_ship narrow_host).
  vm_compute. reflexivity.
Defined.

(** X15 for the capital [A]. *)
Lemma other_keys_are_ignored_witness :
  pressed (step demo_host easy_start (keydown "A")) = pressed easy_start
  /\ pressed (step demo_host easy_start (keyup "A")) = pressed easy_start.
Proof.
  apply (other_keys_are_ignored demo_host).
  intro H. cbn in H.
  repeat (destruct H as [H|H]; [discriminate H|]). exact H.
Defined.

(** X16 for a step with nothing held. *)
Lemma no_bullet_without_fire_witness :
  (List.length (bullets (state_of (update demo_host 0.04 easy_start)))
   <= List.length (bullets easy_start))%nat.
Proof.
  apply (no_bullet_without_fire demo_host). left. reflexivity.
Defined.

(** X17 for the second step of an easy run. *)
Lemma one_alert_per_overlap_witness :
  List.length (alerts (state_of (update demo_host 0.04 easy_start)))
  = (List.length (alerts easy_start)
     + List.length (filter (over_ship (state_of (advance demo_host 0.04 easy_start)))
                      (asteroids (state_of (advance demo_host 0.04 easy_start)))))%nat.
Proof.
  apply (one_alert_per_overlap demo_host).
  - vm_compute. reflexivity.
  - vm_compute. reflexivity.
Defined.

(** X19 for a name that is not in the table, in the middle of an easy
    run. *)
Lemma failed_start_wipes_field_witness :
  exists s',
    initGame demo_host "nightmare" easy_start = Throw TypeError s'
    /\ bullets s' = [] /\ asteroids s' = [] /\ boosters s' = []
    /\ score s' = 0%Z /\ scoreEl s' = 0%Z
    /\ shieldActive s' = false
    /\ player s' = {| Player.x := c_width demo_host / 2;
                      Player.y := c_height demo_host - 60;
                      Player.w := 36; Player.h := 28 |}.
Proof.
  apply (failed_start_wipes_field demo_host). reflexivity.
Defined.
